(** * Legal Evidence Organizer: a shallow embedding of the backend

    Python [str] values are modelled as Rocq strings whose characters are
    Latin-1 code points (one [ascii] per character); the regular expression
    engine, [str.strip], [str.isdigit], [datetime.strptime] and [json.loads]
    are modelled on that alphabet. *)

From Stdlib Require Import List Bool Arith Lia String Ascii ZArith.
From Stdlib Require Import Sorting.Permutation Sorting.Sorted Setoid.
Import ListNotations.
Open Scope string_scope.
Open Scope nat_scope.
Open Scope list_scope.

(* ------------------------------------------------------------------ *)
(** ** Characters and Python string helpers *)

Module PyStr.

Definition code (c : ascii) : nat := nat_of_ascii c.

(** [str.isspace] on Latin-1: \t \n \v \f \r, \x1c-\x1f, space, \x85, \xa0.
    This is also the class [\s] of a [str] pattern. *)
Definition isspace (c : ascii) : bool :=
  let n := code c in
  ((9 <=? n) && (n <=? 13)) || ((28 <=? n) && (n <=? 32))
  || (n =? 133) || (n =? 160).

(** [\d] of a [str] pattern: decimal digits (Latin-1 has only 0-9). *)
Definition isdecimal (c : ascii) : bool :=
  let n := code c in (48 <=? n) && (n <=? 57).

(** [str.isdigit] on Latin-1: 0-9 and the superscripts two, three, one. *)
Definition isdigit_char (c : ascii) : bool :=
  isdecimal c || (code c =? 178) || (code c =? 179) || (code c =? 185).

Definition chars (s : string) : list ascii := list_ascii_of_string s.
Definition of_chars (l : list ascii) : string := string_of_list_ascii l.

Fixpoint lstrip_l (l : list ascii) : list ascii :=
  match l with
  | c :: t => if isspace c then lstrip_l t else l
  | [] => []
  end.

(** [str.strip()] with no argument. *)
Definition strip_l (l : list ascii) : list ascii := rev (lstrip_l (rev (lstrip_l l))).
Definition strip (s : string) : string := of_chars (strip_l (chars s)).

(** [str.isdigit()]: non-empty and every character a digit. *)
Definition isdigit (s : string) : bool :=
  match chars s with
  | [] => false
  | l => forallb isdigit_char l
  end.

Definition digit_value (c : ascii) : nat := code c - 48.

Fixpoint nat_of_digits_acc (acc : nat) (l : list ascii) : nat :=
  match l with
  | [] => acc
  | c :: t => nat_of_digits_acc (acc * 10 + digit_value c) t
  end.

Definition nat_of_digits (l : list ascii) : nat := nat_of_digits_acc 0 l.

(** [int(s)] restricted to what the callers feed it: [None] is the
    [ValueError] of Python.  Accepted: optional surrounding whitespace,
    an optional sign, decimal digits with single underscores between them,
    at most [max_str_digits] digits (leading zeros count, underscores do
    not). *)
Fixpoint digits_underscored (l : list ascii) : bool :=
  match l with
  | [c] => isdecimal c
  | c :: (d :: _) as t =>
      isdecimal c &&
      (if ascii_dec d "_" then
         match t with
         | _ :: (e :: _) as u => isdecimal e && digits_underscored u
         | _ => false
         end
       else digits_underscored t)
  | [] => false
  end.

(** [sys.get_int_max_str_digits()] by default (CPython 3.11 and later):
    [int] of a string with more digits raises [ValueError]. *)
Definition max_str_digits : nat := 4300.

Definition py_int (s : string) : option Z :=
  let l := strip_l (chars s) in
  let sb :=
    match l with
    | c :: t => if ascii_dec c "-" then ((-1)%Z, t)
                else if ascii_dec c "+" then (1%Z, t) else (1%Z, l)
    | [] => (1%Z, [])
    end in
  if digits_underscored (snd sb)
  then
    let ds := filter (fun c => if ascii_dec c "_" then false else true) (snd sb) in
    if max_str_digits <? List.length ds then None
    else Some (fst sb * Z.of_nat (nat_of_digits ds))%Z
  else None.

(** [str.split(sep)] for a one-character separator. *)
Fixpoint split_l (sep : ascii) (l : list ascii) : list (list ascii) :=
  match l with
  | [] => [[]]
  | c :: t =>
      let rest := split_l sep t in
      if ascii_dec c sep then [] :: rest
      else match rest with
           | w :: ws => (c :: w) :: ws
           | [] => [[c]]
           end
  end.

Definition split (sep : ascii) (s : string) : list string := map of_chars (split_l sep (chars s)).

(** [sub in s] for strings. *)
Definition contains (s sub : string) : bool :=
  if (String.length sub =? 0)%nat then true
  else existsb (fun i => String.eqb (substring i (String.length sub) s) sub)
               (seq 0 (String.length s)).

(** [s.endswith(suffix)]. *)
Definition endswith (s suffix : string) : bool :=
  (String.length suffix <=? String.length s)%nat &&
  String.eqb (substring (String.length s - String.length suffix) (String.length suffix) s) suffix.

(** Reading a file opened in text mode: universal newlines turn "\r\n" and
    a lone "\r" into "\n". *)
Fixpoint universal_newlines_l (l : list ascii) : list ascii :=
  match l with
  | c :: t =>
      if ascii_dec c "013" then
        match t with
        | d :: u => if ascii_dec d "010" then "010"%char :: universal_newlines_l u
                    else "010"%char :: universal_newlines_l t
        | [] => ["010"%char]
        end
      else c :: universal_newlines_l t
  | [] => []
  end.

Definition universal_newlines (s : string) : string := of_chars (universal_newlines_l (chars s)).

End PyStr.

(* ------------------------------------------------------------------ *)
(** ** Regular expressions with Python [re] backtracking semantics

    [rmatch n r s c] lists every way [r] matches a prefix of [s], in the
    order the backtracking engine of [re] tries them: the first element is
    the match [re] reports.  The suffix left unmatched stands for the end
    position.  A repetition only iterates a body that consumed input (every
    repeated body in this development is non-nullable), so [n >= length s]
    bounds the iterations and makes the search exhaustive. *)

Module Regex.

Inductive regex : Type :=
| RClass (p : ascii -> bool)
| RSeq (r1 r2 : regex)
| RAlt (r1 r2 : regex)
| RRepeat (r : regex) (lo : nat) (hi : option nat) (greedy : bool)
| RGroup (k : nat) (r : regex)
| RLookahead (r : regex)
| REndAnchor
| REmpty.

Definition caps := list (nat * list ascii).
Definition mstate := (list ascii * caps)%type.

Fixpoint rmatch (n : nat) : regex -> list ascii -> caps -> list mstate :=
  fix go (r : regex) (s : list ascii) (c : caps) {struct r} : list mstate :=
    match r with
    | RClass p =>
        match s with
        | x :: s' => if p x then [(s', c)] else []
        | [] => []
        end
    | RSeq r1 r2 => flat_map (fun st => go r2 (fst st) (snd st)) (go r1 s c)
    | RAlt r1 r2 => go r1 s c ++ go r2 s c
    | RRepeat r1 lo hi g =>
        let more :=
          match hi with
          | Some 0 => []
          | _ =>
              flat_map (fun st =>
                if List.length (fst st) <? List.length s then
                  match n with
                  | 0 => []
                  | S n' => rmatch n' (RRepeat r1 (pred lo) (option_map pred hi) g)
                                   (fst st) (snd st)
                  end
                else []) (go r1 s c)
          end in
        let stop := if lo =? 0 then [(s, c)] else [] in
        if g then more ++ stop else stop ++ more
    | RGroup k r1 =>
        map (fun st => (fst st, (k, firstn (List.length s - List.length (fst st)) s) :: snd st))
            (go r1 s c)
    | RLookahead r1 =>
        match go r1 s c with
        | st :: _ => [(s, snd st)]
        | [] => []
        end
    | REndAnchor =>
        match s with
        | [] => [(s, c)]
        | [x] => if ascii_dec x "010" then [(s, c)] else []
        | _ => []
        end
    | REmpty => [(s, c)]
    end.

(** [pattern.match(s)]: anchored at the start, first match in priority order. *)
Definition match_prefix (r : regex) (s : list ascii) : option mstate :=
  hd_error (rmatch (List.length s) r s []).

Fixpoint group (c : caps) (k : nat) : list ascii :=
  match c with
  | (j, v) :: t => if j =? k then v else group t k
  | [] => []
  end.

(** One match of [finditer]: start and end offsets and the captures. *)
Record found := mkfound { f_start : nat; f_end : nat; f_caps : caps }.

(** The scanner of [re.finditer] / [re.findall]: leftmost match, then
    resume at its end; an empty match resumes one character further. *)
Fixpoint finditer_aux (r : regex) (k pos : nat) (s : list ascii) : list found :=
  match k with
  | 0 => []
  | S k' =>
      match match_prefix r s with
      | Some (s1, c1) =>
          mkfound pos (pos + (List.length s - List.length s1)) c1 ::
          (if List.length s1 <? List.length s then finditer_aux r k' (pos + (List.length s - List.length s1)) s1
           else match s with
                | [] => []
                | _ :: t => finditer_aux r k' (S pos) t
                end)
      | None =>
          match s with
          | [] => []
          | _ :: t => finditer_aux r k' (S pos) t
          end
      end
  end.

Definition finditer (r : regex) (s : list ascii) : list found :=
  finditer_aux r (S (List.length s)) 0 s.

(** [re.findall] for a pattern with groups [1..g]: one tuple per match. *)
Definition findall (r : regex) (ngroups : nat) (s : string) : list (list string) :=
  map (fun f => map (fun k => PyStr.of_chars (group (f_caps f) k)) (seq 1 ngroups))
      (finditer r (PyStr.chars s)).

(** Building blocks. *)
Definition lit (c : ascii) : regex := RClass (fun x => if ascii_dec x c then true else false).
Fixpoint lits (l : list ascii) : regex :=
  match l with
  | [] => REmpty
  | [c] => lit c
  | c :: t => RSeq (lit c) (lits t)
  end.
Definition str (s : string) : regex := lits (PyStr.chars s).
Definition digit : regex := RClass PyStr.isdecimal.
Definition space : regex := RClass PyStr.isspace.
Definition anychar : regex := RClass (fun _ => true).
Definition range (lo hi : ascii) : regex :=
  RClass (fun x => (nat_of_ascii lo <=? nat_of_ascii x) && (nat_of_ascii x <=? nat_of_ascii hi)).
Definition seqs (l : list regex) : regex := fold_right RSeq REmpty l.
Definition alts (r : regex) (l : list regex) : regex := fold_left RAlt l r.
Definition rep (r : regex) (lo hi : nat) : regex := RRepeat r lo (Some hi) true.
Definition star (r : regex) : regex := RRepeat r 0 None true.
Definition lazy_star (r : regex) : regex := RRepeat r 0 None false.
Definition plus (r : regex) : regex := RRepeat r 1 None true.
Definition opt (r : regex) : regex := RRepeat r 0 (Some 1) true.

End Regex.

(* ------------------------------------------------------------------ *)
(** ** [datetime] and [datetime.strptime] *)

Module DT.

(** A naive [datetime.datetime]. *)
Record datetime := mkdt {
  year : nat; month : nat; day : nat;
  hour : nat; minute : nat; second : nat; microsecond : nat }.

Definition is_leap (y : nat) : bool :=
  (Nat.eqb (y mod 4) 0 && negb (Nat.eqb (y mod 100) 0)) || Nat.eqb (y mod 400) 0.

Definition days_in_month (y m : nat) : nat :=
  match m with
  | 1 | 3 | 5 | 7 | 8 | 10 | 12 => 31
  | 4 | 6 | 9 | 11 => 30
  | 2 => if is_leap y then 29 else 28
  | _ => 0
  end.

(** The range checks of the [datetime] constructor. *)
Definition valid (d : datetime) : bool :=
  (1 <=? year d) && (year d <=? 9999) && (1 <=? month d) && (month d <=? 12)
  && (1 <=? day d) && (day d <=? days_in_month (year d) (month d))
  && (hour d <=? 23) && (minute d <=? 59) && (second d <=? 59)
  && (microsecond d <=? 999999).

Import Regex.

(** The regular expressions [_strptime.TimeRE] uses for the directives. *)
Definition directive (c : ascii) : option regex :=
  let g := RGroup (nat_of_ascii c) in
  if ascii_dec c "d" then Some (g (alts (RSeq (lit "3") (range "0" "1"))
        [RSeq (range "1" "2") digit; RSeq (lit "0") (range "1" "9");
         range "1" "9"; RSeq (lit " ") (range "1" "9")]))
  else if ascii_dec c "H" then Some (g (alts (RSeq (lit "2") (range "0" "3"))
        [RSeq (range "0" "1") digit; digit]))
  else if ascii_dec c "m" then Some (g (alts (RSeq (lit "1") (range "0" "2"))
        [RSeq (lit "0") (range "1" "9"); range "1" "9"]))
  else if ascii_dec c "M" then Some (g (alts (RSeq (range "0" "5") digit) [digit]))
  else if ascii_dec c "S" then Some (g (alts (RSeq (lit "6") (range "0" "1"))
        [RSeq (range "0" "5") digit; digit]))
  else if ascii_dec c "y" then Some (g (RSeq digit digit))
  else if ascii_dec c "Y" then Some (g (seqs [digit; digit; digit; digit]))
  else None.

(** [TimeRE.pattern]: a run of whitespace becomes [\s+], [%x] becomes the
    directive's expression, anything else is matched literally; an unknown
    directive is the [ValueError] "bad directive". *)
Fixpoint compile_format (fuel : nat) (f : list ascii) : option regex :=
  match fuel with
  | 0 => Some REmpty
  | S fuel' =>
      match f with
      | [] => Some REmpty
      | c :: t =>
          if ascii_dec c "%" then
            match t with
            | d :: u =>
                match directive d, compile_format fuel' u with
                | Some r, Some rest => Some (RSeq r rest)
                | _, _ => None
                end
            | [] => None
            end
          else if PyStr.isspace c then
            option_map (RSeq (plus space)) (compile_format fuel' (PyStr.lstrip_l t))
          else option_map (RSeq (lit c)) (compile_format fuel' t)
      end
  end.

Definition field (c : caps) (k : ascii) : option nat :=
  match group c (nat_of_ascii k) with
  | [] => None
  | v => Some (PyStr.nat_of_digits (filter PyStr.isdecimal v))
  end.

Definition with_default (o : option nat) (d : nat) : nat :=
  match o with Some v => v | None => d end.

(** [datetime.strptime(s, fmt)]; [None] is its [ValueError]. *)
Definition strptime (s fmt : string) : option datetime :=
  match compile_format (S (String.length fmt)) (PyStr.chars fmt) with
  | None => None
  | Some r =>
      match match_prefix r (PyStr.chars s) with
      | Some ([], c) =>
          let y := match field c "y", field c "Y" with
                   | Some v, _ => if v <=? 68 then v + 2000 else v + 1900
                   | None, Some v => v
                   | None, None => 1900
                   end in
          let d := mkdt y (with_default (field c "m") 1) (with_default (field c "d") 1)
                        (with_default (field c "H") 0) (with_default (field c "M") 0)
                        (with_default (field c "S") 0) 0 in
          if valid d then Some d else None
      | _ => None
      end
  end.

End DT.

(* ------------------------------------------------------------------ *)
(** ** [ChatService] (app/services/chat_service.py) *)

Module Chat.

Import Regex DT.

(** [\d{1,2}/\d{1,2}/\d{2,4}] *)
Definition date_re : regex :=
  seqs [rep digit 1 2; lit "/"; rep digit 1 2; lit "/"; rep digit 2 4].

(** The pattern of [process_chat_file]:
    [\[(\d{1,2}/\d{1,2}/\d{2,4}),\s*(\d{1,2}:\d{1,2}(?::\d{1,2})?\s*(?:AM|PM)?)\]\s*([^:]+):\s*(.*?)(?=\n\[\d{1,2}/\d{1,2}/\d{2,4}|$)]
    (compiled with [re.DOTALL]). *)
Definition pattern : regex :=
  seqs [lit "[";
        RGroup 1 date_re;
        lit ","; star space;
        RGroup 2 (seqs [rep digit 1 2; lit ":"; rep digit 1 2;
                        opt (RSeq (lit ":") (rep digit 1 2));
                        star space;
                        opt (RAlt (str "AM") (str "PM"))]);
        lit "]"; star space;
        RGroup 3 (plus (RClass (fun x => if ascii_dec x ":" then false else true)));
        lit ":"; star space;
        RGroup 4 (lazy_star anychar);
        RLookahead (RAlt (seqs [lit "010"; lit "["; date_re]) REndAnchor)].

(** One entry of the [chat_messages] list. *)
Record chat_message := mkmsg {
  date_time : datetime; sender : string; message : string; file_path : string }.

(** The four nested [try] blocks: m/d/y, d/m/y, m/d/y with seconds,
    d/m/y with seconds; when all fail, [datetime.utcnow()]. *)
Definition parse_date_time (now : datetime) (date_str time_str : string) : datetime :=
  let s := (date_str ++ " " ++ time_str)%string in
  match strptime s "%m/%d/%y %H:%M" with
  | Some d => d
  | None =>
      match strptime s "%d/%m/%y %H:%M" with
      | Some d => d
      | None =>
          match strptime s "%m/%d/%y %H:%M:%S" with
          | Some d => d
          | None =>
              match strptime s "%d/%m/%y %H:%M:%S" with
              | Some d => d
              | None => now
              end
          end
      end
  end.

Definition message_of_match (now : datetime) (path : string) (m : list string) : chat_message :=
  match m with
  | [date_str; time_str; snd; msg] =>
      mkmsg (parse_date_time now date_str time_str) (PyStr.strip snd) (PyStr.strip msg) path
  | _ => mkmsg now "" "" path
  end.

(** [process_chat_file]: [fs] gives the raw text of a readable file
    ([None]: the [open]/[read] raised, caught by the outer handler). *)
Definition process_chat_file (now : datetime) (fs : string -> option string)
    (path : string) : list chat_message :=
  match fs path with
  | None => []
  | Some raw =>
      let chat_text := PyStr.universal_newlines raw in
      map (message_of_match now path) (findall pattern 4 chat_text)
  end.

End Chat.

(* ------------------------------------------------------------------ *)
(** ** [json.loads] (the C scanner of CPython, [strict=True]) *)

Module Json.

Inductive json : Type :=
| JNull
| JBool (b : bool)
| JInt (z : Z)
| JFloat (lexeme : string)
| JStr (s : string)
| JArr (l : list json)
| JObj (kvs : list (string * json)).

(** Outcome of decoding: a value, [JSONDecodeError], another exception
    escaping [json.loads] ([RecursionError] on deep nesting, the
    [ValueError] of the integer digit limit) with its message, or a
    document that decodes but holds a [\uXXXX] escape beyond U+00FF, which
    leaves the modelled alphabet. *)
Inductive jres (A : Type) : Type :=
| JOk (a : A)
| JErr
| JOther (msg : string)
| JOut.
Arguments JOk {A} a.
Arguments JErr {A}.
Arguments JOther {A} msg.
Arguments JOut {A}.

(** Interpreter limits: how many nested containers the remaining recursion
    budget allows, and [sys.get_int_max_str_digits()]. *)
Record limits := mklimits { depth_limit : nat; int_digits_limit : nat }.

Definition is_ws (c : ascii) : bool :=
  match nat_of_ascii c with 32 | 9 | 10 | 13 => true | _ => false end.

Fixpoint skip_ws (l : list ascii) : list ascii :=
  match l with
  | c :: t => if is_ws c then skip_ws t else l
  | [] => []
  end.

Definition is_char (c : ascii) (d : ascii) : bool := if ascii_dec c d then true else false.

Fixpoint strip_prefix (p l : list ascii) : option (list ascii) :=
  match p, l with
  | [], _ => Some l
  | c :: p', d :: l' => if ascii_dec c d then strip_prefix p' l' else None
  | _, [] => None
  end.

Definition hexval (c : ascii) : option nat :=
  let n := nat_of_ascii c in
  if (48 <=? n) && (n <=? 57) then Some (n - 48)
  else if (65 <=? n) && (n <=? 70) then Some (n - 55)
  else if (97 <=? n) && (n <=? 102) then Some (n - 87)
  else None.

Definition hex4 (l : list ascii) : option (nat * list ascii) :=
  match l with
  | a :: b :: c :: d :: t =>
      match hexval a, hexval b, hexval c, hexval d with
      | Some x, Some y, Some z, Some w => Some (((x * 16 + y) * 16 + z) * 16 + w, t)
      | _, _, _, _ => None
      end
  | _ => None
  end.

Definition simple_escape (e : ascii) : option ascii :=
  match nat_of_ascii e with
  | 34 => Some "034"%char | 92 => Some "092"%char | 47 => Some "/"%char
  | 98 => Some "008"%char | 102 => Some "012"%char | 110 => Some "010"%char
  | 114 => Some "013"%char | 116 => Some "009"%char
  | _ => None
  end.

(** [scanstring]: the body of a string literal after its opening quote.
    A [\uXXXX] escape beyond U+00FF is decoded like any other (a surrogate
    pair is two such escapes, each with four hex digits) and scanning goes
    on: the flag [out] records it, and the character is not kept. *)
Fixpoint pstring (fuel : nat) (s acc : list ascii) (out : bool) : jres (string * bool * list ascii) :=
  match fuel with
  | 0 => JOut
  | S f =>
      match s with
      | [] => JErr
      | c :: t =>
          if is_char c "034"%char then JOk (PyStr.of_chars (rev acc), out, t)
          else if is_char c "\" then
            match t with
            | [] => JErr
            | e :: u =>
                if is_char e "u" then
                  match hex4 u with
                  | Some (v, u') =>
                      if v <? 256 then pstring f u' (ascii_of_nat v :: acc) out
                      else pstring f u' acc true
                  | None => JErr
                  end
                else match simple_escape e with
                     | Some ch => pstring f u (ch :: acc) out
                     | None => JErr
                     end
            end
          else if nat_of_ascii c <? 32 then JErr
          else pstring f t (c :: acc) out
      end
  end.

Fixpoint span_digits (l : list ascii) : list ascii * list ascii :=
  match l with
  | c :: t => if PyStr.isdecimal c then let '(d, r) := span_digits t in (c :: d, r) else ([], l)
  | [] => ([], [])
  end.

(** [_match_number]: optional minus, then [0] or a nonzero digit and more
    digits, then an optional fraction and an optional exponent; an exponent
    or fraction without digits is left unconsumed.  [JErr] when no number
    starts here (the scanner's [StopIteration]). *)
Definition pnumber (lim : limits) (s : list ascii) : jres (json * list ascii) :=
  let '(neg, s1) := match s with
                    | c :: t => if is_char c "-" then (true, t) else (false, s)
                    | [] => (false, s)
                    end in
  let int_part :=
    match s1 with
    | c :: t =>
        if is_char c "0" then Some ([c], t)
        else if PyStr.isdecimal c then let '(d, r) := span_digits t in Some (c :: d, r)
        else None
    | [] => None
    end in
  match int_part with
  | None => JErr
  | Some (ip, s2) =>
      let '(frac, s3) :=
        match s2 with
        | c :: ((d :: _) as t) =>
            if is_char c "." && PyStr.isdecimal d then let '(ds, r) := span_digits t in (c :: ds, r)
            else ([], s2)
        | _ => ([], s2)
        end in
      let '(ex, s4) :=
        match s3 with
        | c :: t =>
            if is_char c "e" || is_char c "E" then
              let '(sg, t') := match t with
                               | d :: u => if is_char d "+" || is_char d "-" then ([d], u) else ([], t)
                               | [] => ([], t)
                               end in
              match span_digits t' with
              | ([], _) => ([], s3)
              | (ds, r) => (c :: sg ++ ds, r)
              end
            else ([], s3)
        | [] => ([], s3)
        end in
      let lexeme := (if neg then ["-"%char] else []) ++ ip ++ frac ++ ex in
      match frac, ex with
      | [], [] =>
          if int_digits_limit lim <? List.length ip
          then JOther "Exceeds the limit for integer string conversion"
          else JOk (JInt ((if neg then (-1) else 1) * Z.of_nat (PyStr.nat_of_digits ip))%Z, s4)
      | _, _ => JOk (JFloat (PyStr.of_chars lexeme), s4)
      end
  end.

Definition recursion_msg (what : string) : string :=
  "maximum recursion depth exceeded while decoding a JSON " ++ what ++ " from a unicode string".

(** [scan_once], [_parse_object] and [_parse_array]; [depth] counts the
    containers being decoded, and the flag of a result says whether a
    string inside it had an escape beyond U+00FF. *)
Fixpoint pvalue (lim : limits) (fuel depth : nat) (s : list ascii) : jres (json * bool * list ascii) :=
  match fuel with
  | 0 => JOut
  | S f =>
      match s with
      | [] => JErr
      | c :: t =>
          if is_char c "034"%char then
            match pstring (S (List.length t)) t [] false with
            | JOk (str, o, r) => JOk (JStr str, o, r)
            | JErr => JErr | JOther m => JOther m | JOut => JOut
            end
          else if is_char c "{" then
            if depth_limit lim <=? depth then JOther (recursion_msg "object")
            else match skip_ws t with
                 | d :: u => if is_char d "}" then JOk (JObj [], false, u)
                             else pmembers lim f (S depth) (d :: u) [] false
                 | [] => JErr
                 end
          else if is_char c "[" then
            if depth_limit lim <=? depth then JOther (recursion_msg "array")
            else match skip_ws t with
                 | d :: u => if is_char d "]" then JOk (JArr [], false, u)
                             else pelements lim f (S depth) (d :: u) [] false
                 | [] => JErr
                 end
          else match strip_prefix (PyStr.chars "null") s with Some r => JOk (JNull, false, r) | None =>
               match strip_prefix (PyStr.chars "true") s with Some r => JOk (JBool true, false, r) | None =>
               match strip_prefix (PyStr.chars "false") s with Some r => JOk (JBool false, false, r) | None =>
               match strip_prefix (PyStr.chars "NaN") s with Some r => JOk (JFloat "NaN", false, r) | None =>
               match strip_prefix (PyStr.chars "Infinity") s with Some r => JOk (JFloat "Infinity", false, r) | None =>
               match strip_prefix (PyStr.chars "-Infinity") s with Some r => JOk (JFloat "-Infinity", false, r) | None =>
               match pnumber lim s with
               | JOk (v, r) => JOk (v, false, r)
               | JErr => JErr | JOther m => JOther m | JOut => JOut
               end end end end end end end
      end
  end
with pmembers (lim : limits) (fuel depth : nat) (s : list ascii) (acc : list (string * json))
    (out : bool) : jres (json * bool * list ascii) :=
  match fuel with
  | 0 => JOut
  | S f =>
      match s with
      | c :: t =>
          if is_char c "034"%char then
            match pstring (S (List.length t)) t [] out with
            | JOk (key, o1, r) =>
                match skip_ws r with
                | d :: u =>
                    if is_char d ":" then
                      match pvalue lim f depth (skip_ws u) with
                      | JOk (v, o2, r2) =>
                          match skip_ws r2 with
                          | e :: w =>
                              if is_char e "}" then JOk (JObj (rev ((key, v) :: acc)), o1 || o2, w)
                              else if is_char e "," then pmembers lim f depth (skip_ws w) ((key, v) :: acc) (o1 || o2)
                              else JErr
                          | [] => JErr
                          end
                      | JErr => JErr | JOther m => JOther m | JOut => JOut
                      end
                    else JErr
                | [] => JErr
                end
            | JErr => JErr | JOther m => JOther m | JOut => JOut
            end
          else JErr
      | [] => JErr
      end
  end
with pelements (lim : limits) (fuel depth : nat) (s : list ascii) (acc : list json)
    (out : bool) : jres (json * bool * list ascii) :=
  match fuel with
  | 0 => JOut
  | S f =>
      match pvalue lim f depth s with
      | JOk (v, o, r) =>
          match skip_ws r with
          | e :: w =>
              if is_char e "]" then JOk (JArr (rev (v :: acc)), out || o, w)
              else if is_char e "," then pelements lim f depth (skip_ws w) (v :: acc) (out || o)
              else JErr
          | [] => JErr
          end
      | JErr => JErr | JOther m => JOther m | JOut => JOut
      end
  end.

(** [json.loads(s)]: leading whitespace, one value, trailing whitespace,
    nothing else ("Extra data").  Each character read allows two nested
    calls (a value and the list it opens), so the fuel is never the limit.
    [JOut] only for a document that decodes. *)
Definition json_loads (lim : limits) (s : string) : jres json :=
  let l := PyStr.chars s in
  match pvalue lim (2 * List.length l + 2) 0 (skip_ws l) with
  | JOk (v, out, rest) =>
      match skip_ws rest with
      | [] => if out then JOut else JOk v
      | _ => JErr
      end
  | JErr => JErr
  | JOther m => JOther m
  | JOut => JOut
  end.

(** [d.get(k)] on a dict decoded from JSON: the last binding of [k]. *)
Definition dict_get (kvs : list (string * json)) (k : string) : option json :=
  fold_left (fun acc kv => if String.eqb (fst kv) k then Some (snd kv) else acc) kvs None.

(** [k in d] for a dict. *)
Definition dict_has (kvs : list (string * json)) (k : string) : bool :=
  existsb (fun kv => String.eqb (fst kv) k) kvs.

End Json.

(* ------------------------------------------------------------------ *)
(** ** The model services (gemini_service.py, openai_service.py) *)

Module LLM.

Import Json.

(** What the [try] block yields up to the model's reply: the reply text,
    or an exception raised on the way (formatting, transport, provider),
    with its [str(e)]. *)
Inductive outcome : Type :=
| Reply (text : string)
| Raised (msg : string).

(** [GeminiService.generate_timeline]; [None] only for a reply outside the
    modelled alphabet. *)
Definition generate_timeline (lim : limits) (o : outcome) : option json :=
  let err m := JObj [("title", JStr "Timeline of Contract Dispute");
                     ("overview", JStr ("Error generating timeline: " ++ m));
                     ("events", JArr [])] in
  match o with
  | Raised m => Some (err m)
  | Reply r =>
      match json_loads lim r with
      | JOk v => Some v
      | JErr => Some (JObj [("title", JStr "Timeline of Contract Dispute");
                            ("overview", JStr "Error parsing structured data");
                            ("raw_response", JStr r);
                            ("events", JArr [])])
      | JOther m => Some (err m)
      | JOut => None
      end
  end.

(** [OpenAIService.analyze_evidence]. *)
Definition analyze_evidence (lim : limits) (o : outcome) : option json :=
  let err m := JObj [("summary", JStr ("Error analyzing evidence: " ++ m));
                     ("key_issues", JArr []);
                     ("recommended_evidence", JArr [])] in
  match o with
  | Raised m => Some (err m)
  | Reply r =>
      match json_loads lim r with
      | JOk v => Some v
      | JErr => Some (JObj [("summary", JStr "Error parsing structured data");
                            ("raw_response", JStr r);
                            ("key_issues", JArr []);
                            ("recommended_evidence", JArr [])])
      | JOther m => Some (err m)
      | JOut => None
      end
  end.

(** [OpenAIService.generate_report]. *)
Definition generate_report (lim : limits) (o : outcome) : option json :=
  let err m := JObj [("title", JStr "Legal Report");
                     ("executive_summary", JStr ("Error generating report: " ++ m))] in
  match o with
  | Raised m => Some (err m)
  | Reply r =>
      match json_loads lim r with
      | JOk v => Some v
      | JErr => Some (JObj [("title", JStr "Legal Report");
                            ("executive_summary", JStr "Error parsing structured data");
                            ("raw_response", JStr r)])
      | JOther m => Some (err m)
      | JOut => None
      end
  end.

End LLM.

(* ------------------------------------------------------------------ *)
(** ** Python operations on decoded JSON values *)

Module PyVal.

Import Json.

Definition nl : string := String "010" EmptyString.
Definition nn : string := nl ++ nl.

(** [d.get(k, default)]. *)
Definition get_or (kvs : list (string * json)) (k : string) (d : json) : json :=
  match dict_get kvs k with Some v => v | None => d end.

Fixpoint dict_keys_aux (seen : list string) (kvs : list (string * json)) : list string :=
  match kvs with
  | [] => []
  | (k, _) :: t => if existsb (String.eqb k) seen then dict_keys_aux seen t
                   else k :: dict_keys_aux (k :: seen) t
  end.

(** The keys of a dict decoded from pairs, in first-insertion order. *)
Definition dict_keys (kvs : list (string * json)) : list string := dict_keys_aux [] kvs.

(** [k in v] for a string [k]; [None] is the [TypeError] of a value that
    supports no membership test. *)
Definition py_in (k : string) (v : json) : option bool :=
  match v with
  | JObj kvs => Some (dict_has kvs k)
  | JArr l => Some (existsb (fun x => match x with JStr s => String.eqb s k | _ => false end) l)
  | JStr s => Some (PyStr.contains s k)
  | _ => None
  end.

(** [v[k]] for a string key, after [k in v] held; only a dict allows it. *)
Definition py_index (v : json) (k : string) : option json :=
  match v with
  | JObj kvs => dict_get kvs k
  | _ => None
  end.

(** [for x in v]: a list yields its items, a string its characters, a dict
    its keys; anything else raises [TypeError]. *)
Definition py_iter (v : json) : option (list json) :=
  match v with
  | JArr l => Some l
  | JStr s => Some (map (fun c => JStr (String c EmptyString)) (PyStr.chars s))
  | JObj kvs => Some (map JStr (dict_keys kvs))
  | _ => None
  end.

(** Truth value of a float given by its JSON lexeme. *)
Definition float_truthy (lexeme : string) : bool :=
  let l := PyStr.chars lexeme in
  let mantissa := fold_right (fun c acc => if Json.is_char c "e" || Json.is_char c "E" then [] else c :: acc) [] l in
  existsb (fun c => Json.is_char c "N" || Json.is_char c "I") l
  || existsb (fun c => PyStr.isdecimal c && negb (Json.is_char c "0")) mantissa.

Definition py_truthy (v : json) : bool :=
  match v with
  | JNull => false
  | JBool b => b
  | JInt z => negb (Z.eqb z 0)
  | JFloat lx => float_truthy lx
  | JStr s => negb (String.eqb s EmptyString)
  | JArr l => match l with [] => false | _ => true end
  | JObj kvs => match kvs with [] => false | _ => true end
  end.

(** Values the sqlite3 driver binds to a column: [None], [bool], [int] in
    64 bits, [float], [str]; a list or dict raises at commit. *)
Definition bindable (v : json) : bool :=
  match v with
  | JInt z => (- 2 ^ 63 <=? z)%Z && (z <? 2 ^ 63)%Z
  | JArr _ | JObj _ => false
  | _ => true
  end.

Fixpoint nat_digits (fuel n : nat) : list ascii :=
  match fuel with
  | 0 => []
  | S f => if n <? 10 then [ascii_of_nat (48 + n)]
           else nat_digits f (n / 10) ++ [ascii_of_nat (48 + n mod 10)]
  end.

(** [str(n)] for a natural number. *)
Definition string_of_nat (n : nat) : string := PyStr.of_chars (nat_digits (S n) n).

End PyVal.

(* ------------------------------------------------------------------ *)
(** ** Timelines and reports (routes/timeline.py, routes/report.py) *)

Module Store.

Import Json PyVal.

Definition timeline_placeholder : string := "Generating timeline... This may take a few minutes.".
Definition report_placeholder : string := "Generating report... This may take a few minutes.".

(** Rows as committed.  Text columns hold whatever the code bound to them,
    hence a [json] value where the code writes a decoded value. *)
Record timeline_row := mktl { tl_id : nat; tl_title : string; tl_description : json }.

Record event_row := mkev {
  ev_timeline_id : nat; ev_date : option DT.datetime; ev_title : json;
  ev_description : json; ev_source_type : string; ev_source_id : Z }.

Record report_row := mkrep { rp_id : nat; rp_title : string; rp_content : string; rp_timeline_id : nat }.

Record db := mkdb {
  timelines : list timeline_row;
  timeline_events : list event_row;
  reports : list report_row }.

(** SQLite's rowid for a new row: one more than the largest in use. *)
Definition next_id (ids : list nat) : nat := S (fold_right Nat.max 0 ids).

Record accepted := mkacc { acc_id : nat; acc_status : string; acc_message : string }.

Inductive http_result : Type :=
| Accepted (a : accepted)
| HttpError (code : nat) (detail : string).

(** [POST /timeline/generate], synchronous part. *)
Definition timeline_request (title : string) (st : db) : db * http_result :=
  let id := next_id (map tl_id (timelines st)) in
  (mkdb (timelines st ++ [mktl id title (JStr timeline_placeholder)]) (timeline_events st) (reports st),
   Accepted (mkacc id "processing" "Timeline generation started. This may take a few minutes.")).

Definition has_timeline (tid : nat) (st : db) : bool := existsb (fun r => tl_id r =? tid) (timelines st).

(** [POST /report/generate], synchronous part. *)
Definition report_request (timeline_id : nat) (title : string) (st : db) : db * http_result :=
  if has_timeline timeline_id st then
    let id := next_id (map rp_id (reports st)) in
    (mkdb (timelines st) (timeline_events st)
          (reports st ++ [mkrep id title report_placeholder timeline_id]),
     Accepted (mkacc id "processing" "Report generation started. This may take a few minutes."))
  else (st, HttpError 404 ("Timeline with ID " ++ string_of_nat timeline_id ++ " not found")).

(** What [db.get_bind()] returns on the request's [AsyncSession]: the bind
    of its [sync_session], i.e. the synchronous [Engine] that the
    [AsyncEngine] of database.py wraps. *)
Inductive bind_target : Type :=
| SyncEngine
| AsyncEngineBind.

Definition request_get_bind : bind_target := SyncEngine.

(** [AsyncSession(bind=b)]: the constructor passes [b] to
    [_get_sync_engine_or_connection], which raises [ArgumentError]
    ("AsyncEngine expected, got ...") for anything but an [AsyncEngine] or
    [AsyncConnection]; [None] is that exception. *)
Definition open_async_session (b : bind_target) : option unit :=
  match b with
  | AsyncEngineBind => Some tt
  | SyncEngine => None
  end.

(** [str(e)] of that [ArgumentError], with the default [DATABASE_URL]. *)
Definition bind_error : string :=
  "AsyncEngine expected, got Engine(sqlite+aiosqlite:///./legal_evidence.db)".

(** [async with AsyncSession(bind=db.get_bind()) as session: body]: the body
    runs on the database only once the session is open; [inr m] is an
    exception leaving the block, with its [str]. *)
Definition with_session (body : db -> db + string) (st : db) : db + string :=
  match open_async_session request_get_bind with
  | Some _ => body st
  | None => inr bind_error
  end.

(** Where a background task stands once the model has answered: the
    service's result, or an exception raised before it (reading the
    database, a timeline deleted meanwhile), with its [str(e)]. *)
Inductive stage : Type :=
| Produced (result : json)
| Crashed (msg : string).

(** [source_type] of an event from its source string. *)
Definition source_type_of (src : string) : string :=
  if PyStr.contains src ":" then hd EmptyString (PyStr.split ":" src) else "unknown".

(** [source_id] of an event from its source string; [None] is the
    [ValueError] of [int()] on a string that [isdigit] accepted (a
    superscript digit, or more than [max_str_digits] digits). *)
Definition source_id_of (src : string) : option Z :=
  let tail := last (PyStr.split ":" src) EmptyString in
  if PyStr.contains src ":" && PyStr.isdigit tail then PyStr.py_int tail else Some 0%Z.

Section Writers.

(** [datetime.fromisoformat] with its [strptime(..., "%Y-%m-%d")] fallback,
    both errors caught: only the resulting date is used. *)
Variable parse_event_date : json -> option DT.datetime.
(** [str(e)] of the exception raised on a value. *)
Variable exc_text : json -> string.
(** [str(v)] of a decoded value that is not a string, inside an f-string. *)
Variable str_other : json -> string.

Definition fmt (v : json) : string := match v with JStr s => s | _ => str_other v end.

(** One iteration of the events loop: [Some row] is added to the session,
    [None] is an exception caught by the loop (the event is skipped).  A
    non-dict raises at [in], at its indexing or at [.get]. *)
Definition make_event (tid : nat) (ev : json) : option event_row :=
  match ev with
  | JObj kvs =>
      let date := match dict_get kvs "date" with
                  | Some d => if py_truthy d then parse_event_date d else None
                  | None => None
                  end in
      let title := get_or kvs "title" (JStr "Untitled Event") in
      let descr := get_or kvs "description" (JStr EmptyString) in
      let src0 := get_or kvs "source" (JStr EmptyString) in
      match py_in ":" src0 with
      | None => None
      | Some false => Some (mkev tid date title descr "unknown" 0)
      | Some true =>
          (* the key is present, so [get("source", "unknown")] is [src0] *)
          match src0 with
          | JStr src =>
              match source_id_of src with
              | Some id => Some (mkev tid date title descr (source_type_of src) id)
              | None => None
              end
          | _ => None
          end
      end
  | _ => None
  end.

Definition set_description (tid : nat) (v : json) (st : db) : db :=
  mkdb (map (fun r => if tl_id r =? tid then mktl (tl_id r) (tl_title r) v else r) (timelines st))
       (timeline_events st) (reports st).

(** The [except] branch of [generate_timeline_task]: its own session; an
    exception raised there leaves the task. *)
Definition timeline_failure (tid : nat) (msg : string) : db -> db + string :=
  with_session (fun st =>
    inl (if has_timeline tid st
         then set_description tid (JStr ("Error generating timeline: " ++ msg)) st
         else st)).

(** The values of a new event bound at commit besides its date, its
    timeline id and its [source_type] string, which always bind: [title]
    and [description] as decoded, and the [int] [source_id]. *)
Definition row_values (r : event_row) : list json :=
  [ev_title r; ev_description r; JInt (ev_source_id r)].

(** The second session: the events loop and its commit. *)
Definition save_events (tid : nat) (td : json) (st : db) : db + string :=
  if has_timeline tid st then
    match py_in "events" td with
    | None => inr (exc_text td)
    | Some false => inl st
    | Some true =>
        match py_index td "events" with
        | None => inr (exc_text td)
        | Some evs =>
            match py_iter evs with
            | None => inr (exc_text evs)
            | Some items =>
                let rows := flat_map (fun e => match make_event tid e with Some r => [r] | None => [] end) items in
                match find (fun v => negb (bindable v)) (flat_map row_values rows) with
                | Some bad => inr (exc_text bad)
                | None => inl (mkdb (timelines st) (timeline_events st ++ rows) (reports st))
                end
            end
        end
    end
  else inl st.

(** The first session of [generate_timeline_task]: the overview. *)
Definition save_overview (tid : nat) (td : json) (st : db) : db + string :=
  if has_timeline tid st then
    match td with
    | JObj kvs =>
        let v := get_or kvs "overview" (JStr "Timeline generated successfully.") in
        if bindable v then inl (set_description tid v st) else inr (exc_text v)
    | _ => inr (exc_text td)
    end
  else inl st.

(** [generate_timeline_task] from the model's answer on: the two sessions
    in the [try], then the [except] branch on an exception raised in the
    [try]; an exception of the [except] branch ends the task with the
    database as it was. *)
Definition timeline_task (tid : nat) (s : stage) (st : db) : db :=
  let recover (st0 : db) (m : string) : db :=
    match timeline_failure tid m st0 with
    | inl st' => st'
    | inr _ => st0
    end in
  match s with
  | Crashed m => recover st m
  | Produced td =>
      match with_session (save_overview tid td) st with
      | inr m => recover st m
      | inl st1 =>
          match with_session (save_events tid td) st1 with
          | inl st2 => st2
          | inr m => recover st1 m
          end
      end
  end.

Local Notation "x <- e ;; f" := (match e with Some x => f | None => None end)
  (at level 61, e at next level, right associativity).

Fixpoint map_opt {A B : Type} (f : A -> option B) (l : list A) : option (list B) :=
  match l with
  | [] => Some []
  | x :: t => y <- f x ;; ys <- map_opt f t ;; Some (y :: ys)
  end.

Definition ret (s : string) : option string := Some s.

(** [if k in report_data: content.append(...)] for a plain section. *)
Definition simple_section (rd : json) (k header : string) : option string :=
  b <- py_in k rd ;;
  if b then v <- py_index rd k ;; ret (header ++ fmt v ++ nn) else Some EmptyString.

(** A section whose body iterates over [report_data[k]]. *)
Definition loop_section (rd : json) (k header : string) (item : json -> option string)
    (trailer : string) : option string :=
  b <- py_in k rd ;;
  if b then
    v <- py_index rd k ;; xs <- py_iter v ;; lines <- map_opt item xs ;;
    ret (header ++ String.concat EmptyString lines ++ trailer)
  else Some EmptyString.

Definition timeline_item (e : json) : option string :=
  match e with
  | JObj kvs =>
      ret ("### " ++ fmt (get_or kvs "date" (JStr "Unknown date")) ++ ": "
            ++ fmt (get_or kvs "event" (JStr "Untitled event")) ++ nn
            ++ fmt (get_or kvs "significance" (JStr EmptyString)) ++ nn)
  | _ => None
  end.

Definition issue_item (e : json) : option string :=
  match e with
  | JObj kvs =>
      let head := ("### " ++ fmt (get_or kvs "issue" (JStr "Untitled issue")) ++ nn
                   ++ fmt (get_or kvs "analysis" (JStr EmptyString)) ++ nn)%string in
      if dict_has kvs "supporting_evidence" then
        v <- dict_get kvs "supporting_evidence" ;; ids <- py_iter v ;;
        ret (head ++ "**Supporting Evidence:**" ++ nn
              ++ String.concat EmptyString (map (fun i => "- Evidence ID: " ++ fmt i ++ nl)%string ids) ++ nl)
      else Some head
  | _ => None
  end.

Definition recommendation_item (e : json) : option string := ret ("- " ++ fmt e ++ nl).

Definition evidence_item (e : json) : option string :=
  match e with
  | JObj kvs =>
      ret ("### Evidence " ++ fmt (get_or kvs "id" (JStr "Unknown")) ++ " ("
            ++ fmt (get_or kvs "type" (JStr "Unknown")) ++ ")" ++ nn
            ++ "**Description:** " ++ fmt (get_or kvs "description" (JStr EmptyString)) ++ nn
            ++ "**Relevance:** " ++ fmt (get_or kvs "relevance" (JStr EmptyString)) ++ nn)
  | _ => None
  end.

Definition appendix_section (rd : json) : option string :=
  b <- py_in "appendix" rd ;;
  if b then
    a <- py_index rd "appendix" ;; b2 <- py_in "recommended_evidence_details" a ;;
    if b2 then
      d <- py_index a "recommended_evidence_details" ;; xs <- py_iter d ;;
      lines <- map_opt evidence_item xs ;;
      ret ("## Appendix: Recommended Evidence Details" ++ nn ++ String.concat EmptyString lines)
    else Some EmptyString
  else Some EmptyString.

(** The sections of [generate_report_task], in order; [None] is an
    exception raised while rendering. *)
Definition report_sections (rd : json) : list (option string) :=
  [ simple_section rd "title" "# ";
    simple_section rd "executive_summary" ("## Executive Summary" ++ nn);
    simple_section rd "background" ("## Background and Context" ++ nn);
    loop_section rd "timeline" ("## Timeline of Key Events" ++ nn) timeline_item EmptyString;
    loop_section rd "key_issues" ("## Analysis of Key Issues" ++ nn) issue_item EmptyString;
    simple_section rd "evidence_evaluation" ("## Evaluation of Evidence" ++ nn);
    simple_section rd "legal_implications" ("## Legal Implications" ++ nn);
    loop_section rd "recommendations" ("## Recommendations" ++ nn) recommendation_item nl;
    simple_section rd "conclusion" ("## Conclusion" ++ nn);
    appendix_section rd ].

(** [report.content = "".join(content)]. *)
Definition render_report (rd : json) : option string :=
  parts <- map_opt (fun o => o) (report_sections rd) ;; Some (String.concat EmptyString parts).

Definition has_report (rid : nat) (st : db) : bool := existsb (fun r => rp_id r =? rid) (reports st).

Definition set_content (rid : nat) (c : string) (st : db) : db :=
  mkdb (timelines st) (timeline_events st)
       (map (fun r => if rp_id r =? rid then mkrep (rp_id r) (rp_title r) c (rp_timeline_id r) else r) (reports st)).

(** The [except] branch of [generate_report_task], in its own session. *)
Definition report_failure (rid : nat) (msg : string) : db -> db + string :=
  with_session (fun st =>
    inl (if has_report rid st then set_content rid ("Error generating report: " ++ msg) st else st)).

(** The session of [generate_report_task] that renders and stores the
    content. *)
Definition save_report (rid : nat) (rd : json) (st : db) : db + string :=
  if has_report rid st then
    match render_report rd with
    | Some c => inl (set_content rid c st)
    | None => inr (exc_text rd)
    end
  else inl st.

(** [generate_report_task] from the model's answer on. *)
Definition report_task (rid : nat) (s : stage) (st : db) : db :=
  let recover (st0 : db) (m : string) : db :=
    match report_failure rid m st0 with
    | inl st' => st'
    | inr _ => st0
    end in
  match s with
  | Crashed m => recover st m
  | Produced rd =>
      match with_session (save_report rid rd) st with
      | inl st1 => st1
      | inr m => recover st m
      end
  end.

End Writers.

End Store.

(* ------------------------------------------------------------------ *)
(** ** Readings of the compound source string, for the statements *)

Module SourceSpec.

Definition is_colon (c : ascii) : bool := Json.is_char c ":".

(** The text before the first colon. *)
Fixpoint before_first_colon (l : list ascii) : list ascii :=
  match l with
  | [] => []
  | c :: t => if is_colon c then [] else c :: before_first_colon t
  end.

(** The text after the last colon (all of [l] when it has none). *)
Fixpoint after_last_colon (l : list ascii) : list ascii :=
  match l with
  | [] => []
  | c :: t => if existsb is_colon t then after_last_colon t
              else if is_colon c then t else c :: t
  end.

(** A non-empty run of ASCII digits. *)
Definition ascii_digits (l : list ascii) : bool :=
  match l with [] => false | _ => forallb PyStr.isdecimal l end.

(** No character that [str.isdigit] accepts besides 0-9. *)
Definition no_other_digits (l : list ascii) : bool :=
  forallb (fun c => negb (PyStr.isdigit_char c && negb (PyStr.isdecimal c))) l.

End SourceSpec.

(* ------------------------------------------------------------------ *)
(** ** Interpreter limits and concrete inputs *)

Module Outcomes.

Import Json PyVal Store.

(** A double quote, for building JSON replies. *)
Definition dq : string := String "034" EmptyString.

(** CPython's default limits: recursion limit and [int] digit limit. *)
Definition cpython_limits : limits := mklimits 1000 PyStr.max_str_digits.

Definition empty_db : db := mkdb [] [] [].

(** [n] opening brackets: a reply nested [n] deep that never closes. *)
Definition nested (n : nat) : string := PyStr.of_chars (repeat "["%char n).

End Outcomes.

(* ------------------------------------------------------------------ *)
(** ** Ingested records (models.py, services/email_service.py,
    services/chat_service.py, services/pdf_service.py) *)

Module Ingest.

Import DT.

(** Rows of the [emails], [chat_logs] and [pdfs] tables as committed; the
    [id] is the rowid, the timestamps are the columns' naive datetimes
    ([None] for SQL [NULL]). *)
Record email_row := mkemail {
  em_id : nat; em_sender : string; em_recipients : string; em_subject : string;
  em_date : option datetime; em_body : string; em_email_id : string }.

Record chat_row := mkchat {
  cl_id : nat; cl_date_time : option datetime; cl_sender : string;
  cl_message : string; cl_file_path : string }.

Record pdf_row := mkpdf {
  pd_id : nat; pd_file_name : string; pd_extracted_text : string; pd_file_path : string }.

(** The [email_data] dicts handed to [save_emails]. *)
Record email_data := mkemaildata {
  ed_email_id : string; ed_sender : string; ed_recipients : string;
  ed_subject : string; ed_date : option datetime; ed_body : string }.

(** The [pdf_data] dict handed to [save_pdf_document]. *)
Record pdf_data := mkpdfdata {
  pdd_file_name : string; pdd_extracted_text : string; pdd_file_path : string }.

(** What the loop of [save_emails] collects: a committed row found by the
    [select], or a new [Email] object added to the session. *)
Inductive saved_email : Type :=
| Existing (e : email_row)
| Pending (d : email_data).

(** [select(Email).where(Email.email_id == k)] followed by [.first()]; the
    session has [autoflush=False], so only committed rows are seen. *)
Definition find_email (st : list email_row) (k : string) : option email_row :=
  find (fun e => String.eqb (em_email_id e) k) st.

Definition email_of_data (id : nat) (d : email_data) : email_row :=
  mkemail id (ed_sender d) (ed_recipients d) (ed_subject d) (ed_date d) (ed_body d) (ed_email_id d).

(** [await db.commit()]: the pending rows are inserted in the order they
    were added, each with the next rowid; the [UNIQUE] constraint on
    [email_id] makes an insert of a present id fail with [IntegrityError]
    ([None]), which rolls the whole transaction back and propagates.  The
    result pairs the objects of [saved_emails] with the final table. *)
Fixpoint commit_emails (st : list email_row) (items : list saved_email)
    : option (list email_row * list email_row) :=
  match items with
  | [] => Some ([], st)
  | Existing e :: t =>
      match commit_emails st t with
      | Some (out, st') => Some (e :: out, st')
      | None => None
      end
  | Pending d :: t =>
      if existsb (fun e => String.eqb (em_email_id e) (ed_email_id d)) st then None
      else
        let r := email_of_data (Store.next_id (map em_id st)) d in
        match commit_emails (st ++ [r]) t with
        | Some (out, st') => Some (r :: out, st')
        | None => None
        end
  end.

(** [EmailService.save_emails]: [Some (saved_emails, table)] on return,
    [None] when the commit raised (the table is left as it was). *)
Definition save_emails (emails : list email_data) (st : list email_row)
    : option (list email_row * list email_row) :=
  commit_emails st
    (map (fun d => match find_email st (ed_email_id d) with
                   | Some e => Existing e
                   | None => Pending d
                   end) emails).

(** [PDFService.save_pdf_document]: the [select] on [file_path] with
    [.first()] (rowid order), else an insert with the next rowid.  No
    constraint of [pdfs] can fail on string values, so the [except] branch
    (returning [None]) is not reached. *)
Definition save_pdf_document (d : pdf_data) (st : list pdf_row) : option pdf_row * list pdf_row :=
  match find (fun p => String.eqb (pd_file_path p) (pdd_file_path d)) st with
  | Some p => (Some p, st)
  | None =>
      let r := mkpdf (Store.next_id (map pd_id st)) (pdd_file_name d)
                     (pdd_extracted_text d) (pdd_file_path d) in
      (Some r, st ++ [r])
  end.

(** [ChatService.save_chat_messages]: one new [ChatLog] per message, all
    committed together (no constraint of [chat_logs] can fail). *)
Fixpoint save_chat_messages (msgs : list Chat.chat_message) (st : list chat_row)
    : list chat_row * list chat_row :=
  match msgs with
  | [] => ([], st)
  | m :: t =>
      let r := mkchat (Store.next_id (map cl_id st)) (Some (Chat.date_time m))
                      (Chat.sender m) (Chat.message m) (Chat.file_path m) in
      let '(out, st') := save_chat_messages t (st ++ [r]) in
      (r :: out, st')
  end.

(** The columns of a chat row other than its rowid. *)
Definition chat_fields (r : chat_row) : option datetime * string * string * string :=
  (cl_date_time r, cl_sender r, cl_message r, cl_file_path r).

(** [%0wd]: zero-padded to at least [w] digits. *)
Definition pad (w n : nat) : list ascii :=
  let ds := PyVal.nat_digits (S n) n in repeat "0"%char (w - List.length ds) ++ ds.

(** [datetime.isoformat(sep)]: microseconds only when non-zero. *)
Definition isoformat_sep (sep : ascii) (d : datetime) : string :=
  PyStr.of_chars
    (pad 4 (year d) ++ ["-"%char] ++ pad 2 (month d) ++ ["-"%char] ++ pad 2 (day d)
     ++ [sep] ++ pad 2 (hour d) ++ [":"%char] ++ pad 2 (minute d) ++ [":"%char]
     ++ pad 2 (second d)
     ++ (if microsecond d =? 0 then [] else "."%char :: pad 6 (microsecond d))).

Definition isoformat (d : datetime) : string := isoformat_sep "T" d.

(** [str(d)] of a datetime. *)
Definition dt_str (d : datetime) : string := isoformat_sep " " d.

(** Comparison of naive datetimes: field by field. *)
Definition dt_compare (a b : datetime) : comparison :=
  fold_right (fun xy acc => match Nat.compare (fst xy) (snd xy) with Eq => acc | c => c end) Eq
    (combine [year a; month a; day a; hour a; minute a; second a; microsecond a]
             [year b; month b; day b; hour b; minute b; second b; microsecond b]).

Definition dt_le (a b : datetime) : bool :=
  match dt_compare a b with Gt => false | _ => true end.

(** A stable sort: [le x y] says [x] may stay before [y].  The output of a
    stable sort is determined by the order, so this insertion sort stands
    for Python's [list.sort] and for an index scan [ORDER BY]. *)
Fixpoint insert_by {A} (le : A -> A -> bool) (x : A) (l : list A) : list A :=
  match l with
  | [] => [x]
  | y :: t => if le x y then x :: y :: t else y :: insert_by le x t
  end.

Fixpoint isort {A} (le : A -> A -> bool) (l : list A) : list A :=
  match l with
  | [] => []
  | x :: t => insert_by le x (isort le t)
  end.

End Ingest.

(* ------------------------------------------------------------------ *)
(** ** Upload endpoints (routes/upload.py) *)

Module Uploads.

Import Json PyVal Ingest.

(** [os.path.join(a, b)] on POSIX. *)
Definition path_join (a b : string) : string :=
  match PyStr.chars b with
  | c :: _ => if ascii_dec c "/" then b
              else if String.eqb a EmptyString || PyStr.endswith a "/" then (a ++ b)%string
              else (a ++ "/" ++ b)%string
  | [] => if String.eqb a EmptyString || PyStr.endswith a "/" then a else (a ++ "/")%string
  end.

Fixpoint rfind_aux (c : ascii) (i : nat) (l : list ascii) (acc : option nat) : option nat :=
  match l with
  | [] => acc
  | d :: t => rfind_aux c (S i) t (if ascii_dec d c then Some i else acc)
  end.

(** [l.rfind(c)], [None] for -1. *)
Definition rfind (c : ascii) (l : list ascii) : option nat := rfind_aux c 0 l None.

(** [posixpath.splitext]: the last dot of the last component, unless the
    component has only dots before it. *)
Definition splitext (p : string) : string * string :=
  let l := PyStr.chars p in
  match rfind "." l with
  | None => (p, EmptyString)
  | Some di =>
      let fi := match rfind "/" l with Some si => S si | None => 0 end in
      if di <? fi then (p, EmptyString)
      else if existsb (fun c => if ascii_dec c "." then false else true)
                      (firstn (di - fi) (skipn fi l))
      then (PyStr.of_chars (firstn di l), PyStr.of_chars (skipn di l))
      else (p, EmptyString)
  end.

(** [str(exc)] of a Starlette [HTTPException]. *)
Definition http_exc_str (code : nat) (detail : string) : string :=
  (string_of_nat code ++ ": " ++ detail)%string.

(** What an endpoint answers: a JSON body with status 200, or an error. *)
Inductive response : Type :=
| Ok (body : json)
| HttpErr (code : nat) (detail : string).

(** Values of a [filters] dict. *)
Inductive fvalue : Type :=
| FNone
| FStr (s : string)
| FDate (d : DT.datetime).

Definition ftruthy (v : fvalue) : bool :=
  match v with FNone => false | FStr s => negb (String.eqb s EmptyString) | FDate _ => true end.

(** [filters[k]] when [k in filters]: the last binding of a dict literal. *)
Definition flookup (filters : list (string * fvalue)) (k : string) : option fvalue :=
  fold_left (fun acc kv => if String.eqb (fst kv) k then Some (snd kv) else acc) filters None.

(** [k in filters and filters[k]]. *)
Definition fapplied (filters : list (string * fvalue)) (k : string) : option fvalue :=
  match flookup filters k with
  | Some v => if ftruthy v then Some v else None
  | None => None
  end.

(** The text an f-string makes of a filter value. *)
Definition fstr (v : fvalue) : string :=
  match v with FNone => "None" | FStr s => s | FDate d => dt_str d end.

(** SQLite's [lower()] without ICU: ASCII letters only. *)
Definition lower (c : ascii) : ascii :=
  let n := nat_of_ascii c in
  if (65 <=? n) && (n <=? 90) then ascii_of_nat (n + 32) else c.

(** SQLite's [LIKE] without [ESCAPE]: [%] matches any run, [_] any one
    character, other characters match up to ASCII case. *)
Fixpoint like (p s : list ascii) : bool :=
  match p with
  | [] => match s with [] => true | _ => false end
  | c :: p' =>
      if ascii_dec c "%" then
        (fix star (s : list ascii) : bool :=
           like p' s || match s with [] => false | _ :: s' => star s' end) s
      else
        match s with
        | [] => false
        | d :: s' => (if ascii_dec c "_" then true
                      else if ascii_dec (lower c) (lower d) then true else false)
                     && like p' s'
        end
  end.

(** The C string [LIKE] reads from a text value: up to its first NUL
    ([lower] keeps the NULs of its argument). *)
Fixpoint upto_nul (l : list ascii) : list ascii :=
  match l with
  | c :: t => if ascii_dec c "000" then [] else c :: upto_nul t
  | [] => []
  end.

(** [column.ilike(f"%{x}%")], compiled by SQLAlchemy to
    [lower(column) LIKE lower(pattern)]. *)
Definition ilike_contains (col : string) (x : string) : bool :=
  like (upto_nul (map lower (PyStr.chars ("%" ++ x ++ "%"))))
       (upto_nul (map lower (PyStr.chars col))).

(** Bytes of a text in UTF-8. *)
Definition utf8_length (l : list ascii) : nat :=
  fold_right (fun c n => (if nat_of_ascii c <? 128 then 1 else 2) + n) 0 l.

(** [SQLITE_MAX_LIKE_PATTERN_LENGTH]: each call of [LIKE] whose pattern has
    more bytes raises [OperationalError] "LIKE or GLOB pattern too
    complex". *)
Definition like_pattern_limit : nat := 50000.

Definition like_too_long (x : string) : bool :=
  like_pattern_limit <? utf8_length (PyStr.chars ("%" ++ x ++ "%")).

Definition like_error : string := "LIKE or GLOB pattern too complex".

(** The text SQLAlchemy's SQLite [DateTime] binds and stores for a
    datetime. *)
Definition sqlite_dt_text (d : DT.datetime) : list ascii :=
  pad 4 (DT.year d) ++ ["-"%char] ++ pad 2 (DT.month d) ++ ["-"%char] ++ pad 2 (DT.day d)
  ++ [" "%char] ++ pad 2 (DT.hour d) ++ [":"%char] ++ pad 2 (DT.minute d) ++ [":"%char]
  ++ pad 2 (DT.second d) ++ ["."%char] ++ pad 6 (DT.microsecond d).

(** Text comparison with the [BINARY] collation: [memcmp] of the UTF-8
    bytes, then the shorter first, which is the order of code points. *)
Fixpoint text_le (a b : list ascii) : bool :=
  match a, b with
  | [], _ => true
  | _ :: _, [] => false
  | c :: a', d :: b' =>
      if nat_of_ascii c <? nat_of_ascii d then true
      else if nat_of_ascii d <? nat_of_ascii c then false
      else text_le a' b'
  end.

Definition sqlite_space (c : ascii) : bool :=
  let n := nat_of_ascii c in (n =? 32) || ((9 <=? n) && (n <=? 13)).

Fixpoint skip_sqlite_space (l : list ascii) : list ascii :=
  match l with
  | c :: t => if sqlite_space c then skip_sqlite_space t else l
  | [] => []
  end.

(** A text that NUMERIC affinity turns into a number: [sqlite3AtoF] reads
    all of it, as surrounding spaces, an optional sign, digits with an
    optional point (at least one digit), and an optional exponent with at
    least one digit. *)
Definition sqlite_numeric (l : list ascii) : bool :=
  let l1 := skip_sqlite_space l in
  let l2 := match l1 with
            | c :: t => if is_char c "+" || is_char c "-" then t else l1
            | [] => []
            end in
  let '(ip, r1) := span_digits l2 in
  let '(fp, r2) := match r1 with
                   | c :: t => if is_char c "." then span_digits t else ([], r1)
                   | [] => ([], [])
                   end in
  let r3 := match r2 with
            | c :: t =>
                if is_char c "e" || is_char c "E" then
                  let t' := match t with
                            | d :: u => if is_char d "+" || is_char d "-" then u else t
                            | [] => []
                            end in
                  match span_digits t' with
                  | ([], _) => None
                  | (_, r) => Some r
                  end
                else Some r2
            | [] => Some []
            end in
  match r3 with
  | Some r => negb (List.length ip + List.length fp =? 0) && forallb sqlite_space r
  | None => false
  end.

(** [ChatLog.date_time >= v] / [<= v]: the column has NUMERIC affinity and
    holds [sqlite_dt_text] texts or [NULL]; [NULL] fails both tests.  A
    datetime is bound as its text, which compares as the datetimes do.  A
    [str] is bound as it is (SQLAlchemy types the literal [String]); NUMERIC
    affinity makes a well-formed number of it, below every text, and any
    other [str] compares as text. *)
Definition date_test (ge : bool) (v : fvalue) (r : chat_row) : bool :=
  match cl_date_time r with
  | None => false
  | Some t =>
      match v with
      | FDate d => if ge then dt_le d t else dt_le t d
      | FStr s =>
          if sqlite_numeric (PyStr.chars s) then ge
          else if ge then text_le (PyStr.chars s) (sqlite_dt_text t)
          else text_le (sqlite_dt_text t) (PyStr.chars s)
      | FNone => false
      end
  end.

(** [ORDER BY date_time]: [NULL] first, then ascending; the index on
    [date_time] breaks ties by rowid. *)
Definition opt_dt_le (a b : option DT.datetime) : bool :=
  match a, b with
  | None, _ => true
  | Some _, None => false
  | Some x, Some y => dt_le x y
  end.

(** A [LIKE] test of [filters[k]] on the rows that reach it, in scan
    order: [None] is the error raised on the first of them when the
    pattern is too long. *)
Definition like_step {A : Type} (filters : list (string * fvalue)) (k : string)
    (col : A -> string) (o : option (list A)) : option (list A) :=
  match o with
  | None => None
  | Some l =>
      match fapplied filters k with
      | None => Some l
      | Some v =>
          match l with
          | [] => Some []
          | _ => if like_too_long (fstr v) then None
                 else Some (filter (fun r => ilike_contains (col r) (fstr v)) l)
          end
      end
  end.

(** [ChatService.get_chat_messages]: [rows] in rowid order; only the keys
    [sender], [start_date], [end_date] and [content] of [filters] are read.
    The query scans the index on [date_time], the [ORDER BY] column, within
    the bounds of the date tests when there are any: the rows visited are
    those that pass the date tests, and on each the [sender] test runs
    before the [content] test, which a failed [sender] test skips.  [None]
    is the error of a [LIKE] pattern that is too long. *)
Definition get_chat_messages (rows : list chat_row) (filters : list (string * fvalue))
    : option (list chat_row) :=
  let by_date (k : string) (ge : bool) (l : list chat_row) :=
    match fapplied filters k with
    | Some v => filter (date_test ge v) l
    | None => l
    end in
  let selected :=
    match filters with
    | [] => Some rows
    | _ => like_step filters "content" cl_message
             (like_step filters "sender" cl_sender
               (Some (by_date "end_date" false (by_date "start_date" true rows))))
    end in
  match selected with
  | Some l => Some (isort (fun x y => opt_dt_le (cl_date_time x) (cl_date_time y)) l)
  | None => None
  end.

(** [PDFService.get_pdf_documents]: only [file_name] and [content] are
    read; no [ORDER BY], a table scan in rowid order that runs the
    [file_name] test on each row, then the [content] test on the rows that
    passed it. *)
Definition get_pdf_documents (rows : list pdf_row) (filters : list (string * fvalue))
    : option (list pdf_row) :=
  match filters with
  | [] => Some rows
  | _ => like_step filters "content" pd_extracted_text
           (like_step filters "file_name" pd_file_name (Some rows))
  end.

(** Files written by the handlers, and the background tasks scheduled. *)
Inductive task : Type :=
| ProcessChat (path : string)
| ProcessPdf (path : string).

Record upload_state := mkup { files : list (string * string); tasks : list task }.

Section Handlers.

(** [UPLOAD_DIR] from the environment (["./uploads"] by default). *)
Variable upload_dir : string.

Definition CHAT_UPLOAD_DIR : string := path_join upload_dir "chats".
Definition PDF_UPLOAD_DIR : string := path_join upload_dir "pdfs".

(** [POST /upload/chat]: [hex] is [os.urandom(4).hex()], [contents] the
    uploaded bytes.  The [HTTPException] of the extension check is raised
    inside the [try] and caught by [except Exception], which raises a new
    one with status 500 and [str(e)] as detail. *)
Definition upload_chat_log (filename contents hex : string) (st : upload_state)
    : upload_state * response :=
  if negb (PyStr.endswith filename ".txt") then
    (st, HttpErr 500 (http_exc_str 400 "Only .txt files are accepted for chat logs"))
  else
    let fname := (fst (splitext filename) ++ "_" ++ hex ++ ".txt")%string in
    let path := path_join CHAT_UPLOAD_DIR fname in
    (mkup (files st ++ [(path, contents)]) (tasks st ++ [ProcessChat path]),
     Ok (JObj [("filename", JStr fname); ("status", JStr "processing");
               ("message", JStr "Chat log uploaded successfully and is being processed")])).

(** [POST /upload/pdf], the same shape. *)
Definition upload_pdf (filename contents hex : string) (st : upload_state)
    : upload_state * response :=
  if negb (PyStr.endswith filename ".pdf") then
    (st, HttpErr 500 (http_exc_str 400 "Only .pdf files are accepted for invoices"))
  else
    let fname := (fst (splitext filename) ++ "_" ++ hex ++ ".pdf")%string in
    let path := path_join PDF_UPLOAD_DIR fname in
    (mkup (files st ++ [(path, contents)]) (tasks st ++ [ProcessPdf path]),
     Ok (JObj [("filename", JStr fname); ("status", JStr "processing");
               ("message", JStr "PDF uploaded successfully and is being processed")])).

Definition still_processing (filename : string) : response :=
  Ok (JObj [("filename", JStr filename); ("status", JStr "processing");
            ("message", JStr "File is still being processed or no data was extracted")]).

(** [GET /upload/status/{filename}] on the current [chat_logs] and [pdfs]
    tables.  The error branches are never taken, since [file_path] is not
    a key the services read; their detail stands for [str(e)] of the
    database error, of which [like_error] is the SQLite message. *)
Definition check_upload_status (filename : string) (chats : list chat_row) (pdfs : list pdf_row)
    : response :=
  if PyStr.endswith filename ".txt" then
    match get_chat_messages chats [("file_path", FStr (path_join CHAT_UPLOAD_DIR filename))] with
    | None => HttpErr 500 like_error
    | Some [] => still_processing filename
    | Some result =>
        Ok (JObj [("filename", JStr filename); ("status", JStr "completed");
                  ("message", JStr ("Chat log processed with " ++ string_of_nat (List.length result)
                                    ++ " messages extracted"));
                  ("count", JInt (Z.of_nat (List.length result)))])
    end
  else if PyStr.endswith filename ".pdf" then
    match get_pdf_documents pdfs [("file_path", FStr (path_join PDF_UPLOAD_DIR filename))] with
    | None => HttpErr 500 like_error
    | Some [] => still_processing filename
    | Some _ => Ok (JObj [("filename", JStr filename); ("status", JStr "completed");
                     ("message", JStr "PDF processed successfully")])
    end
  else HttpErr 500 (http_exc_str 400 "Unsupported file type").

End Handlers.

End Uploads.

(* ------------------------------------------------------------------ *)
(** ** Aggregation of the sources (routes/timeline.py) *)

Module Aggregate.

Import Json PyVal Ingest.

(** [s[:500] + "..." if len(s) > 500 else s] *)
Definition snippet (s : string) : string :=
  if 500 <? String.length s then (substring 0 500 s ++ "...")%string else s.

(** [d.isoformat() if d else None]: a datetime is always truthy. *)
Definition date_json (d : option DT.datetime) : json :=
  match d with Some x => JStr (isoformat x) | None => JNull end.

Definition email_event (e : email_row) : json :=
  JObj [("date", date_json (em_date e)); ("source_type", JStr "email");
        ("source_id", JInt (Z.of_nat (em_id e))); ("sender", JStr (em_sender e));
        ("recipients", JStr (em_recipients e)); ("subject", JStr (em_subject e));
        ("content", JStr (snippet (em_body e)))].

Definition chat_event (c : chat_row) : json :=
  JObj [("date", date_json (cl_date_time c)); ("source_type", JStr "chat");
        ("source_id", JInt (Z.of_nat (cl_id c))); ("sender", JStr (cl_sender c));
        ("content", JStr (cl_message c))].

Definition pdf_event (p : pdf_row) : json :=
  JObj [("date", JNull); ("source_type", JStr "pdf");
        ("source_id", JInt (Z.of_nat (pd_id p))); ("file_name", JStr (pd_file_name p));
        ("content", JStr (snippet (pd_extracted_text p)))].

(** [e.get(k)] on an event dict. *)
Definition get (e : json) (k : string) : json :=
  match e with JObj kvs => get_or kvs k JNull | _ => JNull end.

Definition has_date (e : json) : bool := py_truthy (get e "date").

(** [x["date"]] on a dated event, which is always a string there. *)
Definition date_key (e : json) : string :=
  match get e "date" with JStr s => s | _ => EmptyString end.

(** [dated_events.sort(key=lambda x: x["date"])]: [list.sort] compares
    keys with [<] only and is stable. *)
Definition sort_events (l : list json) : list json :=
  isort (fun x y => negb (String.ltb (date_key y) (date_key x))) l.

(** The events list built by [generate_timeline_task]. *)
Definition collect_events (emails : list email_row) (chats : list chat_row) (pdfs : list pdf_row)
    : list json :=
  map email_event emails ++ map chat_event chats ++ map pdf_event pdfs.

(** The list handed to [generate_timeline]. *)
Definition aggregate (emails : list email_row) (chats : list chat_row) (pdfs : list pdf_row)
    : list json :=
  let events := collect_events emails chats pdfs in
  sort_events (filter has_date events) ++ filter (fun e => negb (has_date e)) events.

End Aggregate.

(* ------------------------------------------------------------------ *)
(** ** Reading and deleting timelines and reports (routes/timeline.py,
    routes/report.py) *)

Module Routes.

Import Json PyVal Store Ingest Uploads Aggregate.

(** [str(i)] for a Python [int]. *)
Definition z_str (z : Z) : string :=
  if (z <? 0)%Z then ("-" ++ string_of_nat (Z.to_nat (- z)))%string
  else string_of_nat (Z.to_nat z).

(** [DELETE /timeline/{timeline_id}]: [db.get] by primary key, then
    [db.delete]; the [cascade="all, delete-orphan"] of [Timeline.events]
    deletes the rows of [timeline_events] with that [timeline_id].  No
    relationship reaches [reports], and SQLite does not enforce the foreign
    key of [reports.timeline_id] (the engine never sets
    [PRAGMA foreign_keys]), so the reports stay. *)
Definition delete_timeline (tid : nat) (st : db) : db * response :=
  if has_timeline tid st then
    (mkdb (filter (fun r => negb (tl_id r =? tid)) (timelines st))
          (filter (fun e => negb (ev_timeline_id e =? tid)) (timeline_events st))
          (reports st),
     Ok (JObj [("message", JStr ("Timeline with ID " ++ string_of_nat tid ++ " deleted successfully"))]))
  else (st, HttpErr 404 ("Timeline with ID " ++ string_of_nat tid ++ " not found")).

(** [DELETE /report/{report_id}]. *)
Definition delete_report (rid : nat) (st : db) : db * response :=
  if has_report rid st then
    (mkdb (timelines st) (timeline_events st) (filter (fun r => negb (rp_id r =? rid)) (reports st)),
     Ok (JObj [("message", JStr ("Report with ID " ++ string_of_nat rid ++ " deleted successfully"))]))
  else (st, HttpErr 404 ("Report with ID " ++ string_of_nat rid ++ " not found")).

(** [select(TimelineEvent).where(TimelineEvent.timeline_id == tid)
    .order_by(TimelineEvent.date)]: [NULL] first, then ascending; the index
    on [date] breaks ties by rowid. *)
Definition events_of (tid : nat) (st : db) : list event_row :=
  isort (fun x y => opt_dt_le (ev_date x) (ev_date y))
        (filter (fun e => ev_timeline_id e =? tid) (timeline_events st)).

(** The value read back from a [String] or [Text] column (TEXT affinity):
    SQLite stores an integer or a real bound there as its text, and a
    [bool] as the integer 0 or 1; strings and [NULL] come back as they
    were. *)
Section Text.

(** SQLite's text of a REAL value. *)
Variable real_text : string -> string.

Definition column_text (v : json) : json :=
  match v with
  | JInt z => JStr (z_str z)
  | JBool b => JStr (if b then "1" else "0")
  | JFloat l => JStr (real_text l)
  | _ => v
  end.

(** One entry of [timeline_data["events"]] in [generate_report_task]. *)
Definition report_event (r : event_row) : json :=
  JObj [("date", date_json (ev_date r)); ("title", column_text (ev_title r));
        ("description", column_text (ev_description r));
        ("source", JStr (ev_source_type r ++ ":" ++ z_str (ev_source_id r)))].

(** The reads of [generate_report_task] before the model is called: [None]
    when no timeline row is found, where [timeline.title] raises
    [AttributeError]. *)
Definition report_timeline_data (tid : nat) (st : db) : option json :=
  match find (fun t => tl_id t =? tid) (timelines st) with
  | None => None
  | Some t =>
      Some (JObj [("title", JStr (tl_title t)); ("overview", column_text (tl_description t));
                  ("events", JArr (map report_event (events_of tid st)))])
  end.

End Text.

(** [str(e)] of that [AttributeError]. *)
Definition no_title_error : string := "'NoneType' object has no attribute 'title'".

Section Reads.

Variable real_text : string -> string.
(** [str(e)] of an exception raised on a value, and [str(v)] of a decoded
    value, as in [generate_report_task]. *)
Variable exc_text : json -> string.
Variable str_other : json -> string.
(** The [created_at] column of the report with a given rowid. *)
Variable report_created_at : nat -> DT.datetime.
(** [str(e)] of the [ValidationError] raised on an event row. *)
Variable validation_error : event_row -> string.

(** The whole of [generate_report_task]: the reads, then the model's
    answer on the data read ([service] stands for [generate_report] with
    the evidence of the [evidence] table), then the sessions of
    [report_task]. *)
Definition report_job (rid tid : nat) (service : json -> stage) (st : db) : db :=
  match report_timeline_data real_text tid st with
  | None => report_task exc_text str_other rid (Crashed no_title_error) st
  | Some td => report_task exc_text str_other rid (service td) st
  end.

(** [GET /report/{report_id}]: a [ReportResponse]. *)
Definition get_report (rid : nat) (st : db) : response :=
  match find (fun r => rp_id r =? rid) (reports st) with
  | Some r =>
      Ok (JObj [("id", JInt (Z.of_nat (rp_id r))); ("title", JStr (rp_title r));
                ("content", JStr (rp_content r));
                ("timeline_id", JInt (Z.of_nat (rp_timeline_id r)));
                ("created_at", JStr (isoformat (report_created_at (rp_id r))))])
  | None => HttpErr 404 ("Report with ID " ++ string_of_nat rid ++ " not found")
  end.

(** What [TimelineEventResponse] accepts of a stored event: [date: str]
    refuses the [None] of an undated event, [title: str] refuses a [NULL]
    title; any other value of the text columns reads back as a string
    (see [column_text]), and [description] is optional. *)
Definition event_valid (e : event_row) : bool :=
  match ev_date e, ev_title e with
  | None, _ => false
  | _, JNull => false
  | _, _ => true
  end.

(** The rows a [TimelineResponse] is built from, with its events in the
    order of its [events] list, or the error answered. *)
Inductive timeline_view : Type :=
| TimelineFound (t : timeline_row) (events : list event_row)
| TimelineErr (code : nat) (detail : string).

(** [GET /timeline/{timeline_id}]: the [ValidationError] of the first
    refused event is caught by [except Exception] and answered with 500. *)
Definition get_timeline (tid : nat) (st : db) : timeline_view :=
  match find (fun t => tl_id t =? tid) (timelines st) with
  | None => TimelineErr 404 ("Timeline with ID " ++ string_of_nat tid ++ " not found")
  | Some t =>
      let evs := events_of tid st in
      match find (fun e => negb (event_valid e)) evs with
      | Some bad => TimelineErr 500 (validation_error bad)
      | None => TimelineFound t evs
      end
  end.

End Reads.

(** The date filters of [generate_timeline_task]: [strptime(x, "%Y-%m-%d")]
    for a truthy [x]; a [ValueError] is logged and the filter dropped. *)
Definition filter_date (x : option string) : option DT.datetime :=
  match x with
  | Some s => if String.eqb s EmptyString then None else DT.strptime s "%Y-%m-%d"
  | None => None
  end.

(** [col >= start_date_obj] and [col <= end_date_obj] on a [DateTime]
    column: both sides are stored and bound as
    ["YYYY-MM-DD HH:MM:SS.ffffff"] text, compared as strings, which is the
    chronological order; [NULL] fails both tests. *)
Definition in_range (lo hi : option DT.datetime) (d : option DT.datetime) : bool :=
  match lo with
  | Some a => match d with Some t => dt_le a t | None => false end
  | None => true
  end &&
  match hi with
  | Some b => match d with Some t => dt_le t b | None => false end
  | None => true
  end.

(** The [emails] and [chats] lists of [generate_timeline_task], with the
    rows in scan order (the properties below are about which rows are
    selected). *)
Definition select_emails (start_date end_date : option string) (emails : list email_row)
    : list email_row :=
  filter (fun e => in_range (filter_date start_date) (filter_date end_date) (em_date e)) emails.

Definition select_chats (start_date end_date : option string) (chats : list chat_row)
    : list chat_row :=
  filter (fun c => in_range (filter_date start_date) (filter_date end_date) (cl_date_time c)) chats.

(** The list [generate_timeline_task] hands to the model, from the three
    tables ([pdfs] is read unfiltered). *)
Definition timeline_inputs (start_date end_date : option string)
    (emails : list email_row) (chats : list chat_row) (pdfs : list pdf_row) : list json :=
  aggregate (select_emails start_date end_date emails) (select_chats start_date end_date chats) pdfs.

End Routes.

(* ------------------------------------------------------------------ *)
(** ** Gmail messages (services/email_service.py, routes/emails.py) *)

Module Gmail.

Import Json PyVal Uploads.

Local Notation "x <- e ;; f" := (match e with Some x => f | None => None end)
  (at level 61, e at next level, right associativity).

(** [str.lower()] on Latin-1: A-Z and the letters 0xC0-0xDE other than
    0xD7 move up by 32. *)
Definition py_lower_char (c : ascii) : ascii :=
  let n := nat_of_ascii c in
  if ((65 <=? n) && (n <=? 90)) || ((192 <=? n) && (n <=? 222) && negb (n =? 215))
  then ascii_of_nat (n + 32) else c.

Definition py_lower (s : string) : string := PyStr.of_chars (map py_lower_char (PyStr.chars s)).

(** The [email_data] dict built by [_parse_message]: the values of the
    headers are stored as the message has them. *)
Record parsed := mkparsed {
  p_email_id : json; p_sender : json; p_recipients : json; p_subject : json;
  p_date : option DT.datetime; p_body : string }.

Definition set_sender (p : parsed) (v : json) : parsed :=
  mkparsed (p_email_id p) v (p_recipients p) (p_subject p) (p_date p) (p_body p).
Definition set_recipients (p : parsed) (v : json) : parsed :=
  mkparsed (p_email_id p) (p_sender p) v (p_subject p) (p_date p) (p_body p).
Definition set_subject (p : parsed) (v : json) : parsed :=
  mkparsed (p_email_id p) (p_sender p) (p_recipients p) v (p_date p) (p_body p).
Definition set_date (p : parsed) (d : DT.datetime) : parsed :=
  mkparsed (p_email_id p) (p_sender p) (p_recipients p) (p_subject p) (Some d) (p_body p).
Definition set_body (p : parsed) (b : string) : parsed :=
  mkparsed (p_email_id p) (p_sender p) (p_recipients p) (p_subject p) (p_date p) b.

(** [for x in l: acc = f(acc, x)] where [f] may raise. *)
Fixpoint fold_opt {A B : Type} (f : A -> B -> option A) (a : A) (l : list B) : option A :=
  match l with
  | [] => Some a
  | x :: t => a' <- f a x ;; fold_opt f a' t
  end.

(** [v == "..."] for a decoded value and a string. *)
Definition is_str (v : json) (s : string) : bool :=
  match v with JStr t => String.eqb t s | _ => false end.

Section Parse.

(** [email.utils.parsedate_to_datetime] on a string, as stored in the
    [DateTime] column; [None] is an exception. *)
Variable parsedate : string -> option DT.datetime.
(** [datetime.utcnow()] when the message is parsed. *)
Variable utcnow : DT.datetime.
(** [base64.urlsafe_b64decode(v).decode('utf-8')]; [None] is an exception
    ([binascii.Error], [UnicodeDecodeError], [TypeError]). *)
Variable b64_utf8 : json -> option string.

(** One iteration of the headers loop; [None] is an exception: a header
    that is not a dict or has no [name], a [name] that is not a string, a
    [from]/[to]/[subject] header without [value].  For [date] the indexing
    and the parse are inside the bare [try], so any failure there gives
    [utcnow()]. *)
Definition header_step (p : parsed) (h : json) : option parsed :=
  n <- py_index h "name" ;;
  match n with
  | JStr s =>
      let name := py_lower s in
      if String.eqb name "from" then v <- py_index h "value" ;; Some (set_sender p v)
      else if String.eqb name "to" then v <- py_index h "value" ;; Some (set_recipients p v)
      else if String.eqb name "subject" then v <- py_index h "value" ;; Some (set_subject p v)
      else if String.eqb name "date" then
        Some (set_date p (match py_index h "value" with
                          | Some (JStr x) => match parsedate x with Some d => d | None => utcnow end
                          | _ => utcnow
                          end))
      else Some p
  | _ => None
  end.

(** The [parts] loop: [Some None] when it ends without [break]. *)
Fixpoint first_plain (parts : list json) : option (option string) :=
  match parts with
  | [] => Some None
  | part :: t =>
      mt <- py_index part "mimeType" ;;
      if is_str mt "text/plain" then
        b <- py_index part "body" ;; has <- py_in "data" b ;;
        if has then d <- py_index b "data" ;; txt <- b64_utf8 d ;; Some (Some txt)
        else first_plain t
      else first_plain t
  end.

(** [EmailService._parse_message]; [None] is an exception (there is no
    [try] around it). *)
Definition parse_message (msg : json) : option parsed :=
  id <- py_index msg "id" ;;
  payload <- py_index msg "payload" ;;
  headers <- py_index payload "headers" ;;
  hs <- py_iter headers ;;
  p <- fold_opt header_step (mkparsed id (JStr EmptyString) (JStr EmptyString) (JStr EmptyString) None EmptyString) hs ;;
  hp <- py_in "parts" payload ;;
  if hp then
    parts <- py_index payload "parts" ;; ps <- py_iter parts ;; r <- first_plain ps ;;
    Some (match r with Some t => set_body p t | None => p end)
  else
    hb <- py_in "body" payload ;;
    if hb then
      b <- py_index payload "body" ;; hd <- py_in "data" b ;;
      if hd then d <- py_index b "data" ;; t <- b64_utf8 d ;; Some (set_body p t)
      else Some p
    else Some p.

(** [self.service] is set, or [authenticate()] returned [True]. *)
Variable authenticated : bool.
(** [messages().list(userId='me', q=query).execute()] and
    [messages().get(userId='me', id=i).execute()]; [None] is an exception. *)
Variable gmail_list : string -> option json.
Variable gmail_get : json -> option json.

Definition opt_part (prefix : string) (x : option string) : list string :=
  match x with
  | Some s => if String.eqb s EmptyString then [] else [(prefix ++ s)%string]
  | None => []
  end.

(** The [query] of [fetch_emails]. *)
Definition gmail_query (addrs : list string) (start_date end_date : option string) : string :=
  let address_query :=
    flat_map (fun a => [("from:" ++ a)%string; ("to:" ++ a)%string; ("cc:" ++ a)%string; ("bcc:" ++ a)%string]) addrs in
  String.concat " " (("(" ++ String.concat " OR " address_query ++ ")")%string
                     :: opt_part "after:" start_date ++ opt_part "before:" end_date).

(** One iteration of the messages loop. *)
Definition fetch_one (m : json) : option parsed :=
  i <- py_index m "id" ;; msg <- gmail_get i ;; parse_message msg.

(** [EmailService.fetch_emails]: any exception in the [try] gives [[]]. *)
Definition fetch_emails (addrs : list string) (start_date end_date : option string) : list parsed :=
  if negb authenticated then []
  else
    match (results <- gmail_list (gmail_query addrs start_date end_date) ;;
           messages <- match results with
                       | JObj kvs => Some (get_or kvs "messages" (JArr []))
                       | _ => None
                       end ;;
           ms <- py_iter messages ;;
           Store.map_opt fetch_one ms) with
    | Some l => l
    | None => []
    end.

End Parse.

(** A scheduled [fetch_and_save_emails] task, with its arguments. *)
Record fetch_job := mkjob { job_addresses : list string; job_start : option string; job_end : option string }.

(** An optional string in an f-string. *)
Definition opt_str (x : option string) : string := match x with Some s => s | None => "None" end.

(** [POST /emails/fetch]: the [HTTPException] for an empty list is raised
    inside the [try] and turned into a 500 by [except Exception]. *)
Definition fetch_route (addresses : list string) (start_date end_date : option string)
    (jobs : list fetch_job) : list fetch_job * response :=
  match addresses with
  | [] => (jobs, HttpErr 500 (http_exc_str 400 "At least one email address is required"))
  | _ =>
      (jobs ++ [mkjob addresses start_date end_date],
       Ok (JObj [("status", JStr "processing");
                 ("message", JStr ("Fetching emails for " ++ string_of_nat (List.length addresses)
                                   ++ " address(es) in the background"));
                 ("addresses", JArr (map JStr addresses));
                 ("date_range", JStr (opt_str start_date ++ " to " ++ opt_str end_date))]))
  end.

End Gmail.

(* ================================================================== *)
(** * Properties *)

Module ChatProps.

Import Regex DT Chat.

(** The fallback order the specification describes: the first format of
    the list that parses wins. *)
Fixpoint first_parse (s : string) (fmts : list string) : option datetime :=
  match fmts with
  | [] => None
  | f :: fs => match strptime s f with
               | Some d => Some d
               | None => first_parse s fs
               end
  end.

Definition chat_formats : list string :=
  ["%m/%d/%y %H:%M"; "%d/%m/%y %H:%M"; "%m/%d/%y %H:%M:%S"; "%d/%m/%y %H:%M:%S"].

Definition scenario_text : string :=
  "[1/2/24, 10:30 AM] Alice: Hello" ++ String "010" "[1/3/24, 9:15] Bob: Reply".

Lemma findall_arity (r : regex) (g : nat) (s : string) :
  Forall (fun m => List.length m = g) (findall r g s).
Proof.
  unfold findall. apply Forall_forall. intros m Hm.
  apply in_map_iff in Hm as [f [<- _]].
  rewrite length_map, length_seq. reflexivity.
Qed.

(** C4: on the two-line scenario file, Alice's message is dated with the
    current instant, not 2024-01-02T10:30, because "1/2/24 10:30 AM" fits
    none of the four formats; Bob's is 2024-01-03T09:15. *)
Theorem chat_scenario_parse (now : datetime) (path : string) :
  process_chat_file now (fun _ => Some scenario_text) path =
  [mkmsg now "Alice" "Hello" path;
   mkmsg (mkdt 2024 1 3 9 15 0 0) "Bob" "Reply" path].
Proof. vm_compute. reflexivity. Qed.

(** C5: every matched [date, time] marker yields exactly one message; its
    timestamp is the first of the four formats (m/d/y H:M, d/m/y H:M,
    m/d/y H:M:S, d/m/y H:M:S) that parses, or the current instant when
    none does. *)
Theorem chat_date_fallback_order (now : datetime) (fs : string -> option string)
    (path raw : string) (Hread : fs path = Some raw) :
  let matches := findall pattern 4 (PyStr.universal_newlines raw) in
  let msgs := process_chat_file now fs path in
  List.length msgs = List.length matches /\
  forall i date_str time_str snd msg,
    nth_error matches i = Some [date_str; time_str; snd; msg] ->
    exists m, nth_error msgs i = Some m /\
      date_time m = match first_parse (date_str ++ " " ++ time_str) chat_formats with
                    | Some d => d
                    | None => now
                    end.
Proof.
  cbv zeta. unfold process_chat_file. rewrite Hread. split.
  - apply length_map.
  - intros i ds ts sn ms Hi. rewrite nth_error_map, Hi. cbn.
    eexists. split; [reflexivity|]. cbn.
    unfold parse_date_time.
    destruct (strptime _ "%m/%d/%y %H:%M"); [reflexivity|].
    destruct (strptime _ "%d/%m/%y %H:%M"); [reflexivity|].
    destruct (strptime _ "%m/%d/%y %H:%M:%S"); [reflexivity|].
    destruct (strptime _ "%d/%m/%y %H:%M:%S"); reflexivity.
Qed.

Lemma chat_date_fallback_order_witness :
  (fun _ : string => Some scenario_text) "chat.txt" = Some scenario_text /\
  List.length (process_chat_file (mkdt 2026 10 18 0 0 0 0) (fun _ => Some scenario_text) "chat.txt")
  = List.length (findall pattern 4 (PyStr.universal_newlines scenario_text)).
Proof.
  split; [reflexivity|].
  apply (chat_date_fallback_order (mkdt 2026 10 18 0 0 0 0) (fun _ => Some scenario_text)
           "chat.txt" scenario_text eq_refl).
Defined.

End ChatProps.

(* ------------------------------------------------------------------ *)
(** ** Scanner and [strip] lemmas *)

Module RegexProps.

Import Regex.

Definition suffix_of (s s1 : list ascii) : Prop := exists p, s = p ++ s1.

Lemma suffix_of_length s s1 : suffix_of s s1 -> List.length s1 <= List.length s.
Proof. intros [p ->]. rewrite length_app. lia. Qed.

Lemma suffix_of_trans a b c : suffix_of a b -> suffix_of b c -> suffix_of a c.
Proof. intros [p ->] [q ->]. exists (p ++ q). apply app_assoc. Qed.

Lemma suffix_of_refl s : suffix_of s s.
Proof. exists []. reflexivity. Qed.

Section Equations.
Variable n : nat.
Variables (s : list ascii) (c : caps).

Lemma rmatch_class p :
  rmatch n (RClass p) s c = match s with x :: s' => if p x then [(s', c)] else [] | [] => [] end.
Proof. destruct n; reflexivity. Qed.

Lemma rmatch_seq r1 r2 :
  rmatch n (RSeq r1 r2) s c = flat_map (fun st => rmatch n r2 (fst st) (snd st)) (rmatch n r1 s c).
Proof. destruct n; reflexivity. Qed.

Lemma rmatch_alt r1 r2 : rmatch n (RAlt r1 r2) s c = rmatch n r1 s c ++ rmatch n r2 s c.
Proof. destruct n; reflexivity. Qed.

Lemma rmatch_repeat r lo hi g :
  rmatch n (RRepeat r lo hi g) s c =
  let more :=
    match hi with
    | Some 0 => []
    | _ => flat_map (fun st =>
             if List.length (fst st) <? List.length s then
               match n with
               | 0 => []
               | S n' => rmatch n' (RRepeat r (pred lo) (option_map pred hi) g) (fst st) (snd st)
               end
             else []) (rmatch n r s c)
    end in
  let stop := if lo =? 0 then [(s, c)] else [] in
  if g then more ++ stop else stop ++ more.
Proof. destruct n; reflexivity. Qed.

Lemma rmatch_group k r :
  rmatch n (RGroup k r) s c =
  map (fun st => (fst st, (k, firstn (List.length s - List.length (fst st)) s) :: snd st))
      (rmatch n r s c).
Proof. destruct n; reflexivity. Qed.

Lemma rmatch_lookahead r :
  rmatch n (RLookahead r) s c =
  match rmatch n r s c with st :: _ => [(s, snd st)] | [] => [] end.
Proof. destruct n; reflexivity. Qed.

Lemma rmatch_end :
  rmatch n REndAnchor s c =
  match s with
  | [] => [(s, c)]
  | [x] => if ascii_dec x "010" then [(s, c)] else []
  | _ => []
  end.
Proof. destruct n; reflexivity. Qed.

Lemma rmatch_empty : rmatch n REmpty s c = [(s, c)].
Proof. destruct n; reflexivity. Qed.

End Equations.

(** Every way of matching leaves a suffix of the input. *)
Lemma rmatch_suffix n : forall r s c st, In st (rmatch n r s c) -> suffix_of s (fst st).
Proof.
  induction n as [|n IHn]; intro r;
    induction r as [p|r1 IH1 r2 IH2|r1 IH1 r2 IH2|r1 IH1 lo hi g|k r1 IH1|r1 IH1| |];
    intros s c st Hin.
  all: try (rewrite rmatch_class in Hin; destruct s as [|x s']; [contradiction|];
            destruct (p x); [destruct Hin as [<-|[]]; exists [x]; reflexivity|contradiction]).
  all: try (rewrite rmatch_seq in Hin; apply in_flat_map in Hin as [st1 [H1 H2]];
            eapply suffix_of_trans; [apply (IH1 _ _ _ H1)|apply (IH2 _ _ _ H2)]).
  all: try (rewrite rmatch_alt in Hin;
            apply in_app_or in Hin as [H|H]; [apply (IH1 _ _ _ H)|apply (IH2 _ _ _ H)]).
  all: try (rewrite rmatch_group in Hin; apply in_map_iff in Hin as [st1 [<- H1]]; apply (IH1 _ _ _ H1)).
  all: try (rewrite rmatch_lookahead in Hin; destruct (rmatch _ r1 s c) as [|st1 l] eqn:E;
            [contradiction|]; destruct Hin as [<-|[]]; apply suffix_of_refl).
  all: try (rewrite rmatch_end in Hin; destruct s as [|x [|y s']]; try destruct (ascii_dec x _);
            try (destruct Hin as [<-|[]]; apply suffix_of_refl); contradiction).
  all: try (rewrite rmatch_empty in Hin; destruct Hin as [<-|[]]; apply suffix_of_refl).
  (* repetitions *)
  all: rewrite rmatch_repeat in Hin; cbv zeta in Hin.
  all: assert (Hstop : In st (if lo =? 0 then [(s, c)] else []) -> suffix_of s (fst st))
         by (destruct (lo =? 0); [intros [<-|[]]; apply suffix_of_refl|intros []]).
  all: destruct g; apply in_app_or in Hin as [Hin|Hin]; try (apply Hstop; exact Hin).
  all: destruct hi as [[|h]|]; try contradiction;
       apply in_flat_map in Hin as [st1 [H1 H2]];
       destruct (List.length (fst st1) <? List.length s); try contradiction.
  all: eapply suffix_of_trans; [apply (IH1 _ _ _ H1)|apply (IHn _ _ _ _ H2)].
Qed.

Lemma match_prefix_suffix r s s1 c : match_prefix r s = Some (s1, c) -> suffix_of s s1.
Proof.
  unfold match_prefix. destruct (rmatch _ r s []) as [|st l] eqn:E; [discriminate|].
  intros H. injection H as H. subst st.
  apply (rmatch_suffix (List.length s) r s [] (s1, c)). rewrite E. left. reflexivity.
Qed.



(** The matches of the scanner start no earlier than the scan position,
    are in left-to-right order and do not overlap. *)
Lemma finditer_aux_ordered r : forall k pos s,
  Forall (fun f => pos <= f_start f /\ f_start f <= f_end f) (finditer_aux r k pos s) /\
  Sorted (fun a b => f_end a <= f_start b) (finditer_aux r k pos s).
Proof.
  induction k as [|k IH]; intros pos s; cbn -[List.length]; [split; constructor|].
  destruct (match_prefix r s) as [[s1 c1]|] eqn:E.
  - pose proof (suffix_of_length _ _ (match_prefix_suffix _ _ _ _ E)) as Hle.
    set (e := pos + (List.length s - List.length s1)).
    assert (Htail : let l := (if List.length s1 <? List.length s then finditer_aux r k e s1
                              else match s with [] => [] | _ :: t => finditer_aux r k (S pos) t end) in
                    Forall (fun f => e <= f_start f /\ f_start f <= f_end f) l /\
                    Sorted (fun a b => f_end a <= f_start b) l).
    { cbv zeta. destruct (Nat.ltb_spec (List.length s1) (List.length s)).
      - apply IH.
      - destruct s as [|x t]; [split; constructor|].
        destruct (IH (S pos) t) as [HF HS]. split; [|exact HS].
        eapply Forall_impl; [|exact HF]. cbv beta. unfold e. cbn -[List.length] in *. lia. }
    destruct Htail as [HF HS]. split.
    + constructor; [cbn; unfold e; lia|].
      eapply Forall_impl; [|exact HF]. cbv beta. unfold e. lia.
    + constructor; [exact HS|].
      destruct (if List.length s1 <? List.length s then _ else _) as [|f l]; constructor.
      inversion HF; subst. cbn. tauto.
  - destruct s as [|x t]; [split; constructor|].
    destruct (IH (S pos) t) as [HF HS]. split; [|exact HS].
    eapply Forall_impl; [|exact HF]. cbv beta. lia.
Qed.

(** For a pattern that never matches the empty string every span is
    non-empty. *)
Lemma finditer_aux_nonempty r
    (Hne : forall s s1 c, match_prefix r s = Some (s1, c) -> List.length s1 < List.length s) :
  forall k pos s, Forall (fun f => f_start f < f_end f) (finditer_aux r k pos s).
Proof.
  induction k as [|k IH]; intros pos s; cbn -[List.length Nat.ltb]; [constructor|].
  destruct (match_prefix r s) as [[s1 c1]|] eqn:E.
  - apply Hne in E. constructor; [cbn; lia|].
    destruct (List.length s1 <? List.length s); [apply IH|].
    destruct s; [constructor|apply IH].
  - destruct s; [constructor|apply IH].
Qed.

Lemma lstrip_head l : match PyStr.lstrip_l l with c :: _ => PyStr.isspace c = false | [] => True end.
Proof.
  induction l as [|c t IH]; cbn; [exact I|].
  destruct (PyStr.isspace c) eqn:E; [exact IH|exact E].
Qed.

Lemma lstrip_suffix l : suffix_of l (PyStr.lstrip_l l).
Proof.
  induction l as [|c t IH]; cbn; [apply suffix_of_refl|].
  destruct (PyStr.isspace c).
  - destruct IH as [p Hp]. exists (c :: p). cbn. f_equal. exact Hp.
  - apply suffix_of_refl.
Qed.

Definition trimmed (l : list ascii) : Prop :=
  (match l with c :: _ => PyStr.isspace c = false | [] => True end) /\
  (match rev l with c :: _ => PyStr.isspace c = false | [] => True end).

(** The result of [str.strip()] starts and ends with a non-space. *)
Lemma strip_trimmed l : trimmed (PyStr.strip_l l).
Proof.
  unfold PyStr.strip_l.
  pose proof (lstrip_head l) as HA. set (A := PyStr.lstrip_l l) in *.
  pose proof (lstrip_head (rev A)) as HB.
  destruct (lstrip_suffix (rev A)) as [p Hp].
  set (B := PyStr.lstrip_l (rev A)) in *.
  split.
  - destruct (rev B) as [|x y] eqn:E; [exact I|].
    assert (HB' : B = rev y ++ [x]) by (rewrite <- (rev_involutive B), E; reflexivity).
    rewrite HB', app_assoc in Hp.
    apply (f_equal (@rev ascii)) in Hp.
    rewrite rev_involutive, rev_app_distr in Hp. cbn in Hp.
    rewrite Hp in HA. exact HA.
  - rewrite rev_involutive. exact HB.
Qed.

Lemma chars_strip s : PyStr.chars (PyStr.strip s) = PyStr.strip_l (PyStr.chars s).
Proof. apply list_ascii_of_string_of_list_ascii. Qed.

End RegexProps.

Module ChatOrder.

Import Regex DT Chat RegexProps.

(** The chat pattern starts with a literal "[" and never matches the
    empty string. *)
Lemma pattern_nonempty s s1 c :
  match_prefix pattern s = Some (s1, c) -> List.length s1 < List.length s.
Proof.
  unfold match_prefix.
  destruct (rmatch (List.length s) pattern s []) as [|st l] eqn:E; [discriminate|].
  intros H. injection H as H. subst st.
  assert (Hin : In (s1, c) (rmatch (List.length s) pattern s [])) by (rewrite E; left; reflexivity).
  unfold pattern, seqs in Hin. cbn [fold_right] in Hin.
  rewrite rmatch_seq in Hin. apply in_flat_map in Hin as [st1 [H1 H2]].
  unfold lit in H1. rewrite rmatch_class in H1.
  destruct s as [|x s']; [contradiction|].
  destruct (ascii_dec x "["); [|contradiction].
  destruct H1 as [<-|[]]. cbn [fst snd] in H2.
  apply rmatch_suffix, suffix_of_length in H2. cbn in *. lia.
Qed.

Lemma message_trimmed now path m :
  trimmed (PyStr.chars (sender (message_of_match now path m))) /\
  trimmed (PyStr.chars (message (message_of_match now path m))).
Proof.
  destruct m as [|a [|b [|c [|d [|e t]]]]];
    try (split; split; exact I).
  cbn [message_of_match sender message]. rewrite !chars_strip.
  split; apply strip_trimmed.
Qed.

Definition c9_text : string :=
  "[1/2/24, 10:30]  : hi" ++ String "010" "[1/2/24, 10:31] Bob:".

(** C9 (counterexample): a sender made of blanks and a message with no text
    are kept, and are empty once trimmed. *)
Lemma chat_blank_sender_and_message :
  ~ Forall (fun m => PyStr.strip (sender m) <> "" /\ PyStr.strip (message m) <> "")
      (process_chat_file (mkdt 2026 10 18 0 0 0 0) (fun _ => Some c9_text) "chat.txt").
Proof.
  intros H. vm_compute in H.
  inversion H as [|m l [Hs _] _]. apply Hs. reflexivity.
Qed.

(** C9 (amended): the messages are the matches of the pattern in the order
    the scanner meets them, left to right and without overlap; the sender
    and the text are stripped of surrounding whitespace (and may be empty). *)
Theorem chat_messages_source_order (now : datetime) (fs : string -> option string)
    (path raw : string) (Hread : fs path = Some raw) :
  let spans := finditer pattern (PyStr.chars (PyStr.universal_newlines raw)) in
  let msgs := process_chat_file now fs path in
  List.length msgs = List.length spans /\
  Sorted (fun a b => f_end a <= f_start b) spans /\
  Forall (fun f => f_start f < f_end f) spans /\
  (forall i f, nth_error spans i = Some f ->
     exists m, nth_error msgs i = Some m /\
       sender m = PyStr.strip (PyStr.of_chars (group (f_caps f) 3)) /\
       message m = PyStr.strip (PyStr.of_chars (group (f_caps f) 4))) /\
  Forall (fun m => trimmed (PyStr.chars (sender m)) /\ trimmed (PyStr.chars (message m))) msgs.
Proof.
  cbv zeta. unfold process_chat_file, findall. rewrite Hread.
  set (sp := finditer pattern _).
  split; [rewrite !length_map; reflexivity|].
  split; [apply finditer_aux_ordered|].
  split; [apply finditer_aux_nonempty, pattern_nonempty|].
  split.
  - intros i f Hi. rewrite !nth_error_map, Hi. cbn.
    eexists; split; [reflexivity|]. split; reflexivity.
  - apply Forall_forall. intros m Hm.
    apply in_map_iff in Hm as [g [<- Hg]].
    apply message_trimmed.
Qed.

Lemma chat_messages_source_order_witness :
  (fun _ : string => Some c9_text) "chat.txt" = Some c9_text /\
  List.length (process_chat_file (mkdt 2026 10 18 0 0 0 0) (fun _ => Some c9_text) "chat.txt")
  = List.length (finditer pattern (PyStr.chars (PyStr.universal_newlines c9_text))).
Proof.
  split; [reflexivity|].
  apply (chat_messages_source_order (mkdt 2026 10 18 0 0 0 0) (fun _ => Some c9_text)
           "chat.txt" c9_text eq_refl).
Defined.

End ChatOrder.

(* ------------------------------------------------------------------ *)
(** ** The sessions of the background tasks *)

Module SessionProps.

Import Json PyVal Store.

(** Every [AsyncSession(bind=db.get_bind())] of the tasks raises. *)
Lemma with_session_raises (body : db -> db + string) (st : db) :
  with_session body st = inr bind_error.
Proof. reflexivity. Qed.

Lemma timeline_task_unchanged pd exc tid s st : timeline_task pd exc tid s st = st.
Proof. destruct s; reflexivity. Qed.

Lemma report_task_unchanged exc so rid s st : report_task exc so rid s st = st.
Proof. destruct s; reflexivity. Qed.

Lemma report_job_unchanged rt exc so rid tid service st :
  Routes.report_job rt exc so rid tid service st = st.
Proof.
  unfold Routes.report_job.
  destruct (Routes.report_timeline_data rt tid st); apply report_task_unchanged.
Qed.

End SessionProps.

(* ------------------------------------------------------------------ *)
(** ** The events writer: compound source strings *)

Module EventProps.

Import Json PyVal Store SourceSpec.

Lemma substring_one_cons (a : ascii) (s : string) (i : nat) :
  substring (S i) 1 (String a s) = substring i 1 s.
Proof. reflexivity. Qed.

Lemma existsb_map_comp {A B : Type} (f : B -> bool) (g : A -> B) (l : list A) :
  existsb f (map g l) = existsb (fun x => f (g x)) l.
Proof. induction l as [|x l IH]; cbn; [reflexivity | now rewrite IH]. Qed.

Lemma contains_char (s : string) (c : ascii) :
  PyStr.contains s (String c EmptyString) = existsb (fun d => Json.is_char d c) (PyStr.chars s).
Proof.
  unfold PyStr.contains; cbn [String.length Nat.eqb].
  induction s as [|a s IH]; [reflexivity|].
  cbn [String.length seq existsb PyStr.chars list_ascii_of_string].
  rewrite <- seq_shift, existsb_map_comp.
  assert (Hhead : String.eqb (substring 0 1 (String a s)) (String c EmptyString) = Json.is_char a c).
  { cbn [substring]. replace (substring 0 0 s) with EmptyString by (destruct s; reflexivity).
    unfold Json.is_char.
    destruct (ascii_dec a c) as [->|Hne].
    - apply String.eqb_eq. reflexivity.
    - apply String.eqb_neq. intros H. inversion H. contradiction. }
  rewrite Hhead. f_equal. exact IH.
Qed.

Lemma split_l_cons_shape (sep : ascii) (l : list ascii) : exists w ws, PyStr.split_l sep l = w :: ws.
Proof.
  induction l as [|c t [w [ws IH]]]; cbn; [eauto|].
  rewrite IH. destruct (ascii_dec c sep); eauto.
Qed.

Lemma split_l_head (l : list ascii) : hd [] (PyStr.split_l ":" l) = before_first_colon l.
Proof.
  induction l as [|c t IH]; [reflexivity|].
  cbn [PyStr.split_l before_first_colon]. unfold is_colon, Json.is_char.
  destruct (split_l_cons_shape ":" t) as [w [ws E]]. rewrite E in *.
  destruct (ascii_dec c ":"); cbn in *; congruence.
Qed.

Lemma after_last_no_colon (l : list ascii) : existsb is_colon l = false -> after_last_colon l = l.
Proof.
  destruct l as [|c t]; [reflexivity|]. cbn. intros H.
  apply orb_false_iff in H as [H1 H2]. now rewrite H2, H1.
Qed.

Lemma split_l_single (l : list ascii) : existsb is_colon l = false -> PyStr.split_l ":" l = [l].
Proof.
  induction l as [|c t IH]; [reflexivity|]. cbn. intros H.
  apply orb_false_iff in H as [H1 H2]. rewrite (IH H2).
  unfold is_colon, Json.is_char in H1. destruct (ascii_dec c ":"); [discriminate|reflexivity].
Qed.

Lemma split_l_many (l : list ascii) : existsb is_colon l = true -> exists w v vs, PyStr.split_l ":" l = w :: v :: vs.
Proof.
  induction l as [|c t IH]; [discriminate|]. cbn. intros H.
  destruct (split_l_cons_shape ":" t) as [w [ws E]]. rewrite E.
  unfold is_colon, Json.is_char in H. destruct (ascii_dec c ":"); [eauto|].
  cbn in H. destruct (IH H) as [w' [v [vs E']]]. rewrite E in E'. injection E' as -> ->. eauto.
Qed.

Lemma split_l_last (l : list ascii) : last (PyStr.split_l ":" l) [] = after_last_colon l.
Proof.
  induction l as [|c t IH]; [reflexivity|].
  cbn [PyStr.split_l after_last_colon].
  destruct (existsb is_colon t) eqn:Ht.
  - destruct (split_l_many t Ht) as [w [v [vs E]]]. rewrite E in *.
    destruct (ascii_dec c ":"); exact IH.
  - rewrite (split_l_single t Ht). unfold is_colon, Json.is_char.
    destruct (ascii_dec c ":"); reflexivity.
Qed.

Lemma last_map {A B : Type} (f : A -> B) (l : list A) (d : A) :
  last (map f l) (f d) = f (last l d).
Proof. induction l as [|x [|y l] IH]; cbn in *; auto. Qed.

Lemma split_colon_head (src : string) :
  hd EmptyString (PyStr.split ":" src) = PyStr.of_chars (before_first_colon (PyStr.chars src)).
Proof.
  unfold PyStr.split. rewrite <- split_l_head.
  destruct (split_l_cons_shape ":" (PyStr.chars src)) as [w [ws E]]. rewrite E. reflexivity.
Qed.

Lemma split_colon_last (src : string) :
  last (PyStr.split ":" src) EmptyString = PyStr.of_chars (after_last_colon (PyStr.chars src)).
Proof.
  unfold PyStr.split. rewrite <- split_l_last. apply (last_map PyStr.of_chars _ []).
Qed.

Lemma chars_of_chars (l : list ascii) : PyStr.chars (PyStr.of_chars l) = l.
Proof. apply list_ascii_of_string_of_list_ascii. Qed.

Lemma isdigit_char_decimal (d : ascii) :
  negb (PyStr.isdigit_char d && negb (PyStr.isdecimal d)) = true -> PyStr.isdigit_char d = PyStr.isdecimal d.
Proof.
  unfold PyStr.isdigit_char. destruct (PyStr.isdecimal d), (PyStr.code d =? 178),
    (PyStr.code d =? 179), (PyStr.code d =? 185); cbn; congruence.
Qed.

Lemma isdigit_ascii (l : list ascii) :
  no_other_digits l = true -> PyStr.isdigit (PyStr.of_chars l) = ascii_digits l.
Proof.
  unfold PyStr.isdigit, ascii_digits, no_other_digits. rewrite chars_of_chars.
  destruct l as [|c t]; [reflexivity|]. intros H.
  change (forallb PyStr.isdigit_char (c :: t) = forallb PyStr.isdecimal (c :: t)).
  induction (c :: t) as [|d u IH]; [reflexivity|]. cbn in H |- *.
  apply andb_true_iff in H as [H1 H2]. rewrite (IH H2), (isdigit_char_decimal d H1). reflexivity.
Qed.

Lemma decimal_not_space (c : ascii) : PyStr.isdecimal c = true -> PyStr.isspace c = false.
Proof.
  unfold PyStr.isdecimal, PyStr.isspace. set (n := PyStr.code c). intros H.
  apply andb_true_iff in H as [H1 H2]. apply Nat.leb_le in H1, H2.
  repeat match goal with
         | |- context [?a <=? ?b] => destruct (Nat.leb_spec a b)
         | |- context [?a =? ?b] => destruct (Nat.eqb_spec a b)
         end; cbn; try reflexivity; lia.
Qed.

Lemma decimal_not_char (c d : ascii) : PyStr.isdecimal c = true -> PyStr.isdecimal d = false -> c <> d.
Proof. intros H1 H2 ->. congruence. Qed.

Lemma lstrip_decimal (l : list ascii) : forallb PyStr.isdecimal l = true -> PyStr.lstrip_l l = l.
Proof.
  destruct l as [|c t]; [reflexivity|]. cbn. intros H.
  apply andb_true_iff in H as [H1 _]. now rewrite (decimal_not_space c H1).
Qed.

Lemma forallb_rev {A : Type} (P : A -> bool) (l : list A) : forallb P (rev l) = forallb P l.
Proof.
  induction l as [|x l IH]; [reflexivity|]. cbn. rewrite forallb_app, IH. cbn.
  now rewrite andb_true_r, andb_comm.
Qed.

Lemma strip_decimal (l : list ascii) : forallb PyStr.isdecimal l = true -> PyStr.strip_l l = l.
Proof.
  intros H. unfold PyStr.strip_l. rewrite (lstrip_decimal l H).
  rewrite lstrip_decimal by now rewrite forallb_rev. apply rev_involutive.
Qed.

Lemma underscored_decimal (l : list ascii) :
  l <> [] -> forallb PyStr.isdecimal l = true -> PyStr.digits_underscored l = true.
Proof.
  induction l as [|c t IH]; [congruence|]. intros _ H.
  apply andb_true_iff in H as [H1 H2].
  destruct t as [|d u]; cbn; [exact H1|].
  rewrite H1. cbn in H2. apply andb_true_iff in H2 as [H3 H4].
  destruct (ascii_dec d "_") as [E|_].
  - subst d. discriminate H3.
  - apply IH; [discriminate|]. apply andb_true_iff. now split.
Qed.

Lemma filter_decimal (l : list ascii) :
  forallb PyStr.isdecimal l = true ->
  filter (fun c => if ascii_dec c "_" then false else true) l = l.
Proof.
  induction l as [|c t IH]; [reflexivity|]. cbn. intros H.
  apply andb_true_iff in H as [H1 H2]. rewrite (IH H2).
  destruct (ascii_dec c "_") as [E|_]; [subst c; discriminate H1|reflexivity].
Qed.

Lemma py_int_digits (l : list ascii) :
  ascii_digits l = true -> List.length l <= PyStr.max_str_digits ->
  PyStr.py_int (PyStr.of_chars l) = Some (Z.of_nat (PyStr.nat_of_digits l)).
Proof.
  unfold ascii_digits, PyStr.py_int. rewrite chars_of_chars.
  destruct l as [|c t] eqn:El; [discriminate|]. rewrite <- El. intros H Hlen.
  rewrite (strip_decimal l H). rewrite El in H, Hlen |- *.
  pose proof H as H'. apply andb_true_iff in H' as [H1 _].
  destruct (ascii_dec c "-") as [E|_]; [subst c; discriminate H1|].
  destruct (ascii_dec c "+") as [E|_]; [subst c; discriminate H1|].
  cbn [fst snd]. rewrite underscored_decimal by (discriminate || exact H).
  rewrite filter_decimal by exact H.
  replace (PyStr.max_str_digits <? List.length (c :: t)) with false
    by (symmetry; apply Nat.ltb_ge; exact Hlen).
  f_equal. lia.
Qed.

Lemma contains_colon (src : string) : PyStr.contains src ":" = existsb is_colon (PyStr.chars src).
Proof. exact (contains_char src ":"). Qed.

(** C8: the events writer never stores an event.  The session of the
    events loop, like the one before it, raises [ArgumentError] when it is
    opened, and so does the session of the [except] branch: whatever the
    model's result and its [source] strings, [generate_timeline_task]
    leaves the [timeline_events] table as it was.  For instance a result
    with one event of source "email:abc" after a new timeline request
    leaves no event at all. *)
Theorem timeline_task_stores_no_event (pd : json -> option DT.datetime) (exc : json -> string) :
  (forall tid s st, timeline_events (timeline_task pd exc tid s st) = timeline_events st) /\
  timeline_events
    (timeline_task pd exc 1
       (Produced (JObj [("overview", JStr "Summary");
                        ("events", JArr [JObj [("title", JStr "Call"); ("source", JStr "email:abc")]])]))
       (fst (timeline_request "Timeline of Contract Dispute" Outcomes.empty_db))) = [].
Proof.
  split.
  - intros tid s st. now rewrite SessionProps.timeline_task_unchanged.
  - rewrite SessionProps.timeline_task_unchanged. reflexivity.
Qed.

End EventProps.

(* ------------------------------------------------------------------ *)
(** ** Timeline and report lifecycle (C3) *)

Module StoreProps.

Import Json PyVal Store Outcomes.

Lemma has_timeline_ids tid st :
  has_timeline tid st = existsb (fun i => i =? tid) (map tl_id (timelines st)).
Proof. unfold has_timeline. now rewrite EventProps.existsb_map_comp. Qed.

Lemma has_report_ids rid st :
  has_report rid st = existsb (fun i => i =? rid) (map rp_id (reports st)).
Proof. unfold has_report. now rewrite EventProps.existsb_map_comp. Qed.

Lemma next_id_fresh (ids : list nat) : existsb (fun i => i =? next_id ids) ids = false.
Proof.
  unfold next_id. apply not_true_iff_false. intros H.
  apply existsb_exists in H as [i [Hi Hi']]. apply Nat.eqb_eq in Hi'.
  assert (i <= fold_right Nat.max 0 ids).
  { clear Hi'. induction ids as [|j t IH]; [destruct Hi|].
    destruct Hi as [->|Hi]; cbn; [lia|]. specialize (IH Hi). lia. }
  lia.
Qed.

(** C3: a timeline request creates a new placeholder row and answers at
    once with its id and status "processing"; a report request does so
    when the timeline exists, and otherwise fails with 404 and creates
    nothing.  But every session the background tasks open raises
    [ArgumentError], in the [try] and again in the [except] branch: whatever
    the model answers, or whatever exception comes first, the task leaves
    the database as it was, and the row keeps its placeholder. *)
Theorem placeholder_never_replaced :
  (forall title st pd exc s,
     let id := next_id (map tl_id (timelines st)) in
     let st1 := fst (timeline_request title st) in
     has_timeline id st = false /\
     snd (timeline_request title st)
       = Accepted (mkacc id "processing" "Timeline generation started. This may take a few minutes.") /\
     timeline_task pd exc id s st1 = st1 /\
     In (mktl id title (JStr timeline_placeholder)) (timelines (timeline_task pd exc id s st1))) /\
  (forall tl title st,
     has_timeline tl st = false ->
     report_request tl title st = (st, HttpError 404 ("Timeline with ID " ++ string_of_nat tl ++ " not found"))) /\
  (forall tl title st rt exc so service,
     has_timeline tl st = true ->
     let id := next_id (map rp_id (reports st)) in
     let st1 := fst (report_request tl title st) in
     has_report id st = false /\
     snd (report_request tl title st)
       = Accepted (mkacc id "processing" "Report generation started. This may take a few minutes.") /\
     Routes.report_job rt exc so id tl service st1 = st1 /\
     In (mkrep id title report_placeholder tl) (reports (Routes.report_job rt exc so id tl service st1))).
Proof.
  split; [|split].
  - intros title st pd exc s id st1.
    rewrite (SessionProps.timeline_task_unchanged pd exc id s st1).
    split; [|split; [|split]].
    + rewrite has_timeline_ids. apply next_id_fresh.
    + reflexivity.
    + reflexivity.
    + unfold st1. cbn. apply in_or_app. right. left. reflexivity.
  - intros tl title st H. unfold report_request. rewrite H. reflexivity.
  - intros tl title st rt exc so service H id st1.
    rewrite (SessionProps.report_job_unchanged rt exc so id tl service st1).
    split; [|split; [|split]].
    + rewrite has_report_ids. apply next_id_fresh.
    + unfold report_request. rewrite H. reflexivity.
    + reflexivity.
    + unfold st1, report_request. rewrite H. cbn. apply in_or_app. right. left. reflexivity.
Qed.

(** C3, witness: the first timeline of an empty database, a model that
    answers with an overview, and a report on that timeline whose model
    call fails. *)
Lemma placeholder_never_replaced_witness :
  let st := fst (timeline_request "Timeline of Contract Dispute" empty_db) in
  has_timeline 1 st = true /\
  timelines (timeline_task (fun _ => None) (fun _ => EmptyString) 1
               (Produced (JObj [("overview", JStr "Summary")])) st)
    = [mktl 1 "Timeline of Contract Dispute" (JStr timeline_placeholder)] /\
  reports (Routes.report_job (fun s => s) (fun _ => EmptyString) (fun _ => EmptyString) 1 1
             (fun _ => Crashed "timeout")
             (fst (report_request 1 "Legal Report: Contract Dispute Analysis" st)))
    = [mkrep 1 "Legal Report: Contract Dispute Analysis" report_placeholder 1].
Proof.
  destruct placeholder_never_replaced as [P1 [_ P3]].
  intros st.
  assert (H1 : has_timeline 1 st = true) by reflexivity.
  split; [exact H1|]. split.
  - destruct (P1 "Timeline of Contract Dispute" empty_db (fun _ => None) (fun _ => EmptyString)
                 (Produced (JObj [("overview", JStr "Summary")]))) as [_ [_ [E _]]].
    cbv zeta in E. fold st in E. transitivity (timelines st); [f_equal; exact E|reflexivity].
  - destruct (P3 1 "Legal Report: Contract Dispute Analysis" st (fun s => s) (fun _ => EmptyString)
                 (fun _ => EmptyString) (fun _ => Crashed "timeout") H1) as [_ [_ [E _]]].
    cbv zeta in E.
    transitivity (reports (fst (report_request 1 "Legal Report: Contract Dispute Analysis" st)));
      [f_equal; exact E|reflexivity].
Defined.

End StoreProps.

(* ------------------------------------------------------------------ *)
(** ** Model replies that are not JSON (C2) *)

Module LLMProps.

Import Json PyVal Outcomes.

Lemma pvalue_bracket lim f depth t :
  pvalue lim (S f) depth ("["%char :: t) =
  if depth_limit lim <=? depth then JOther (recursion_msg "array")
  else match skip_ws t with
       | d :: u => if is_char d "]" then JOk (JArr [], false, u) else pelements lim f (S depth) (d :: u) [] false
       | [] => JErr
       end.
Proof. reflexivity. Qed.

Lemma pelements_step lim f depth s acc out :
  pelements lim (S f) depth s acc out =
  match pvalue lim f depth s with
  | JOk (v, o, r) =>
      match skip_ws r with
      | e :: w =>
          if is_char e "]" then JOk (JArr (rev (v :: acc)), out || o, w)
          else if is_char e "," then pelements lim f depth (skip_ws w) (v :: acc) (out || o)
          else JErr
      | [] => JErr
      end
  | JErr => JErr | JOther m => JOther m | JOut => JOut
  end.
Proof. reflexivity. Qed.

Lemma pvalue_nested (lim : limits) (m : nat) : forall depth fuel,
  depth_limit lim <= depth + m -> 2 * m < fuel ->
  pvalue lim fuel depth (repeat "["%char (S m)) = JOther (recursion_msg "array").
Proof.
  induction m as [|m IH]; intros depth fuel Hd Hf;
    (destruct fuel as [|f]; [lia|]); cbn [repeat]; rewrite pvalue_bracket.
  - replace (depth_limit lim <=? depth) with true by (symmetry; apply Nat.leb_le; lia).
    reflexivity.
  - destruct (depth_limit lim <=? depth) eqn:E; [reflexivity|].
    apply Nat.leb_gt in E.
    change (skip_ws ("["%char :: repeat "["%char m)) with ("["%char :: repeat "["%char m).
    change (is_char "[" "]") with false. cbv iota beta.
    destruct f as [|f]; [lia|]. rewrite pelements_step.
    change ("["%char :: repeat "["%char m) with (repeat "["%char (S m)).
    rewrite (IH (S depth) f) by lia. reflexivity.
Qed.

Lemma json_loads_nested (lim : limits) :
  json_loads lim (nested (S (depth_limit lim))) = JOther (recursion_msg "array").
Proof.
  unfold json_loads, nested. rewrite EventProps.chars_of_chars, repeat_length.
  change (skip_ws (repeat "["%char (S (depth_limit lim)))) with (repeat "["%char (S (depth_limit lim))).
  rewrite pvalue_nested by lia. reflexivity.
Qed.

(** C2 (amended): for every model reply that [json.loads] rejects with
    [JSONDecodeError], the three operations return without raising a
    degraded object holding the reply under "raw_response": the timeline
    object has title, overview "Error parsing structured data" and an empty
    events list; the evidence object has that summary and empty
    key_issues and recommended_evidence lists (no evidence_gaps); the report
    object has only title "Legal Report", that executive summary and the
    raw reply.  "I cannot comply" is such a reply.  A reply nested deeper
    than the recursion limit makes [json.loads] raise [RecursionError]
    instead, and each operation returns its exception-path object, which
    has no "raw_response". *)
Theorem llm_degraded_results (lim : limits) (r : string) (Hdec : json_loads lim r = JErr) :
  LLM.generate_timeline lim (LLM.Reply r) =
    Some (JObj [("title", JStr "Timeline of Contract Dispute");
                ("overview", JStr "Error parsing structured data");
                ("raw_response", JStr r); ("events", JArr [])]) /\
  LLM.analyze_evidence lim (LLM.Reply r) =
    Some (JObj [("summary", JStr "Error parsing structured data");
                ("raw_response", JStr r); ("key_issues", JArr []);
                ("recommended_evidence", JArr [])]) /\
  LLM.generate_report lim (LLM.Reply r) =
    Some (JObj [("title", JStr "Legal Report");
                ("executive_summary", JStr "Error parsing structured data");
                ("raw_response", JStr r)]) /\
  LLM.analyze_evidence lim (LLM.Reply "I cannot comply") =
    Some (JObj [("summary", JStr "Error parsing structured data");
                ("raw_response", JStr "I cannot comply"); ("key_issues", JArr []);
                ("recommended_evidence", JArr [])]) /\
  let deep := nested (S (depth_limit lim)) in
  let msg := recursion_msg "array" in
  LLM.generate_timeline lim (LLM.Reply deep) =
    Some (JObj [("title", JStr "Timeline of Contract Dispute");
                ("overview", JStr ("Error generating timeline: " ++ msg));
                ("events", JArr [])]) /\
  LLM.analyze_evidence lim (LLM.Reply deep) =
    Some (JObj [("summary", JStr ("Error analyzing evidence: " ++ msg));
                ("key_issues", JArr []); ("recommended_evidence", JArr [])]) /\
  LLM.generate_report lim (LLM.Reply deep) =
    Some (JObj [("title", JStr "Legal Report");
                ("executive_summary", JStr ("Error generating report: " ++ msg))]).
Proof.
  unfold LLM.generate_timeline, LLM.analyze_evidence, LLM.generate_report.
  rewrite Hdec, json_loads_nested.
  assert (Hc : json_loads lim "I cannot comply" = JErr) by reflexivity.
  rewrite Hc. repeat split.
Qed.

Lemma llm_degraded_results_witness :
  json_loads cpython_limits "I cannot comply" = JErr /\
  LLM.analyze_evidence cpython_limits (LLM.Reply "I cannot comply") =
    Some (JObj [("summary", JStr "Error parsing structured data");
                ("raw_response", JStr "I cannot comply"); ("key_issues", JArr []);
                ("recommended_evidence", JArr [])]).
Proof.
  assert (H : json_loads cpython_limits "I cannot comply" = JErr) by (vm_compute; reflexivity).
  split; [exact H|]. exact (proj1 (proj2 (llm_degraded_results cpython_limits _ H))).
Defined.

(** C2, counterexample: an unterminated reply nested past the recursion
    limit is not valid JSON, yet the evidence result carries no
    "raw_response"; and the degraded report for "I cannot comply" lacks the
    report's structured fields (background, timeline, ...), the degraded
    evidence result its "evidence_gaps". *)
Lemma llm_degraded_shape_gaps :
  (exists kvs, LLM.analyze_evidence cpython_limits (LLM.Reply (nested 1001)) = Some (JObj kvs)
               /\ dict_has kvs "raw_response" = false) /\
  (exists kvs, LLM.generate_report cpython_limits (LLM.Reply "I cannot comply") = Some (JObj kvs)
               /\ dict_has kvs "raw_response" = true
               /\ dict_has kvs "background" = false /\ dict_has kvs "timeline" = false) /\
  (exists kvs, LLM.analyze_evidence cpython_limits (LLM.Reply "I cannot comply") = Some (JObj kvs)
               /\ dict_has kvs "evidence_gaps" = false).
Proof.
  split; [|split].
  - eexists. split.
    + unfold LLM.analyze_evidence.
      change (nested 1001) with (nested (S (depth_limit cpython_limits))).
      rewrite json_loads_nested. reflexivity.
    + reflexivity.
  - eexists. split; [vm_compute; reflexivity|]. split; [reflexivity|]. split; reflexivity.
  - eexists. split; [vm_compute; reflexivity|]. reflexivity.
Qed.

End LLMProps.

(* ------------------------------------------------------------------ *)

Module SortProps.

Import Ingest.

Section Generic.

Context {A : Type} (le : A -> A -> bool).

Lemma insert_by_perm (x : A) (l : list A) : Permutation (insert_by le x l) (x :: l).
Proof.
  induction l as [|y t IH]; simpl; [reflexivity|].
  destruct (le x y); [reflexivity|].
  rewrite IH. apply perm_swap.
Qed.

Lemma isort_perm (l : list A) : Permutation (isort le l) l.
Proof.
  induction l as [|x t IH]; simpl; [reflexivity|].
  rewrite insert_by_perm. now apply perm_skip.
Qed.

Lemma isort_length (l : list A) : List.length (isort le l) = List.length l.
Proof. apply Permutation_length, isort_perm. Qed.

Lemma isort_nil (l : list A) : isort le l = [] <-> l = [].
Proof.
  split; intros H.
  - apply Permutation_nil. rewrite <- H. apply isort_perm.
  - now subst.
Qed.

Hypothesis le_total : forall x y, le x y = false -> le y x = true.

Lemma insert_by_sorted (x : A) (l : list A) :
  Sorted (fun a b => le a b = true) l -> Sorted (fun a b => le a b = true) (insert_by le x l).
Proof.
  induction 1 as [|y t Ht IH Hhd]; simpl.
  - repeat constructor.
  - destruct (le x y) eqn:Hxy.
    + constructor; [constructor; assumption|]. now constructor.
    + constructor; [exact IH|].
      destruct t as [|z u]; simpl.
      * constructor. now apply le_total.
      * inversion Hhd; subst. destruct (le x z); constructor; [now apply le_total|assumption].
Qed.

Lemma isort_sorted (l : list A) : Sorted (fun a b => le a b = true) (isort le l).
Proof.
  induction l as [|x t IH]; simpl; [constructor|]. now apply insert_by_sorted.
Qed.

End Generic.

Section Stable.

Context {A : Type} (key : A -> string).

Definition key_le (x y : A) : bool := negb (String.ltb (key y) (key x)).

Lemma string_compare_refl (s : string) : String.compare s s = Eq.
Proof.
  pose proof (String.compare_antisym s s) as H.
  destruct (String.compare s s); simpl in H; congruence.
Qed.

Lemma key_le_total (x y : A) : key_le x y = false -> key_le y x = true.
Proof.
  unfold key_le, String.ltb. rewrite (String.compare_antisym (key x) (key y)).
  destruct (String.compare (key y) (key x)); simpl; congruence.
Qed.

Lemma insert_by_stable (k : string) (x : A) (l : list A) :
  filter (fun e => String.eqb (key e) k) (insert_by key_le x l)
  = filter (fun e => String.eqb (key e) k) (x :: l).
Proof.
  induction l as [|y t IH]; simpl; [reflexivity|].
  destruct (key_le x y) eqn:Hxy; [reflexivity|].
  simpl. rewrite IH. simpl.
  destruct (String.eqb (key x) k) eqn:Hx, (String.eqb (key y) k) eqn:Hy; try reflexivity.
  apply String.eqb_eq in Hx, Hy. unfold key_le, String.ltb in Hxy.
  rewrite Hx, <- Hy, string_compare_refl in Hxy. discriminate.
Qed.

Lemma isort_stable (k : string) (l : list A) :
  filter (fun e => String.eqb (key e) k) (isort key_le l) = filter (fun e => String.eqb (key e) k) l.
Proof.
  induction l as [|x t IH]; [reflexivity|].
  change (isort key_le (x :: t)) with (insert_by key_le x (isort key_le t)).
  rewrite insert_by_stable. simpl. now rewrite IH.
Qed.

End Stable.

End SortProps.

Module IsoProps.

Import DT Ingest.

(** [String.compare] on character lists. *)
Fixpoint lcomp (l1 l2 : list ascii) : comparison :=
  match l1, l2 with
  | [], [] => Eq
  | [], _ :: _ => Lt
  | _ :: _, [] => Gt
  | c1 :: t1, c2 :: t2 => match Ascii.compare c1 c2 with Eq => lcomp t1 t2 | c => c end
  end.

(** Fixed-width decimal digits. *)
Fixpoint df (w n : nat) : list ascii :=
  match w with
  | 0 => []
  | S w' => df w' (n / 10) ++ [ascii_of_nat (48 + n mod 10)]
  end.

Lemma compare_of_chars (l1 l2 : list ascii) :
  String.compare (PyStr.of_chars l1) (PyStr.of_chars l2) = lcomp l1 l2.
Proof.
  revert l2; induction l1 as [|c t IH]; intros [|d u]; simpl; try reflexivity.
  destruct (Ascii.compare c d); [apply IH|reflexivity|reflexivity].
Qed.

Lemma lcomp_app (u v x y : list ascii) :
  List.length u = List.length v ->
  lcomp (u ++ x) (v ++ y) = match lcomp u v with Eq => lcomp x y | c => c end.
Proof.
  revert v; induction u as [|c t IH]; intros [|d w] Hl; simpl in *; try discriminate; [reflexivity|].
  destruct (Ascii.compare c d); [apply IH; lia|reflexivity|reflexivity].
Qed.

Lemma lcomp_single (c d : ascii) : lcomp [c] [d] = Ascii.compare c d.
Proof. simpl. destruct (Ascii.compare c d); reflexivity. Qed.

Lemma lcomp_refl (l : list ascii) : lcomp l l = Eq.
Proof.
  induction l as [|c t IH]; simpl; [reflexivity|].
  pose proof (Ascii.compare_antisym c c) as H.
  destruct (Ascii.compare c c); simpl in H; congruence.
Qed.

Lemma df_length (w n : nat) : List.length (df w n) = w.
Proof.
  revert n; induction w as [|w IH]; intros n; simpl; [reflexivity|].
  rewrite length_app, IH. simpl. lia.
Qed.

Lemma df_zero (w : nat) : df w 0 = repeat "0"%char w.
Proof.
  induction w as [|w IH]; simpl; [reflexivity|].
  rewrite IH. change (ascii_of_nat (48 + 0 mod 10)) with "0"%char.
  clear IH. induction w as [|w IH]; simpl; [reflexivity|]. now rewrite IH.
Qed.

Lemma nat_digits_step (f n : nat) :
  PyVal.nat_digits (S f) n
  = if n <? 10 then [ascii_of_nat (48 + n)]
    else PyVal.nat_digits f (n / 10) ++ [ascii_of_nat (48 + n mod 10)].
Proof. reflexivity. Qed.

Lemma digits_df (w f n : nat) :
  n < 10 ^ S w -> n < 10 ^ S f ->
  repeat "0"%char (S w - List.length (PyVal.nat_digits (S f) n)) ++ PyVal.nat_digits (S f) n
  = df (S w) n.
Proof.
  revert f n; induction w as [|w IH]; intros f n Hw Hf.
  - simpl in Hw. rewrite nat_digits_step.
    replace (n <? 10) with true by (symmetry; apply Nat.ltb_lt; lia).
    change (df 1 n) with ([] ++ [ascii_of_nat (48 + n mod 10)]).
    rewrite Nat.mod_small by lia. reflexivity.
  - destruct (n <? 10) eqn:Hn.
    + pose proof Hn as Hn'. apply Nat.ltb_lt in Hn'. rewrite nat_digits_step. rewrite Hn.
      change (df (S (S w)) n) with (df (S w) (n / 10) ++ [ascii_of_nat (48 + n mod 10)]).
      rewrite Nat.div_small, Nat.mod_small, df_zero by lia.
      simpl List.length. replace (S (S w) - 1) with (S w) by lia.
      reflexivity.
    + apply Nat.ltb_ge in Hn.
      destruct f as [|f].
      * simpl in Hf. lia.
      * rewrite nat_digits_step. replace (n <? 10) with false by (symmetry; apply Nat.ltb_ge; lia).
        change (df (S (S w)) n) with (df (S w) (n / 10) ++ [ascii_of_nat (48 + n mod 10)]).
        rewrite <- (IH f (n / 10)).
        -- rewrite length_app. change (List.length [ascii_of_nat (48 + n mod 10)]) with 1.
           replace (S (S w) - (List.length (PyVal.nat_digits (S f) (n / 10)) + 1))
             with (S w - List.length (PyVal.nat_digits (S f) (n / 10))) by lia.
           now rewrite app_assoc.
        -- apply Nat.Div0.div_lt_upper_bound. simpl in *. lia.
        -- apply Nat.Div0.div_lt_upper_bound. simpl in *. lia.
Qed.

Lemma pad_df (w n : nat) : 0 < w -> n < 10 ^ w -> pad w n = df w n.
Proof.
  intros Hw Hn. destruct w as [|w]; [lia|].
  unfold pad. apply digits_df; [exact Hn|].
  apply Nat.lt_le_trans with (10 ^ n); [apply Nat.pow_gt_lin_r; lia|].
  apply Nat.pow_le_mono_r; lia.
Qed.

Lemma ascii_digit_compare (x y : nat) :
  x < 10 -> y < 10 ->
  Ascii.compare (ascii_of_nat (48 + x)) (ascii_of_nat (48 + y)) = Nat.compare x y.
Proof.
  intros Hx Hy.
  destruct x as [|[|[|[|[|[|[|[|[|[|x]]]]]]]]]]; try lia;
  destruct y as [|[|[|[|[|[|[|[|[|[|y]]]]]]]]]]; try lia; reflexivity.
Qed.

Lemma compare_div_mod (a b : nat) :
  Nat.compare a b =
  match Nat.compare (a / 10) (b / 10) with Eq => Nat.compare (a mod 10) (b mod 10) | c => c end.
Proof.
  pose proof (Nat.div_mod a 10 ltac:(lia)) as Ha.
  pose proof (Nat.div_mod b 10 ltac:(lia)) as Hb.
  pose proof (Nat.mod_upper_bound a 10 ltac:(lia)).
  pose proof (Nat.mod_upper_bound b 10 ltac:(lia)).
  destruct (Nat.compare_spec (a / 10) (b / 10)) as [E|L|G].
  - destruct (Nat.compare_spec (a mod 10) (b mod 10)).
    + apply Nat.compare_eq_iff. lia.
    + apply Nat.compare_lt_iff. lia.
    + apply Nat.compare_gt_iff. lia.
  - apply Nat.compare_lt_iff. lia.
  - apply Nat.compare_gt_iff. lia.
Qed.

Lemma lcomp_df (w a b : nat) :
  a < 10 ^ w -> b < 10 ^ w -> lcomp (df w a) (df w b) = Nat.compare a b.
Proof.
  revert a b; induction w as [|w IH]; intros a b Ha Hb.
  - simpl in *. replace a with 0 by lia. replace b with 0 by lia. reflexivity.
  - change (df (S w) a) with (df w (a / 10) ++ [ascii_of_nat (48 + a mod 10)]).
    change (df (S w) b) with (df w (b / 10) ++ [ascii_of_nat (48 + b mod 10)]).
    rewrite lcomp_app by (rewrite !df_length; reflexivity).
    rewrite IH by (apply Nat.Div0.div_lt_upper_bound; simpl in *; lia).
    rewrite (compare_div_mod a b).
    destruct (Nat.compare (a / 10) (b / 10)); try reflexivity.
    rewrite lcomp_single, ascii_digit_compare by (apply Nat.mod_upper_bound; lia).
    destruct (Nat.compare (a mod 10) (b mod 10)); reflexivity.
Qed.

Lemma valid_bounds (d : datetime) :
  valid d = true ->
  year d < 10 ^ 4 /\ month d < 10 ^ 2 /\ day d < 10 ^ 2 /\ hour d < 10 ^ 2 /\
  minute d < 10 ^ 2 /\ second d < 10 ^ 2 /\ microsecond d < 10 ^ 6.
Proof.
  unfold valid. intros H.
  repeat rewrite andb_true_iff in H.
  destruct H as [[[[[[[[[H1 H2] H3] H4] H5] H6] H7] H8] H9] H10].
  apply Nat.leb_le in H2, H4, H6, H7, H8, H9, H10.
  assert (days_in_month (year d) (month d) <= 31).
  { unfold days_in_month. destruct (month d) as [|[|[|[|[|[|[|[|[|[|[|[|[|m]]]]]]]]]]]]];
      try destruct (is_leap (year d)); lia. }
  assert (P4 : 9999 < 10 ^ 4) by (apply Nat.ltb_lt; vm_compute; reflexivity).
  assert (P2 : 59 < 10 ^ 2) by (apply Nat.ltb_lt; vm_compute; reflexivity).
  assert (P6 : 999999 < 10 ^ 6) by (apply Nat.ltb_lt; vm_compute; reflexivity).
  lia.
Qed.

Lemma micro_compare (a b : nat) :
  a < 10 ^ 6 -> b < 10 ^ 6 ->
  lcomp (if a =? 0 then [] else "."%char :: df 6 a) (if b =? 0 then [] else "."%char :: df 6 b)
  = Nat.compare a b.
Proof.
  intros Ha Hb.
  destruct (a =? 0) eqn:Ea, (b =? 0) eqn:Eb;
    apply Nat.eqb_eq in Ea || apply Nat.eqb_neq in Ea;
    apply Nat.eqb_eq in Eb || apply Nat.eqb_neq in Eb.
  - subst. reflexivity.
  - subst. symmetry. apply Nat.compare_lt_iff. lia.
  - subst. symmetry. apply Nat.compare_gt_iff. lia.
  - change ("."%char :: df 6 a) with (["."%char] ++ df 6 a).
    change ("."%char :: df 6 b) with (["."%char] ++ df 6 b).
    rewrite lcomp_app, lcomp_refl by reflexivity. now apply lcomp_df.
Qed.

(** [isoformat] orders valid datetimes chronologically. *)
Lemma iso_compare (sep : ascii) (a b : datetime) :
  valid a = true -> valid b = true ->
  String.compare (isoformat_sep sep a) (isoformat_sep sep b) = dt_compare a b.
Proof.
  intros Ha Hb.
  destruct (valid_bounds a Ha) as (Ya & Ma & Da & Ha' & Mia & Sa & Ua).
  destruct (valid_bounds b Hb) as (Yb & Mb & Db & Hb' & Mib & Sb & Ub).
  unfold isoformat_sep. rewrite compare_of_chars.
  rewrite !(pad_df 4), !(pad_df 2), !(pad_df 6) by (lia || assumption).
  rewrite !lcomp_app by (rewrite ?df_length; reflexivity).
  rewrite !lcomp_refl.
  rewrite (lcomp_df 4 (year a)), (lcomp_df 2 (month a)), (lcomp_df 2 (day a)),
    (lcomp_df 2 (hour a)), (lcomp_df 2 (minute a)), (lcomp_df 2 (second a))
    by assumption.
  rewrite micro_compare by assumption.
  unfold dt_compare. cbn [combine fold_right fst snd].
  destruct (Nat.compare (year a) (year b)); try reflexivity.
  destruct (Nat.compare (month a) (month b)); try reflexivity.
  destruct (Nat.compare (day a) (day b)); try reflexivity.
  destruct (Nat.compare (hour a) (hour b)); try reflexivity.
  destruct (Nat.compare (minute a) (minute b)); try reflexivity.
  destruct (Nat.compare (second a) (second b)); try reflexivity.
  destruct (Nat.compare (microsecond a) (microsecond b)); reflexivity.
Qed.

Lemma lex_antisym (l1 l2 : list nat) :
  List.length l1 = List.length l2 ->
  fold_right (fun xy acc => match Nat.compare (fst xy) (snd xy) with Eq => acc | c => c end) Eq
    (combine l1 l2)
  = CompOpp (fold_right (fun xy acc => match Nat.compare (fst xy) (snd xy) with Eq => acc | c => c end) Eq
    (combine l2 l1)).
Proof.
  revert l2; induction l1 as [|x t IH]; intros [|y u] Hl; simpl in *; try discriminate; [reflexivity|].
  rewrite (Nat.compare_antisym x y).
  destruct (Nat.compare x y); simpl; [apply IH; lia|reflexivity|reflexivity].
Qed.

Lemma dt_compare_antisym (a b : datetime) : dt_compare a b = CompOpp (dt_compare b a).
Proof. unfold dt_compare. apply lex_antisym. reflexivity. Qed.

End IsoProps.

Module AggregateProps.

Import Json PyVal Ingest Aggregate SortProps IsoProps.

Lemma get_email_date (e : email_row) : get (email_event e) "date" = date_json (em_date e).
Proof. reflexivity. Qed.

Lemma get_chat_date (c : chat_row) : get (chat_event c) "date" = date_json (cl_date_time c).
Proof. reflexivity. Qed.

Lemma get_pdf_date (p : pdf_row) : get (pdf_event p) "date" = JNull.
Proof. reflexivity. Qed.

Lemma has_date_json (d : option DT.datetime) (e : json) :
  get e "date" = date_json d -> has_date e = true ->
  exists x, d = Some x /\ get e "date" = JStr (isoformat x).
Proof.
  unfold has_date. intros Hg Hd. rewrite Hg in *.
  destruct d as [x|]; [now exists x|discriminate].
Qed.

Lemma sorted_weaken {A} (R R' : A -> A -> Prop) (l : list A) :
  (forall x y, R x y -> R' x y) -> Sorted R l -> Sorted R' l.
Proof.
  intros HR. induction 1 as [|a t Ht IH Hhd]; constructor; [exact IH|].
  destruct Hhd; constructor. now apply HR.
Qed.

Lemma key_le_chrono (x y : json) (dx dy : DT.datetime) :
  key_le date_key x y = true ->
  get x "date" = JStr (isoformat dx) -> get y "date" = JStr (isoformat dy) ->
  DT.valid dx = true -> DT.valid dy = true -> dt_le dx dy = true.
Proof.
  unfold key_le, date_key, String.ltb, isoformat. intros Hle Hx Hy Vx Vy.
  rewrite Hx, Hy in Hle. rewrite iso_compare in Hle by assumption.
  unfold dt_le. rewrite dt_compare_antisym.
  destruct (dt_compare dy dx); simpl in *; congruence.
Qed.

Lemma dated_origin (emails : list email_row) (chats : list chat_row) (pdfs : list pdf_row) (e : json) :
  In e (collect_events emails chats pdfs) -> has_date e = true ->
  (exists m, In m emails /\ e = email_event m) \/ (exists c, In c chats /\ e = chat_event c).
Proof.
  unfold collect_events. rewrite !in_app_iff, !in_map_iff.
  intros [(m & <- & Hm)|[(c & <- & Hc)|(p & <- & Hp)]] Hd.
  - left. now exists m.
  - right. now exists c.
  - discriminate.
Qed.

(** C1: for any emails, chat messages and PDF documents fetched from the
    database (their datetimes being real [datetime] values), the list handed
    to the model is a dated part followed by an undated part.  The dated
    part holds exactly the dated events, each stamped with the isoformat of
    a datetime, sorted chronologically, with events of equal timestamp in
    their original relative order; the undated part is the undated events
    in their original order, and it holds every PDF event. *)
Theorem aggregate_order (emails : list email_row) (chats : list chat_row) (pdfs : list pdf_row)
  (Hemails : forall m d, In m emails -> em_date m = Some d -> DT.valid d = true)
  (Hchats : forall c d, In c chats -> cl_date_time c = Some d -> DT.valid d = true) :
  let events := collect_events emails chats pdfs in
  exists dated undated,
    aggregate emails chats pdfs = dated ++ undated /\
    Permutation dated (filter has_date events) /\
    undated = filter (fun e => negb (has_date e)) events /\
    Forall (fun e => exists d, DT.valid d = true /\ get e "date" = JStr (isoformat d)) dated /\
    Sorted (fun x y => forall dx dy,
              get x "date" = JStr (isoformat dx) -> get y "date" = JStr (isoformat dy) ->
              DT.valid dx = true -> DT.valid dy = true -> dt_le dx dy = true) dated /\
    (forall k, filter (fun e => String.eqb (date_key e) k) dated
               = filter (fun e => String.eqb (date_key e) k) (filter has_date events)) /\
    (forall p, In p pdfs -> In (pdf_event p) undated /\ ~ In (pdf_event p) dated).
Proof.
  intros events.
  exists (sort_events (filter has_date events)), (filter (fun e => negb (has_date e)) events).
  assert (Hperm : Permutation (sort_events (filter has_date events)) (filter has_date events))
    by apply isort_perm.
  split; [reflexivity|]. split; [exact Hperm|]. split; [reflexivity|].
  split.
  { apply Forall_forall. intros e He.
    apply (Permutation_in _ Hperm), filter_In in He as [Hin Hd].
    destruct (dated_origin emails chats pdfs e Hin Hd) as [(m & Hm & ->)|(c & Hc & ->)].
    - destruct (has_date_json _ _ (get_email_date m) Hd) as (x & Hx & Hg).
      exists x. split; [exact (Hemails m x Hm Hx)|exact Hg].
    - destruct (has_date_json _ _ (get_chat_date c) Hd) as (x & Hx & Hg).
      exists x. split; [exact (Hchats c x Hc Hx)|exact Hg]. }
  split.
  { apply (sorted_weaken (fun a b => key_le date_key a b = true)).
    - intros x y Hxy dx dy Hx Hy Vx Vy. exact (key_le_chrono x y dx dy Hxy Hx Hy Vx Vy).
    - apply isort_sorted, key_le_total. }
  split.
  { intros k. apply isort_stable. }
  intros p Hp.
  assert (Hin : In (pdf_event p) events).
  { unfold events, collect_events. rewrite !in_app_iff. right. right. now apply in_map. }
  split.
  - apply filter_In. split; [exact Hin|reflexivity].
  - intros Hd. apply (Permutation_in _ Hperm), filter_In in Hd as [_ Hd]. discriminate.
Qed.

(** C1, witness: an email and a chat message, given in reverse
    chronological order, and a PDF. *)
Lemma aggregate_order_witness :
  let emails := [mkemail 1 "a@x" "b@x" "Invoice" (Some (DT.mkdt 2024 1 2 9 0 0 0)) "Pay" "m1"] in
  let chats := [mkchat 1 (Some (DT.mkdt 2024 1 1 8 30 0 0)) "Bob" "Hi" "f.txt"] in
  let pdfs := [mkpdf 1 "inv.pdf" "Total" "p.pdf"] in
  map date_key (aggregate emails chats pdfs) = ["2024-01-01T08:30:00"; "2024-01-02T09:00:00"; ""] /\
  exists dated undated, aggregate emails chats pdfs = dated ++ undated /\
    In (pdf_event (mkpdf 1 "inv.pdf" "Total" "p.pdf")) undated.
Proof.
  intros emails chats pdfs. split; [reflexivity|].
  assert (He : forall m d, In m emails -> em_date m = Some d -> DT.valid d = true).
  { intros m d [<-|[]] Hd. injection Hd as <-. reflexivity. }
  assert (Hc : forall c d, In c chats -> cl_date_time c = Some d -> DT.valid d = true).
  { intros c d [<-|[]] Hd. injection Hd as <-. reflexivity. }
  destruct (aggregate_order emails chats pdfs He Hc)
    as (dated & undated & Heq & _ & _ & _ & _ & _ & Hpdf).
  exists dated, undated. split; [exact Heq|].
  exact (proj1 (Hpdf _ (or_introl eq_refl))).
Defined.

End AggregateProps.

Module IngestProps.

Import Ingest.

Lemma commit_emails_spec (items : list saved_email) (st out st' : list email_row) :
  commit_emails st items = Some (out, st') ->
  (exists added, st' = st ++ added /\
     forall r, In r added -> existsb (fun e => String.eqb (em_email_id e) (em_email_id r)) st = false) /\
  Forall2 (fun it r => match it with Existing e => r = e | Pending d => em_email_id r = ed_email_id d end)
          items out.
Proof.
  revert st out st'. induction items as [|it t IH]; intros st out st' H; simpl in H.
  - injection H as <- <-. split; [exists []; split; [now rewrite app_nil_r|intros r []]|constructor].
  - destruct it as [e|d].
    + destruct (commit_emails st t) as [[o s]|] eqn:E; [|discriminate].
      injection H as <- <-. destruct (IH st o s E) as [Hadd Hf].
      split; [exact Hadd|]. now constructor.
    + destruct (existsb (fun e => String.eqb (em_email_id e) (ed_email_id d)) st) eqn:Ex; [discriminate|].
      set (r := email_of_data (Store.next_id (map em_id st)) d) in H.
      destruct (commit_emails (st ++ [r]) t) as [[o s]|] eqn:E; [|discriminate].
      injection H as <- <-. destruct (IH _ o s E) as [(added & Hs & Hnew) Hf].
      split.
      * exists (r :: added). split; [now rewrite Hs, <- app_assoc|].
        intros r' [<-|Hr'].
        -- exact Ex.
        -- specialize (Hnew r' Hr'). rewrite existsb_app in Hnew.
           now apply orb_false_iff in Hnew as [Hnew _].
      * constructor; [reflexivity|exact Hf].
Qed.

Lemma filter_none {A} (f : A -> bool) (l : list A) :
  (forall x, In x l -> f x = false) -> filter f l = [].
Proof.
  induction l as [|x t IH]; intros H; simpl; [reflexivity|].
  rewrite (H x (or_introl eq_refl)). apply IH. intros y Hy. apply H. now right.
Qed.

Lemma forall2_map_l {A B C} (f : A -> B) (R : B -> C -> Prop) (l : list A) (l' : list C) :
  Forall2 R (map f l) l' -> Forall2 (fun a c => R (f a) c) l l'.
Proof.
  revert l'; induction l as [|a t IH]; intros l' H; inversion H; subst; constructor; auto.
Qed.

Lemma save_chat_spec (msgs : list Chat.chat_message) (st : list chat_row) :
  snd (save_chat_messages msgs st) = st ++ fst (save_chat_messages msgs st) /\
  map chat_fields (fst (save_chat_messages msgs st))
  = map (fun m => (Some (Chat.date_time m), Chat.sender m, Chat.message m, Chat.file_path m)) msgs.
Proof.
  revert st; induction msgs as [|m t IH]; intros st; simpl; [split; [now rewrite app_nil_r|reflexivity]|].
  set (r := mkchat (Store.next_id (map cl_id st)) (Some (Chat.date_time m)) (Chat.sender m)
                   (Chat.message m) (Chat.file_path m)).
  specialize (IH (st ++ [r])).
  destruct (save_chat_messages t (st ++ [r])) as [o s]. simpl in *.
  destruct IH as [Hs Hf]. split; [now rewrite Hs, <- app_assoc|now rewrite Hf].
Qed.

(** C7: saving is idempotent per mail message id and per PDF file path,
    not for chat messages.  When [save_emails] returns, the rows stored
    before are all still there, no row was added for a message id already
    stored, and for every input whose id was stored the returned object is
    that stored row; [save_pdf_document] on a stored file path returns the
    stored row and adds nothing; saving the same chat messages twice
    inserts them twice, as rows with the same column values. *)
Theorem save_idempotence :
  (forall emails st out st',
     save_emails emails st = Some (out, st') ->
     (exists added, st' = st ++ added) /\
     (forall k, existsb (fun e => String.eqb (em_email_id e) k) st = true ->
        filter (fun e => String.eqb (em_email_id e) k) st'
        = filter (fun e => String.eqb (em_email_id e) k) st) /\
     Forall2 (fun d r => forall e, find_email st (ed_email_id d) = Some e -> r = e) emails out) /\
  (forall d st p,
     find (fun q => String.eqb (pd_file_path q) (pdd_file_path d)) st = Some p ->
     save_pdf_document d st = (Some p, st)) /\
  (forall msgs st,
     let first := save_chat_messages msgs st in
     let second := save_chat_messages msgs (snd first) in
     snd second = st ++ fst first ++ fst second /\
     map chat_fields (fst second) = map chat_fields (fst first) /\
     List.length (fst second) = List.length msgs).
Proof.
  split; [|split].
  - intros emails st out st' H. unfold save_emails in H.
    destruct (commit_emails_spec _ _ _ _ H) as [(added & Hs & Hnew) Hf].
    split; [now exists added|]. split.
    + intros k Hk. rewrite Hs, filter_app.
      replace (filter (fun e => String.eqb (em_email_id e) k) added) with (@nil email_row);
        [now rewrite app_nil_r|].
      symmetry. apply filter_none. intros r Hr.
      destruct (String.eqb (em_email_id r) k) eqn:E; [|reflexivity].
      apply String.eqb_eq in E. specialize (Hnew r Hr). rewrite E, Hk in Hnew. discriminate.
    + apply forall2_map_l in Hf. revert Hf. apply Forall2_impl.
      intros d r Hr e He. rewrite He in Hr. exact Hr.
  - intros d st p Hp. unfold save_pdf_document. now rewrite Hp.
  - intros msgs st first second.
    destruct (save_chat_spec msgs st) as [H1 F1].
    destruct (save_chat_spec msgs (snd first)) as [H2 F2].
    fold first in H1, F1. fold second in H2, F2.
    split; [now rewrite H2, H1, <- app_assoc|]. split.
    + now rewrite F1, F2.
    + rewrite <- (length_map chat_fields), F2. apply length_map.
Qed.

(** C7, witness: a batch holding a stored message id and a new one, a PDF
    path already stored, and one chat message saved twice. *)
Lemma save_idempotence_witness :
  let st := [mkemail 1 "a@x" "b@x" "Hi" None "Body" "m1"] in
  let batch := [mkemaildata "m1" "a@x" "b@x" "Hi again" None "Other"; mkemaildata "m2" "c@x" "b@x" "New" None "B"] in
  save_emails batch st
    = Some ([mkemail 1 "a@x" "b@x" "Hi" None "Body" "m1"; mkemail 2 "c@x" "b@x" "New" None "B" "m2"],
            [mkemail 1 "a@x" "b@x" "Hi" None "Body" "m1"; mkemail 2 "c@x" "b@x" "New" None "B" "m2"]) /\
  filter (fun e => String.eqb (em_email_id e) "m1")
    [mkemail 1 "a@x" "b@x" "Hi" None "Body" "m1"; mkemail 2 "c@x" "b@x" "New" None "B" "m2"]
    = filter (fun e => String.eqb (em_email_id e) "m1") st /\
  save_pdf_document (mkpdfdata "inv.pdf" "Total" "p.pdf") [mkpdf 4 "inv.pdf" "Total" "p.pdf"]
    = (Some (mkpdf 4 "inv.pdf" "Total" "p.pdf"), [mkpdf 4 "inv.pdf" "Total" "p.pdf"]) /\
  List.length (snd (save_chat_messages [Chat.mkmsg (DT.mkdt 2024 1 3 9 15 0 0) "Bob" "Reply" "c.txt"]
                      (snd (save_chat_messages [Chat.mkmsg (DT.mkdt 2024 1 3 9 15 0 0) "Bob" "Reply" "c.txt"] []))))
    = 2.
Proof.
  intros st batch.
  destruct save_idempotence as [PE [PP PC]].
  assert (Hs : save_emails batch st
    = Some ([mkemail 1 "a@x" "b@x" "Hi" None "Body" "m1"; mkemail 2 "c@x" "b@x" "New" None "B" "m2"],
            [mkemail 1 "a@x" "b@x" "Hi" None "Body" "m1"; mkemail 2 "c@x" "b@x" "New" None "B" "m2"]))
    by reflexivity.
  split; [exact Hs|]. split.
  - exact (proj1 (proj2 (PE _ _ _ _ Hs)) "m1" eq_refl).
  - split; [exact (PP (mkpdfdata "inv.pdf" "Total" "p.pdf") [mkpdf 4 "inv.pdf" "Total" "p.pdf"]
                      (mkpdf 4 "inv.pdf" "Total" "p.pdf") eq_refl)|].
    destruct (PC [Chat.mkmsg (DT.mkdt 2024 1 3 9 15 0 0) "Bob" "Reply" "c.txt"] []) as [H _].
    rewrite H. reflexivity.
Defined.

End IngestProps.

Module UploadProps.

Import Json PyVal Ingest Uploads.

(** C10: for a [.txt] name, the [file_path] filter passed by the status
    endpoint selects the same rows as no filter at all, and the endpoint
    answers "completed" with the number of all chat rows when the table has
    any row, "processing" when it has none, whatever file the rows came
    from. *)
Theorem status_ignores_file_path (upload_dir filename : string) (chats : list chat_row)
  (pdfs : list pdf_row) (Htxt : PyStr.endswith filename ".txt" = true) :
  (forall p, get_chat_messages chats [("file_path", FStr p)] = get_chat_messages chats []) /\
  check_upload_status upload_dir filename chats pdfs =
    match chats with
    | [] => still_processing filename
    | _ => Ok (JObj [("filename", JStr filename); ("status", JStr "completed");
                     ("message", JStr ("Chat log processed with " ++ string_of_nat (List.length chats)
                                       ++ " messages extracted"));
                     ("count", JInt (Z.of_nat (List.length chats)))])
    end.
Proof.
  assert (Hf : forall p, get_chat_messages chats [("file_path", FStr p)] = get_chat_messages chats [])
    by reflexivity.
  split; [exact Hf|].
  unfold check_upload_status. rewrite Htxt, Hf.
  change (get_chat_messages chats [])
    with (Some (isort (fun x y => opt_dt_le (cl_date_time x) (cl_date_time y)) chats)).
  destruct chats as [|c t]; [reflexivity|].
  destruct (isort (fun x y => opt_dt_le (cl_date_time x) (cl_date_time y)) (c :: t)) as [|r rs] eqn:E.
  - apply (f_equal (@List.length chat_row)) in E. rewrite SortProps.isort_length in E. discriminate.
  - rewrite <- E, SortProps.isort_length. reflexivity.
Qed.

(** C10, witness: the only chat row comes from another file, yet the
    status of "report.txt" is "completed" with one message. *)
Lemma status_ignores_file_path_witness :
  check_upload_status "./uploads" "report.txt"
    [mkchat 1 (Some (DT.mkdt 2024 1 3 9 15 0 0)) "Bob" "Reply" "./uploads/chats/other_0a1b2c3d.txt"] []
  = Ok (JObj [("filename", JStr "report.txt"); ("status", JStr "completed");
              ("message", JStr "Chat log processed with 1 messages extracted");
              ("count", JInt 1%Z)]).
Proof.
  rewrite (proj2 (status_ignores_file_path "./uploads" "report.txt"
    [mkchat 1 (Some (DT.mkdt 2024 1 3 9 15 0 0)) "Bob" "Reply" "./uploads/chats/other_0a1b2c3d.txt"] []
    eq_refl)).
  reflexivity.
Defined.

(** C6: an upload whose name lacks the accepted extension writes no file
    and schedules no task, but the [HTTPException(400)] raised inside the
    [try] is caught by [except Exception] and re-raised as a server error:
    the answer has status 500 (not a 4xx), with detail "400: ...". *)
Theorem upload_bad_extension_500 (upload_dir filename contents hex : string) (st : upload_state) :
  (PyStr.endswith filename ".txt" = false ->
   upload_chat_log upload_dir filename contents hex st
   = (st, HttpErr 500 "400: Only .txt files are accepted for chat logs")) /\
  (PyStr.endswith filename ".pdf" = false ->
   upload_pdf upload_dir filename contents hex st
   = (st, HttpErr 500 "400: Only .pdf files are accepted for invoices")).
Proof.
  split; intros H; [unfold upload_chat_log|unfold upload_pdf]; rewrite H; reflexivity.
Qed.

(** C6, witness: "notes.docx" sent to [/upload/chat] and to [/upload/pdf]. *)
Lemma upload_bad_extension_500_witness :
  upload_chat_log "./uploads" "notes.docx" "hello" "0a1b2c3d" (mkup [] [])
    = (mkup [] [], HttpErr 500 "400: Only .txt files are accepted for chat logs") /\
  upload_pdf "./uploads" "notes.docx" "hello" "0a1b2c3d" (mkup [] [])
    = (mkup [] [], HttpErr 500 "400: Only .pdf files are accepted for invoices").
Proof.
  destruct (upload_bad_extension_500 "./uploads" "notes.docx" "hello" "0a1b2c3d" (mkup [] [])) as [H1 H2].
  split; [exact (H1 eq_refl)|exact (H2 eq_refl)].
Defined.

End UploadProps.

(* ------------------------------------------------------------------ *)
(** ** Further properties of the routes and services *)

Module RouteProps.

Import Json PyVal Store Ingest Uploads Aggregate Routes.

Lemma find_none_existsb {A} (f : A -> bool) (l : list A) :
  find f l = None <-> existsb f l = false.
Proof.
  induction l as [|y t IH]; cbn; [tauto|].
  destruct (f y); cbn; [split; discriminate|exact IH].
Qed.

Lemma has_timeline_find_none tid st :
  has_timeline tid st = false -> find (fun t => tl_id t =? tid) (timelines st) = None.
Proof. intros H. now apply find_none_existsb. Qed.

(** X1: [DELETE /timeline/{id}] on a missing id answers 404 and changes
    nothing; on a stored id it answers with a success message, removes that
    timeline and exactly its events, and keeps every report, including the
    reports made from it. *)
Theorem delete_timeline_cascade (tid : nat) (st : db) :
  (has_timeline tid st = false ->
   delete_timeline tid st = (st, HttpErr 404 ("Timeline with ID " ++ string_of_nat tid ++ " not found"))) /\
  (has_timeline tid st = true ->
   let (st', r) := delete_timeline tid st in
   r = Ok (JObj [("message", JStr ("Timeline with ID " ++ string_of_nat tid ++ " deleted successfully"))])
   /\ (forall t, In t (timelines st') <-> In t (timelines st) /\ tl_id t <> tid)
   /\ (forall e, In e (timeline_events st') <-> In e (timeline_events st) /\ ev_timeline_id e <> tid)
   /\ reports st' = reports st).
Proof.
  unfold delete_timeline. split; intros H; rewrite H; [reflexivity|].
  cbn. split; [reflexivity|]. split; [|split; [|reflexivity]]; intros x;
  rewrite filter_In, negb_true_iff, Nat.eqb_neq; tauto.
Qed.

(** Two timelines with one event each, and a report made from the first. *)
Definition sample_db : db :=
  mkdb [mktl 1 "Timeline of Contract Dispute" (JStr "Overview"); mktl 2 "Invoices" (JStr "Overview")]
       [mkev 1 (Some (DT.mkdt 2024 3 5 9 0 0 0)) (JStr "Call") (JStr "") "email" 12;
        mkev 2 (Some (DT.mkdt 2024 4 1 9 0 0 0)) (JStr "Invoice") (JStr "") "pdf" 3]
       [mkrep 1 "Legal Report" "Report text" 1].

(** X1, witness: deleting timeline 5, which does not exist, and timeline 1 of [sample_db]. *)
Lemma delete_timeline_cascade_witness :
  delete_timeline 5 sample_db = (sample_db, HttpErr 404 "Timeline with ID 5 not found") /\
  let (st', r) := delete_timeline 1 sample_db in
  r = Ok (JObj [("message", JStr ("Timeline with ID " ++ string_of_nat 1 ++ " deleted successfully"))])
  /\ (forall t, In t (timelines st') <-> In t (timelines sample_db) /\ tl_id t <> 1)
  /\ (forall e, In e (timeline_events st') <-> In e (timeline_events sample_db) /\ ev_timeline_id e <> 1)
  /\ reports st' = reports sample_db.
Proof.
  destruct (delete_timeline_cascade 5 sample_db) as [H5 _].
  destruct (delete_timeline_cascade 1 sample_db) as [_ H1].
  split; [exact (H5 eq_refl)|exact (H1 eq_refl)].
Defined.

(** X2: [DELETE /report/{id}] on a missing id answers 404 and changes
    nothing; on a stored id it answers with a success message, removes
    exactly that report and leaves timelines and events alone. *)
Theorem delete_report_spec (rid : nat) (st : db) :
  (has_report rid st = false ->
   delete_report rid st = (st, HttpErr 404 ("Report with ID " ++ string_of_nat rid ++ " not found"))) /\
  (has_report rid st = true ->
   let (st', r) := delete_report rid st in
   r = Ok (JObj [("message", JStr ("Report with ID " ++ string_of_nat rid ++ " deleted successfully"))])
   /\ (forall x, In x (reports st') <-> In x (reports st) /\ rp_id x <> rid)
   /\ timelines st' = timelines st /\ timeline_events st' = timeline_events st).
Proof.
  unfold delete_report. split; intros H; rewrite H; [reflexivity|].
  cbn. split; [reflexivity|]. split; [|split; reflexivity]; intros x.
  rewrite filter_In, negb_true_iff, Nat.eqb_neq; tauto.
Qed.

(** X2, witness: deleting report 4, which does not exist, and report 1 of [sample_db]. *)
Lemma delete_report_spec_witness :
  delete_report 4 sample_db = (sample_db, HttpErr 404 "Report with ID 4 not found") /\
  let (st', r) := delete_report 1 sample_db in
  r = Ok (JObj [("message", JStr ("Report with ID " ++ string_of_nat 1 ++ " deleted successfully"))])
  /\ (forall x, In x (reports st') <-> In x (reports sample_db) /\ rp_id x <> 1)
  /\ timelines st' = timelines sample_db /\ timeline_events st' = timeline_events sample_db.
Proof.
  destruct (delete_report_spec 4 sample_db) as [H4 _].
  destruct (delete_report_spec 1 sample_db) as [_ H1].
  split; [exact (H4 eq_refl)|exact (H1 eq_refl)].
Defined.


Lemma find_filter_out {A} (f : A -> bool) (l : list A) :
  find f (filter (fun x => negb (f x)) l) = None.
Proof.
  induction l as [|x t IH]; cbn; [reflexivity|].
  destruct (f x) eqn:E; cbn; [exact IH|now rewrite E].
Qed.

Lemma has_timeline_delete tid st : has_timeline tid (fst (delete_timeline tid st)) = false.
Proof.
  unfold delete_timeline. destruct (has_timeline tid st) eqn:H; [|exact H].
  unfold has_timeline; cbn. apply find_none_existsb, find_filter_out.
Qed.

(** X3: once a timeline is deleted, [GET /timeline/{id}] answers 404, a
    new report request for it answers 404 and changes nothing, and every
    report reads back as before the deletion. *)
Theorem delete_timeline_then_gone (vr : event_row -> string) (cr : nat -> DT.datetime)
    (tid : nat) (title : string) (st : db) :
  let st' := fst (delete_timeline tid st) in
  get_timeline vr tid st' = TimelineErr 404 ("Timeline with ID " ++ string_of_nat tid ++ " not found")
  /\ report_request tid title st' = (st', HttpError 404 ("Timeline with ID " ++ string_of_nat tid ++ " not found"))
  /\ (forall rid, get_report cr rid st' = get_report cr rid st).
Proof.
  intros st'. pose proof (has_timeline_delete tid st) as Hd. fold st' in Hd.
  split; [|split].
  - unfold get_timeline. rewrite (has_timeline_find_none tid st' Hd). reflexivity.
  - unfold report_request. rewrite Hd. reflexivity.
  - intros rid. unfold st', delete_timeline. destruct (has_timeline tid st); reflexivity.
Qed.

Lemma dict_get_has (kvs : list (string * json)) (k : string) (v : json) :
  dict_get kvs k = Some v -> dict_has kvs k = true.
Proof.
  unfold dict_get, dict_has.
  assert (G : forall acc, fold_left (fun acc kv => if String.eqb (fst kv) k then Some (snd kv) else acc) kvs acc = Some v ->
                          acc = Some v \/ existsb (fun kv => String.eqb (fst kv) k) kvs = true).
  { induction kvs as [|[k' v'] t IH]; cbn; intros acc H; [now left|].
    destruct (String.eqb k' k); [now right|]. exact (IH acc H). }
  intros H. destruct (G None H) as [D|D]; [discriminate|exact D].
Qed.

Lemma events_of_in tid st e : In e (events_of tid st) <-> In e (timeline_events st) /\ ev_timeline_id e = tid.
Proof.
  unfold events_of. split.
  - intros H. apply (Permutation_in _ (SortProps.isort_perm _ _)) in H.
    apply filter_In in H as [H1 H2]. split; [exact H1|]. now apply Nat.eqb_eq.
  - intros [H1 H2]. apply (Permutation_in _ (Permutation_sym (SortProps.isort_perm _ _))).
    apply filter_In. split; [exact H1|]. now apply Nat.eqb_eq.
Qed.

Lemma find_some_exists {A} (f : A -> bool) (l : list A) (x : A) :
  In x l -> f x = true -> exists y, find f l = Some y.
Proof.
  intros Hin Hx. destruct (find f l) as [y|] eqn:E; [eauto|].
  apply find_none_existsb in E. apply not_true_iff_false in E. exfalso. apply E.
  apply existsb_exists. eauto.
Qed.

Lemma opt_dt_le_total (a b : option DT.datetime) : opt_dt_le a b = false -> opt_dt_le b a = true.
Proof.
  destruct a as [x|], b as [y|]; cbn; try congruence.
  unfold dt_le. rewrite (IsoProps.dt_compare_antisym y x).
  destruct (dt_compare x y); cbn; congruence.
Qed.

(** An event of the timeline that [TimelineEventResponse] refuses makes
    [get_timeline] answer 500. *)
Lemma timeline_invalid_500 (vr : event_row -> string) (tid : nat) (st : db) (t : timeline_row)
    (Ht : find (fun t => tl_id t =? tid) (timelines st) = Some t) :
  (exists e, In e (timeline_events st) /\ ev_timeline_id e = tid /\ event_valid e = false) ->
  exists m, get_timeline vr tid st = TimelineErr 500 m.
Proof.
  unfold get_timeline. rewrite Ht. intros [e [He [Hid Hv]]].
  destruct (find_some_exists (fun e => negb (event_valid e)) (events_of tid st) e) as [b Hb].
  - now apply events_of_in.
  - now rewrite Hv.
  - rewrite Hb. eauto.
Qed.

(** X6: for a stored timeline, [GET /timeline/{id}] answers 500 as soon
    as one of its events is undated or has a [NULL] title; otherwise it
    answers with exactly the events of that timeline, ordered by date, all
    dated. *)
Theorem get_timeline_events (vr : event_row -> string) (tid : nat) (st : db) (t : timeline_row)
    (Ht : find (fun t => tl_id t =? tid) (timelines st) = Some t) :
  ((exists e, In e (timeline_events st) /\ ev_timeline_id e = tid /\ event_valid e = false) ->
   exists m, get_timeline vr tid st = TimelineErr 500 m)
  /\
  ((forall e, In e (timeline_events st) -> ev_timeline_id e = tid -> event_valid e = true) ->
   exists evs, get_timeline vr tid st = TimelineFound t evs
     /\ (forall e, In e evs <-> In e (timeline_events st) /\ ev_timeline_id e = tid)
     /\ Sorted (fun x y => opt_dt_le (ev_date x) (ev_date y) = true) evs
     /\ Forall (fun e => ev_date e <> None) evs).
Proof.
  split; [exact (timeline_invalid_500 vr tid st t Ht)|].
  unfold get_timeline. rewrite Ht.
  intros Hall. destruct (find _ (events_of tid st)) as [b|] eqn:Hb.
  - apply find_some in Hb as [Hin Hv]. apply events_of_in in Hin as [H1 H2].
    rewrite (Hall b H1 H2) in Hv. discriminate.
  - exists (events_of tid st). split; [reflexivity|]. split; [apply events_of_in|].
    split; [apply SortProps.isort_sorted; intros x y; apply opt_dt_le_total|].
    apply Forall_forall. intros e He. apply events_of_in in He as [H1 H2].
    specialize (Hall e H1 H2). unfold event_valid in Hall. destruct (ev_date e); congruence.
Qed.

(** X6, witness: timeline 1 of [sample_db], whose only event is dated and titled. *)
Lemma get_timeline_events_witness :
  find (fun t => tl_id t =? 1) (timelines sample_db) = Some (mktl 1 "Timeline of Contract Dispute" (JStr "Overview")) /\
  exists evs, get_timeline (fun _ => "") 1 sample_db
                = TimelineFound (mktl 1 "Timeline of Contract Dispute" (JStr "Overview")) evs
     /\ (forall e, In e evs <-> In e (timeline_events sample_db) /\ ev_timeline_id e = 1)
     /\ Sorted (fun x y => opt_dt_le (ev_date x) (ev_date y) = true) evs
     /\ Forall (fun e => ev_date e <> None) evs.
Proof.
  split; [reflexivity|].
  destruct (get_timeline_events (fun _ => "") 1 sample_db _ eq_refl) as [_ H].
  apply H. intros e He Hid. destruct He as [<-|[<-|[]]]; [reflexivity|discriminate].
Defined.

End RouteProps.

Module ReportSourceProps.
Import Json PyVal Store Ingest Uploads Aggregate Routes SourceSpec.

Lemma chars_app (a b : string) : PyStr.chars (a ++ b) = PyStr.chars a ++ PyStr.chars b.
Proof. induction a as [|c a IH]; cbn; [reflexivity|]. unfold PyStr.chars in *. now rewrite IH. Qed.

Lemma of_chars_chars (s : string) : PyStr.of_chars (PyStr.chars s) = s.
Proof. apply string_of_list_ascii_of_string. Qed.

Lemma digit_char (k : nat) : k < 10 -> nat_of_ascii (ascii_of_nat (48 + k)) = 48 + k.
Proof. intros H. apply nat_ascii_embedding. lia. Qed.

Lemma nat_digits_app (f n : nat) :
  nat_digits (S f) n = if n <? 10 then [ascii_of_nat (48 + n)]
                       else nat_digits f (n / 10) ++ [ascii_of_nat (48 + n mod 10)].
Proof. reflexivity. Qed.

Lemma nat_of_digits_acc_app (acc : nat) (l : list ascii) (c : ascii) :
  PyStr.nat_of_digits_acc acc (l ++ [c]) = PyStr.nat_of_digits_acc acc l * 10 + PyStr.digit_value c.
Proof. revert acc. induction l as [|d t IH]; intros acc; cbn; [reflexivity|]. apply IH. Qed.

Lemma digit_value_char (k : nat) : k < 10 -> PyStr.digit_value (ascii_of_nat (48 + k)) = k.
Proof. intros H. unfold PyStr.digit_value, PyStr.code. rewrite digit_char by exact H. lia. Qed.

Lemma isdecimal_char (k : nat) : k < 10 -> PyStr.isdecimal (ascii_of_nat (48 + k)) = true.
Proof.
  intros H. unfold PyStr.isdecimal, PyStr.code. rewrite digit_char by exact H.
  apply andb_true_iff; split; apply Nat.leb_le; lia.
Qed.

(** The digits [str] writes: a non-empty run of 0-9 with the value [n]. *)
Lemma nat_digits_spec (f n : nat) :
  n < 10 ^ S f ->
  ascii_digits (nat_digits (S f) n) = true /\ PyStr.nat_of_digits (nat_digits (S f) n) = n.
Proof.
  revert n. induction f as [|f IH]; intros n Hn.
  - rewrite nat_digits_app. replace (n <? 10) with true by (symmetry; apply Nat.ltb_lt; cbn in Hn; lia).
    cbn in Hn. split.
    + change (PyStr.isdecimal (ascii_of_nat (48 + n)) && true = true).
      now rewrite isdecimal_char by lia.
    + unfold PyStr.nat_of_digits.
      change (0 * 10 + PyStr.digit_value (ascii_of_nat (48 + n)) = n).
      rewrite digit_value_char by lia. reflexivity.
  - rewrite nat_digits_app. destruct (n <? 10) eqn:E.
    + apply Nat.ltb_lt in E. split.
      * change (PyStr.isdecimal (ascii_of_nat (48 + n)) && true = true).
        now rewrite isdecimal_char by lia.
      * unfold PyStr.nat_of_digits.
        change (0 * 10 + PyStr.digit_value (ascii_of_nat (48 + n)) = n).
        rewrite digit_value_char by lia. reflexivity.
    + apply Nat.ltb_ge in E.
      assert (Hd : n / 10 < 10 ^ S f).
      { apply Nat.Div0.div_lt_upper_bound. change (10 ^ S (S f)) with (10 * 10 ^ S f) in Hn. lia. }
      destruct (IH (n / 10) Hd) as [A B].
      assert (Hm : n mod 10 < 10) by (apply Nat.mod_upper_bound; lia).
      split.
      * destruct (nat_digits (S f) (n / 10)) as [|c t] eqn:Ed; [discriminate|].
        unfold ascii_digits in A |- *.
        change (forallb PyStr.isdecimal ((c :: t) ++ [ascii_of_nat (48 + n mod 10)]) = true).
        rewrite forallb_app, A. change (PyStr.isdecimal (ascii_of_nat (48 + n mod 10)) && true = true).
        now rewrite isdecimal_char by exact Hm.
      * unfold PyStr.nat_of_digits in *. rewrite nat_of_digits_acc_app, B, digit_value_char by exact Hm.
        pose proof (Nat.div_mod_eq n 10). lia.
Qed.

Lemma string_of_nat_spec (n : nat) :
  ascii_digits (PyStr.chars (string_of_nat n)) = true
  /\ PyStr.nat_of_digits (PyStr.chars (string_of_nat n)) = n.
Proof.
  unfold string_of_nat. rewrite EventProps.chars_of_chars. apply nat_digits_spec.
  induction n as [|n IH]; cbn [Nat.pow] in *; [lia|]. 
  assert (1 <= 10 ^ S n) by (apply Nat.le_succ_l, Nat.neq_0_lt_0, Nat.pow_nonzero; lia). lia.
Qed.

Lemma decimal_no_colon (l : list ascii) : forallb PyStr.isdecimal l = true -> existsb is_colon l = false.
Proof.
  induction l as [|c t IH]; cbn; [reflexivity|]. intros H. apply andb_true_iff in H as [H1 H2].
  rewrite (IH H2). destruct (is_colon c) eqn:E; [|reflexivity].
  unfold is_colon, Json.is_char in E. destruct (ascii_dec c ":"); [subst; discriminate|discriminate].
Qed.

Lemma split_l_colon_app (l1 l2 : list ascii) :
  existsb is_colon l1 = false -> PyStr.split_l ":" (l1 ++ ":"%char :: l2) = l1 :: PyStr.split_l ":" l2.
Proof.
  induction l1 as [|c t IH]; cbn; intros H; [reflexivity|].
  apply orb_false_iff in H as [H1 H2]. rewrite (IH H2).
  destruct (ascii_dec c ":"); [subst; discriminate|reflexivity].
Qed.

Lemma digits_no_other (l : list ascii) : forallb PyStr.isdecimal l = true -> no_other_digits l = true.
Proof.
  unfold no_other_digits. induction l as [|c t IH]; cbn; [reflexivity|]. intros H.
  apply andb_true_iff in H as [H1 H2]. rewrite H1, (IH H2). now destruct (PyStr.isdigit_char c).
Qed.

Lemma nat_of_digits_acc_bound (l : list ascii) : forall acc,
  forallb PyStr.isdecimal l = true ->
  PyStr.nat_of_digits_acc acc l < S acc * 10 ^ List.length l.
Proof.
  induction l as [|c t IH]; intros acc H; cbn [PyStr.nat_of_digits_acc List.length].
  - rewrite Nat.pow_0_r. lia.
  - apply andb_true_iff in H as [H1 H2].
    assert (Hc : PyStr.digit_value c <= 9).
    { unfold PyStr.isdecimal, PyStr.digit_value, PyStr.code in *.
      apply andb_true_iff in H1 as [_ H1]. apply Nat.leb_le in H1. lia. }
    specialize (IH (acc * 10 + PyStr.digit_value c) H2).
    rewrite Nat.pow_succ_r'. eapply Nat.lt_le_trans; [exact IH|].
    rewrite Nat.mul_assoc. apply Nat.mul_le_mono_r. lia.
Qed.

Lemma nat_of_digits_bound (l : list ascii) :
  forallb PyStr.isdecimal l = true -> PyStr.nat_of_digits l < 10 ^ List.length l.
Proof.
  intros H. pose proof (nat_of_digits_acc_bound l 0 H) as B. unfold PyStr.nat_of_digits. lia.
Qed.

(** [str(n)] has at most [k] digits when [n < 10 ^ k]. *)
Lemma nat_digits_length (f : nat) : forall n k,
  1 <= k -> n < 10 ^ k -> List.length (nat_digits f n) <= k.
Proof.
  induction f as [|f IH]; intros n k Hk Hn; cbn [nat_digits]; [cbn; lia|].
  destruct (n <? 10) eqn:E; [cbn; lia|].
  apply Nat.ltb_ge in E.
  destruct k as [|k]; [lia|].
  destruct k as [|k]; [cbn in Hn; lia|].
  rewrite length_app. cbn [List.length].
  assert (Hd : n / 10 < 10 ^ S k).
  { apply Nat.Div0.div_lt_upper_bound. rewrite <- Nat.pow_succ_r'. exact Hn. }
  specialize (IH (n / 10) (S k) ltac:(lia) Hd). lia.
Qed.

(** The digits [int] reads once the underscores are dropped. *)
Lemma digits_underscored_decimal (n : nat) : forall l, List.length l <= n ->
  PyStr.digits_underscored l = true ->
  forallb PyStr.isdecimal (filter (fun c => if ascii_dec c "_" then false else true) l) = true.
Proof.
  induction n as [|n IH]; intros l Hl H.
  - destruct l; [discriminate|cbn in Hl; lia].
  - destruct l as [|c t]; [discriminate|].
    assert (Hc' : PyStr.isdecimal c = true -> (if ascii_dec c "_" then false else true) = true).
    { intros D. destruct (ascii_dec c "_") as [->|_]; [discriminate|reflexivity]. }
    destruct t as [|d r].
    + cbn [PyStr.digits_underscored] in H. cbn [filter]. rewrite (Hc' H). cbn. now rewrite H.
    + revert H. cbn [PyStr.digits_underscored]. intros H.
      apply andb_true_iff in H as [Hc H].
      cbn [filter]. rewrite (Hc' Hc). cbn [forallb]. rewrite Hc. cbn [andb].
      revert H. destruct (ascii_dec d "_") as [->|Hd]; intros H.
      * destruct r as [|e u]; [discriminate|]. apply andb_true_iff in H as [_ H].
        specialize (IH (e :: u) ltac:(cbn in Hl |- *; lia) H).
        cbn [filter] in IH |- *. destruct (ascii_dec "_" "_") as [_|C]; [exact IH|congruence].
      * pose proof (IH (d :: r) ltac:(cbn in Hl |- *; lia) H) as G.
        cbn [filter] in G. destruct (ascii_dec d "_"); [congruence|exact G].
Qed.

(** What [int] returns has at most [max_str_digits] digits. *)
Lemma py_int_bound (s : string) (z : Z) :
  PyStr.py_int s = Some z -> Z.to_nat z < 10 ^ PyStr.max_str_digits.
Proof.
  unfold PyStr.py_int. intros H. cbv zeta in H.
  match type of H with context [PyStr.digits_underscored (snd ?M)] => remember M as sb eqn:Esb end.
  assert (Hs : (fst sb = 1 \/ fst sb = -1)%Z).
  { subst sb. destruct (PyStr.strip_l (PyStr.chars s)) as [|c t]; [now left|].
    destruct (ascii_dec c "-"); [now right|]. destruct (ascii_dec c "+"); now left. }
  clear Esb. revert H.
  destruct (PyStr.digits_underscored (snd sb)) eqn:Hdu; [|discriminate].
  set (ds := filter (fun c => if ascii_dec c "_" then false else true) (snd sb)).
  destruct (PyStr.max_str_digits <? List.length ds) eqn:Hlt; [discriminate|].
  intros H. injection H as <-. apply Nat.ltb_ge in Hlt.
  pose proof (nat_of_digits_bound ds (digits_underscored_decimal _ _ (le_n _) Hdu)) as Hb.
  assert (Hp : 10 ^ List.length ds <= 10 ^ PyStr.max_str_digits)
    by (apply Nat.pow_le_mono_r; [discriminate|exact Hlt]).
  destruct Hs as [E|E]; rewrite E.
  - rewrite Z.mul_1_l, Nat2Z.id. lia.
  - replace (Z.to_nat (-1 * Z.of_nat (PyStr.nat_of_digits ds))) with 0 by lia.
    apply Nat.neq_0_lt_0, Nat.pow_nonzero. discriminate.
Qed.

(** Parsing [f"{t}:{n}"] back as the events loop does. *)
Lemma source_parse_back (t : string) (n : nat) :
  existsb is_colon (PyStr.chars t) = false -> n < 10 ^ PyStr.max_str_digits ->
  source_type_of (t ++ ":" ++ string_of_nat n) = t
  /\ source_id_of (t ++ ":" ++ string_of_nat n) = Some (Z.of_nat n).
Proof.
  intros Ht Hn. destruct (string_of_nat_spec n) as [D V].
  assert (Hlen : List.length (PyStr.chars (string_of_nat n)) <= PyStr.max_str_digits).
  { unfold string_of_nat. rewrite EventProps.chars_of_chars.
    apply nat_digits_length; [unfold PyStr.max_str_digits; lia|exact Hn]. }
  set (ds := PyStr.chars (string_of_nat n)) in *.
  assert (Hds : forallb PyStr.isdecimal ds = true) by (destruct ds; [discriminate|exact D]).
  assert (Hc : PyStr.chars (t ++ ":" ++ string_of_nat n) = PyStr.chars t ++ ":"%char :: ds)
    by (rewrite chars_app; reflexivity).
  assert (Hsplit : PyStr.split ":" (t ++ ":" ++ string_of_nat n) = [t; string_of_nat n]).
  { unfold PyStr.split. rewrite Hc, split_l_colon_app by exact Ht.
    rewrite EventProps.split_l_single by (apply decimal_no_colon; exact Hds).
    cbn. unfold ds. now rewrite !of_chars_chars. }
  assert (Hcon : PyStr.contains (t ++ ":" ++ string_of_nat n) ":" = true).
  { rewrite EventProps.contains_colon, Hc, existsb_app. cbn. now rewrite orb_true_r. }
  unfold source_type_of, source_id_of. rewrite Hcon, Hsplit. cbn [hd last andb]. split; [reflexivity|].
  rewrite <- (of_chars_chars (string_of_nat n)). fold ds.
  rewrite (EventProps.isdigit_ascii ds (digits_no_other ds Hds)), D.
  rewrite (EventProps.py_int_digits ds D Hlen), V. reflexivity.
Qed.

Lemma lstrip_in (c : ascii) (l : list ascii) : In c (PyStr.lstrip_l l) -> In c l.
Proof.
  induction l as [|d t IH]; cbn; [auto|].
  destruct (PyStr.isspace d); [intros H; right; exact (IH H)|auto].
Qed.

Lemma strip_in (c : ascii) (l : list ascii) : In c (PyStr.strip_l l) -> In c l.
Proof.
  unfold PyStr.strip_l. intros H. apply in_rev, lstrip_in, in_rev, lstrip_in in H. exact H.
Qed.

Lemma py_int_isdigit_nonneg (s : string) (z : Z) :
  PyStr.isdigit s = true -> PyStr.py_int s = Some z -> (0 <= z)%Z.
Proof.
  unfold PyStr.isdigit, PyStr.py_int. intros Hd Hp.
  assert (Hall : forall c, In c (PyStr.chars s) -> PyStr.isdigit_char c = true).
  { intros c Hc. destruct (PyStr.chars s) as [|d t]; [discriminate|].
    apply forallb_forall with (x := c) in Hd; assumption. }
  destruct (PyStr.strip_l (PyStr.chars s)) as [|c t] eqn:E.
  - destruct (PyStr.digits_underscored _); [|discriminate].
    destruct (_ <? _); [discriminate|]. injection Hp as <-. lia.
  - assert (Hc : PyStr.isdigit_char c = true) by (apply Hall, (strip_in c); rewrite E; now left).
    destruct (ascii_dec c "-") as [->|_]; [discriminate|].
    destruct (ascii_dec c "+") as [->|_]; [discriminate|].
    destruct (PyStr.digits_underscored _); [|discriminate].
    destruct (_ <? _); [discriminate|]. injection Hp as <-. match goal with |- context [Z.of_nat ?n] => pose proof (Nat2Z.is_nonneg n); destruct (Z.of_nat n) end; lia.
Qed.

Lemma before_first_colon_none (l : list ascii) : existsb is_colon (before_first_colon l) = false.
Proof.
  induction l as [|c t IH]; cbn; [reflexivity|].
  destruct (is_colon c) eqn:E; cbn; [reflexivity|]. now rewrite E, IH.
Qed.

(** What the events loop stores as a source: a type without a colon and
    an identifier that is not negative, of at most [max_str_digits]
    digits. *)
Lemma make_event_source pd tid ev r :
  make_event pd tid ev = Some r ->
  existsb is_colon (PyStr.chars (ev_source_type r)) = false /\ (0 <= ev_source_id r)%Z
  /\ Z.to_nat (ev_source_id r) < 10 ^ PyStr.max_str_digits.
Proof.
  remember (10 ^ PyStr.max_str_digits) as B eqn:EB.
  assert (HB : 0 < B) by (subst B; apply Nat.neq_0_lt_0, Nat.pow_nonzero; discriminate).
  unfold make_event. destruct ev as [| | | | | |kvs]; try discriminate.
  destruct (py_in ":" (get_or kvs "source" (JStr EmptyString))) as [[|]|];
    [|intros H; injection H as <-; cbn; split; [reflexivity|split; lia]|discriminate].
  destruct (get_or kvs "source" (JStr EmptyString)) as [| | | | src | |]; try discriminate.
  destruct (source_id_of src) as [id|] eqn:Hid; [|discriminate]. intros H; injection H as <-. cbn.
  split; [|split].
  - unfold source_type_of. destruct (PyStr.contains src ":"); [|reflexivity].
    rewrite EventProps.split_colon_head, EventProps.chars_of_chars. apply before_first_colon_none.
  - unfold source_id_of in Hid.
    destruct (PyStr.contains src ":" && PyStr.isdigit (last (PyStr.split ":" src) EmptyString)) eqn:E.
    + apply andb_true_iff in E as [_ E]. exact (py_int_isdigit_nonneg _ _ E Hid).
    + injection Hid as <-. lia.
  - unfold source_id_of in Hid. subst B.
    destruct (PyStr.contains src ":" && PyStr.isdigit (last (PyStr.split ":" src) EmptyString)).
    + exact (py_int_bound _ _ Hid).
    + injection Hid as <-. apply Nat.neq_0_lt_0, Nat.pow_nonzero. discriminate.
Qed.

Lemma z_str_nonneg (z : Z) : (0 <= z)%Z -> z_str z = string_of_nat (Z.to_nat z).
Proof. intros H. unfold z_str. replace (z <? 0)%Z with false by (symmetry; apply Z.ltb_ge; lia). reflexivity. Qed.

(** X8: the [source] string the report task builds for an event stored by
    the timeline task parses back, by the timeline task's own rules, to the
    event's [source_type] and [source_id]. *)
Theorem report_source_roundtrip (pd : json -> option DT.datetime) (rt : string -> string)
    (tid : nat) (ev : json) (r : event_row) (Hm : make_event pd tid ev = Some r) :
  exists src, get (report_event rt r) "source" = JStr src
    /\ source_type_of src = ev_source_type r /\ source_id_of src = Some (ev_source_id r).
Proof.
  destruct (make_event_source pd tid ev r Hm) as [Ht [Hz Hb]].
  exists (ev_source_type r ++ ":" ++ z_str (ev_source_id r))%string. split; [reflexivity|].
  rewrite z_str_nonneg by exact Hz.
  destruct (source_parse_back (ev_source_type r) (Z.to_nat (ev_source_id r)) Ht Hb) as [A B].
  rewrite A, B, Z2Nat.id by exact Hz. split; reflexivity.
Qed.

(** X8, witness: an event with source "email:12". *)
Lemma report_source_roundtrip_witness :
  exists r, make_event (fun _ => None) 1 (JObj [("title", JStr "Call"); ("source", JStr "email:12")]) = Some r /\
  exists src, get (report_event (fun s => s) r) "source" = JStr src
    /\ source_type_of src = ev_source_type r /\ source_id_of src = Some (ev_source_id r).
Proof.
  eexists. split; [reflexivity|].
  exact (report_source_roundtrip (fun _ => None) (fun s => s) 1
           (JObj [("title", JStr "Call"); ("source", JStr "email:12")]) _ eq_refl).
Defined.

End ReportSourceProps.

Module FilterProps.
Import Regex RegexProps Json PyVal Ingest Aggregate Routes.

(** [k] is not the number of a group of [r]. *)
Fixpoint grp_free (k : nat) (r : regex) : bool :=
  match r with
  | RClass _ | REndAnchor | REmpty => true
  | RSeq a b | RAlt a b => grp_free k a && grp_free k b
  | RRepeat a _ _ _ | RLookahead a => grp_free k a
  | RGroup j a => negb (j =? k) && grp_free k a
  end.

(** A match leaves the captures of the other groups as they were. *)
Lemma rmatch_caps (k n : nat) : forall r s c st,
  grp_free k r = true -> In st (rmatch n r s c) -> group (snd st) k = group c k.
Proof.
  induction n as [|n IHn]; intro r;
    induction r as [p|r1 IH1 r2 IH2|r1 IH1 r2 IH2|r1 IH1 lo hi g|j r1 IH1|r1 IH1| |];
    intros s c st Hf Hin; cbn [grp_free] in Hf.
  all: try (rewrite rmatch_class in Hin; destruct s as [|x s']; [contradiction|];
            destruct (p x); [destruct Hin as [<-|[]]; reflexivity|contradiction]).
  all: try (apply andb_true_iff in Hf as [Hf1 Hf2]; rewrite rmatch_seq in Hin;
            apply in_flat_map in Hin as [st1 [H1 H2]];
            rewrite (IH2 _ _ _ Hf2 H2); exact (IH1 _ _ _ Hf1 H1)).
  all: try (apply andb_true_iff in Hf as [Hf1 Hf2]; rewrite rmatch_alt in Hin;
            apply in_app_or in Hin as [H|H]; [exact (IH1 _ _ _ Hf1 H)|exact (IH2 _ _ _ Hf2 H)]).
  all: try (apply andb_true_iff in Hf as [Hf1 Hf2]; rewrite rmatch_group in Hin;
            apply in_map_iff in Hin as [st1 [<- H1]]; cbn [snd group];
            apply negb_true_iff in Hf1; rewrite Hf1; exact (IH1 _ _ _ Hf2 H1)).
  all: try (rewrite rmatch_lookahead in Hin; destruct (rmatch _ r1 s c) as [|st1 l] eqn:E;
            [contradiction|]; destruct Hin as [<-|[]]; cbn [snd];
            apply (IH1 s c st1 Hf); rewrite E; now left).
  all: try (rewrite rmatch_end in Hin; destruct s as [|x [|y s']]; try destruct (ascii_dec x _);
            try (destruct Hin as [<-|[]]; reflexivity); contradiction).
  all: try (rewrite rmatch_empty in Hin; destruct Hin as [<-|[]]; reflexivity).
  all: rewrite rmatch_repeat in Hin; cbv zeta in Hin.
  all: assert (Hstop : In st (if lo =? 0 then [(s, c)] else []) -> group (snd st) k = group c k)
         by (destruct (lo =? 0); [intros [<-|[]]; reflexivity|intros []]).
  all: destruct g; apply in_app_or in Hin as [Hin|Hin]; try (apply Hstop; exact Hin).
  all: destruct hi as [[|h]|]; try contradiction;
       apply in_flat_map in Hin as [st1 [H1 H2]];
       destruct (List.length (fst st1) <? List.length s); try contradiction.
  all: rewrite (IHn (RRepeat _ _ _ _) _ _ _ Hf H2); exact (IH1 _ _ _ Hf H1).
Qed.

(** [strptime(x, "%Y-%m-%d")] is midnight. *)
Lemma strptime_ymd_midnight (x : string) (d : DT.datetime) :
  DT.strptime x "%Y-%m-%d" = Some d ->
  DT.hour d = 0 /\ DT.minute d = 0 /\ DT.second d = 0 /\ DT.microsecond d = 0.
Proof.
  unfold DT.strptime.
  remember (DT.compile_format (S (String.length "%Y-%m-%d")) (PyStr.chars "%Y-%m-%d")) as o eqn:Eo.
  assert (Hg : match o with
               | Some R => grp_free 72 R && grp_free 77 R && grp_free 83 R = true
               | None => True end) by (subst o; vm_compute; reflexivity).
  destruct o as [R|]; [|discriminate].
  apply andb_true_iff in Hg as [Hg Hs]. apply andb_true_iff in Hg as [Hh Hm].
  destruct (match_prefix R (PyStr.chars x)) as [[[|y l] c]|] eqn:Em; try discriminate.
  unfold match_prefix in Em.
  destruct (rmatch _ R (PyStr.chars x) []) as [|st rest] eqn:Er; [discriminate|].
  injection Em as Est. subst st.
  assert (Hin : In ([], c) (rmatch (List.length (PyStr.chars x)) R (PyStr.chars x) [])) by (rewrite Er; now left).
  pose proof (rmatch_caps 72 _ _ _ _ _ Hh Hin) as G1.
  pose proof (rmatch_caps 77 _ _ _ _ _ Hm Hin) as G2.
  pose proof (rmatch_caps 83 _ _ _ _ _ Hs Hin) as G3.
  cbn [snd group] in G1, G2, G3.
  unfold DT.field. change (nat_of_ascii "H") with 72. change (nat_of_ascii "M") with 77.
  change (nat_of_ascii "S") with 83. rewrite G1, G2, G3. cbn [DT.with_default].
  destruct (DT.valid _); [|discriminate]. intros H; injection H as <-. cbn. auto.
Qed.


Lemma in_range_end_day (lo : option DT.datetime) (b t : DT.datetime) :
  (exists x, DT.strptime x "%Y-%m-%d" = Some b) ->
  DT.year t = DT.year b -> DT.month t = DT.month b -> DT.day t = DT.day b ->
  in_range lo (Some b) (Some t) = true ->
  DT.hour t = 0 /\ DT.minute t = 0 /\ DT.second t = 0 /\ DT.microsecond t = 0.
Proof.
  intros [x Hx] Hy Hm Hd Hr. apply strptime_ymd_midnight in Hx as (H1 & H2 & H3 & H4).
  apply andb_true_iff in Hr as [_ Hr]. unfold dt_le, dt_compare in Hr. cbn in Hr.
  rewrite Hy, Hm, Hd, H1, H2, H3, H4, !Nat.compare_refl in Hr.
  destruct (DT.hour t); [|discriminate]. destruct (DT.minute t); [|discriminate].
  destruct (DT.second t); [|discriminate]. destruct (DT.microsecond t); [|discriminate].
  auto.
Qed.

Lemma filter_date_strptime (x : option string) (b : DT.datetime) :
  filter_date x = Some b -> exists s, DT.strptime s "%Y-%m-%d" = Some b.
Proof.
  destruct x as [s|]; cbn; [|discriminate].
  destruct (String.eqb s EmptyString); [discriminate|]. intro H. now exists s.
Qed.

(** X9: [end_date] keeps an email or chat message of that very day only when
    its timestamp is exactly midnight: [strptime(end_date, "%Y-%m-%d")] is
    midnight and the column is compared with [<=]. *)
Theorem end_date_day_cut (start_date end_date : option string)
  (emails : list email_row) (chats : list chat_row) (b t : DT.datetime)
  (Hb : filter_date end_date = Some b)
  (Hday : DT.year t = DT.year b /\ DT.month t = DT.month b /\ DT.day t = DT.day b)
  (Hlate : 0 < DT.hour t \/ 0 < DT.minute t \/ 0 < DT.second t \/ 0 < DT.microsecond t) :
  (forall e, em_date e = Some t -> ~ In e (select_emails start_date end_date emails)) /\
  (forall c, cl_date_time c = Some t -> ~ In c (select_chats start_date end_date chats)).
Proof.
  destruct Hday as (Hy & Hm & Hd). apply filter_date_strptime in Hb as Hs.
  split; intros r Hr Hin; apply filter_In in Hin as [_ Hin]; rewrite Hb, Hr in Hin;
    destruct (in_range_end_day _ _ _ Hs Hy Hm Hd Hin) as (H1 & H2 & H3 & H4); lia.
Qed.

Definition afternoon_email : email_row :=
  mkemail 1 "alice@example.com" "bob@example.com" "Contract" (Some (DT.mkdt 2024 3 5 14 30 0 0)) "Body" "m1".
Definition afternoon_chat : chat_row :=
  mkchat 1 (Some (DT.mkdt 2024 3 5 14 30 0 0)) "Bob" "See you" "chat.txt".

(** X9, witness: [end_date = "2024-03-05"] drops an email and a chat message of 14:30 that day. *)
Lemma end_date_day_cut_witness :
  filter_date (Some "2024-03-05") = Some (DT.mkdt 2024 3 5 0 0 0 0) /\
  ~ In afternoon_email (select_emails None (Some "2024-03-05") [afternoon_email]) /\
  ~ In afternoon_chat (select_chats None (Some "2024-03-05") [afternoon_chat]).
Proof.
  assert (Hb : filter_date (Some "2024-03-05") = Some (DT.mkdt 2024 3 5 0 0 0 0))
    by (vm_compute; reflexivity).
  destruct (end_date_day_cut None (Some "2024-03-05") [afternoon_email] [afternoon_chat]
              (DT.mkdt 2024 3 5 0 0 0 0) (DT.mkdt 2024 3 5 14 30 0 0) Hb
              (conj eq_refl (conj eq_refl eq_refl)) (or_introl (le_n_S _ _ (Nat.le_0_l _)))) as [He Hc].
  split; [exact Hb|]. split; [exact (He afternoon_email eq_refl)|exact (Hc afternoon_chat eq_refl)].
Defined.

Lemma isoformat_nonempty (d : DT.datetime) : String.eqb (isoformat d) EmptyString = false.
Proof.
  unfold isoformat, isoformat_sep. destruct (pad 4 (DT.year d)); reflexivity.
Qed.

Lemma in_range_dated (lo hi d : option DT.datetime) :
  lo <> None \/ hi <> None -> in_range lo hi d = true -> d <> None.
Proof.
  intros Hf Hr ->. destruct lo, hi; cbn in Hr; try discriminate.
  destruct Hf as [H|H]; now apply H.
Qed.

(** X10: once a start or end date parses, every undated entry of the list
    handed to the model is a PDF document: the [>=]/[<=] tests drop the
    emails and chat messages whose date is [NULL]. *)
Theorem date_filter_undated_pdfs (start_date end_date : option string)
  (emails : list email_row) (chats : list chat_row) (pdfs : list pdf_row) (e : json)
  (Hf : filter_date start_date <> None \/ filter_date end_date <> None) :
  In e (timeline_inputs start_date end_date emails chats pdfs) -> has_date e = false ->
  exists p, In p pdfs /\ e = pdf_event p.
Proof.
  unfold timeline_inputs, aggregate. intros Hin Hd. apply in_app_or in Hin as [Hin|Hin].
  - unfold sort_events in Hin. eapply Permutation_in in Hin; [|apply SortProps.isort_perm].
    apply filter_In in Hin as [_ Hin]. congruence.
  - apply filter_In in Hin as [Hin _]. unfold collect_events in Hin.
    rewrite !in_app_iff, !in_map_iff in Hin.
    destruct Hin as [(m & <- & Hm)|[(c & <- & Hc)|(p & <- & Hp)]].
    + apply filter_In in Hm as [_ Hm]. apply (in_range_dated _ _ _ Hf) in Hm.
      unfold has_date in Hd. rewrite AggregateProps.get_email_date in Hd.
      destruct (em_date m); [|congruence]. unfold date_json, py_truthy in Hd. now rewrite isoformat_nonempty in Hd.
    + apply filter_In in Hc as [_ Hc]. apply (in_range_dated _ _ _ Hf) in Hc.
      unfold has_date in Hd. rewrite AggregateProps.get_chat_date in Hd.
      destruct (cl_date_time c); [|congruence]. unfold date_json, py_truthy in Hd. now rewrite isoformat_nonempty in Hd.
    + now exists p.
Qed.

Definition undated_email : email_row :=
  mkemail 2 "alice@example.com" "bob@example.com" "Undated" None "Body" "m2".
Definition invoice_pdf : pdf_row := mkpdf 1 "invoice.pdf" "Invoice 42" "./uploads/invoice.pdf".

(** X10, witness: with [start_date = "2024-01-01"], an undated email is dropped and an (undated) PDF is kept. *)
Lemma date_filter_undated_pdfs_witness :
  filter_date (Some "2024-01-01") <> None /\
  In (pdf_event invoice_pdf) (timeline_inputs (Some "2024-01-01") None [undated_email] [] [invoice_pdf]) /\
  has_date (pdf_event invoice_pdf) = false /\
  exists p, In p [invoice_pdf] /\ pdf_event invoice_pdf = pdf_event p.
Proof.
  assert (Hf : filter_date (Some "2024-01-01") <> None) by (vm_compute; discriminate).
  assert (Hin : In (pdf_event invoice_pdf)
                  (timeline_inputs (Some "2024-01-01") None [undated_email] [] [invoice_pdf]))
    by (vm_compute; now left).
  assert (Hd : has_date (pdf_event invoice_pdf) = false) by reflexivity.
  split; [exact Hf|]. split; [exact Hin|]. split; [exact Hd|].
  exact (date_filter_undated_pdfs (Some "2024-01-01") None [undated_email] [] [invoice_pdf]
           (pdf_event invoice_pdf) (or_introl Hf) Hin Hd).
Defined.

(** X11: a start or end date that is empty or does not parse as
    [%Y-%m-%d] filters nothing: all emails and chat messages are read. *)
Theorem unparsed_filter_ignored (start_date end_date : option string)
  (emails : list email_row) (chats : list chat_row)
  (Hs : filter_date start_date = None) (He : filter_date end_date = None) :
  select_emails start_date end_date emails = emails /\
  select_chats start_date end_date chats = chats.
Proof.
  unfold select_emails, select_chats. rewrite Hs, He. cbn.
  split; apply forallb_filter_id, forallb_forall; reflexivity.
Qed.

(** X11, witness: a start date in another format and an empty end date. *)
Lemma unparsed_filter_ignored_witness :
  filter_date (Some "03/05/2024") = None /\ filter_date (Some "") = None /\
  select_emails (Some "03/05/2024") (Some "") [afternoon_email; undated_email] = [afternoon_email; undated_email] /\
  select_chats (Some "03/05/2024") (Some "") [afternoon_chat] = [afternoon_chat].
Proof.
  assert (Hs : filter_date (Some "03/05/2024") = None) by (vm_compute; reflexivity).
  assert (He : filter_date (Some "") = None) by reflexivity.
  split; [exact Hs|]. split; [exact He|].
  exact (unparsed_filter_ignored _ _ [afternoon_email; undated_email] [afternoon_chat] Hs He).
Defined.

End FilterProps.

Module GmailProps.
Import Json PyVal Gmail.

(** The header [h] has a [name] that lowercases to [nm]. *)
Definition named (nm : string) (h : json) : bool :=
  match py_index h "name" with Some (JStr s) => String.eqb (py_lower s) nm | _ => false end.

(** The last header named [nm] (case-insensitively). *)
Definition last_named (nm : string) (hs : list json) : option json :=
  fold_left (fun acc h => if named nm h then Some h else acc) hs None.

(** The [value] of the last header named [nm], [Some dflt] when there is
    none. *)
Definition header_value (nm : string) (hs : list json) (dflt : json) : option json :=
  match last_named nm hs with Some h => py_index h "value" | None => Some dflt end.

(** The date a [Date] header gives. *)
Definition date_value (parsedate : string -> option DT.datetime) (utcnow : DT.datetime) (h : json)
    : DT.datetime :=
  match py_index h "value" with
  | Some (JStr x) => match parsedate x with Some d => d | None => utcnow end
  | _ => utcnow
  end.

(** A [text/plain] part whose body has [data]. *)
Definition plain_with_data (part : json) : bool :=
  match py_index part "mimeType" with
  | Some mt =>
      is_str mt "text/plain" &&
      match py_index part "body" with
      | Some b => match py_in "data" b with Some true => true | _ => false end
      | None => false
      end
  | None => false
  end.

Section Fields.

Variable parsedate : string -> option DT.datetime.
Variable utcnow : DT.datetime.

Lemma fold_last_acc (nm : string) (hs : list json) (a : option json) :
  fold_left (fun acc h => if named nm h then Some h else acc) hs a =
  match last_named nm hs with Some h => Some h | None => a end.
Proof.
  unfold last_named. revert a. induction hs as [|x t IH]; intro a; cbn; [reflexivity|].
  rewrite (IH (if named nm x then Some x else a)), (IH (if named nm x then Some x else None)).
  destruct (fold_left _ t None); [reflexivity|]. now destruct (named nm x).
Qed.

Lemma last_named_cons (nm : string) (x : json) (t : list json) :
  last_named nm (x :: t) =
  match last_named nm t with Some h => Some h | None => if named nm x then Some x else None end.
Proof. unfold last_named at 1. cbn. apply fold_last_acc. Qed.

(** The headers loop as a fold, for one field [fld] set by the headers
    named [nm] to [F h]; the other headers leave it. *)
Lemma fold_headers_field {A : Type} (nm : string) (fld : parsed -> A) (F : json -> option A)
  (Hother : forall p h p', header_step parsedate utcnow p h = Some p' -> named nm h = false -> fld p' = fld p)
  (Hset : forall p h p', header_step parsedate utcnow p h = Some p' -> named nm h = true -> F h = Some (fld p')) :
  forall hs p q, fold_opt (header_step parsedate utcnow) p hs = Some q ->
  match last_named nm hs with Some h => F h = Some (fld q) | None => fld q = fld p end.
Proof.
  induction hs as [|x t IH]; intros p q Hf; cbn in Hf.
  - injection Hf as <-. reflexivity.
  - destruct (header_step parsedate utcnow p x) as [p1|] eqn:Hs; [|discriminate].
    specialize (IH _ _ Hf). rewrite last_named_cons.
    destruct (last_named nm t); [exact IH|].
    destruct (named nm x) eqn:Hn.
    + rewrite IH. exact (Hset _ _ _ Hs Hn).
    + rewrite IH. exact (Hother _ _ _ Hs Hn).
Qed.

Lemma named_excl (a b : string) (h : json) : named a h = true -> named b h = true -> a = b.
Proof.
  unfold named. destruct (py_index h "name") as [[| | | |s| |]|]; try discriminate.
  intros Ha Hb. apply String.eqb_eq in Ha, Hb. congruence.
Qed.

Lemma header_step_cases p h p' :
  header_step parsedate utcnow p h = Some p' ->
  (named "from" h = true /\ exists v, py_index h "value" = Some v /\ p' = set_sender p v) \/
  (named "to" h = true /\ exists v, py_index h "value" = Some v /\ p' = set_recipients p v) \/
  (named "subject" h = true /\ exists v, py_index h "value" = Some v /\ p' = set_subject p v) \/
  (named "date" h = true /\ p' = set_date p (date_value parsedate utcnow h)) \/
  (named "from" h = false /\ named "to" h = false /\ named "subject" h = false /\
   named "date" h = false /\ p' = p).
Proof.
  unfold header_step, named, date_value. intro Hs.
  destruct (py_index h "name") as [[| | | |s| |]|]; try discriminate.
  destruct (String.eqb (py_lower s) "from") eqn:E1.
  { left. split; [reflexivity|]. destruct (py_index h "value"); [|discriminate].
    injection Hs as <-. eauto. }
  destruct (String.eqb (py_lower s) "to") eqn:E2.
  { right; left. split; [reflexivity|]. destruct (py_index h "value"); [|discriminate].
    injection Hs as <-. eauto. }
  destruct (String.eqb (py_lower s) "subject") eqn:E3.
  { right; right; left. split; [reflexivity|]. destruct (py_index h "value"); [|discriminate].
    injection Hs as <-. eauto. }
  destruct (String.eqb (py_lower s) "date") eqn:E4.
  { right; right; right; left. split; [reflexivity|]. injection Hs as <-. reflexivity. }
  right; right; right; right. injection Hs as <-. auto.
Qed.

Ltac step_cases Hs Hn :=
  destruct (header_step_cases _ _ _ Hs) as [(Hm & v & Hv & ->)|[(Hm & v & Hv & ->)|[(Hm & v & Hv & ->)|[(Hm & ->)|(H1 & H2 & H3 & H4 & ->)]]]];
  try reflexivity; try assumption;
  try (pose proof (named_excl _ _ _ Hm Hn); discriminate);
  try congruence.

Lemma header_from_other p h p' :
  header_step parsedate utcnow p h = Some p' -> named "from" h = false -> p_sender p' = p_sender p.
Proof. intros Hs Hn. step_cases Hs Hn. Qed.

Lemma header_from_set p h p' :
  header_step parsedate utcnow p h = Some p' -> named "from" h = true -> py_index h "value" = Some (p_sender p').
Proof. intros Hs Hn. step_cases Hs Hn. Qed.

Lemma header_to_other p h p' :
  header_step parsedate utcnow p h = Some p' -> named "to" h = false -> p_recipients p' = p_recipients p.
Proof. intros Hs Hn. step_cases Hs Hn. Qed.

Lemma header_to_set p h p' :
  header_step parsedate utcnow p h = Some p' -> named "to" h = true -> py_index h "value" = Some (p_recipients p').
Proof. intros Hs Hn. step_cases Hs Hn. Qed.

Lemma header_subject_other p h p' :
  header_step parsedate utcnow p h = Some p' -> named "subject" h = false -> p_subject p' = p_subject p.
Proof. intros Hs Hn. step_cases Hs Hn. Qed.

Lemma header_subject_set p h p' :
  header_step parsedate utcnow p h = Some p' -> named "subject" h = true -> py_index h "value" = Some (p_subject p').
Proof. intros Hs Hn. step_cases Hs Hn. Qed.

Lemma header_date_other p h p' :
  header_step parsedate utcnow p h = Some p' -> named "date" h = false -> p_date p' = p_date p.
Proof. intros Hs Hn. step_cases Hs Hn. Qed.

Lemma header_date_set p h p' :
  header_step parsedate utcnow p h = Some p' -> named "date" h = true ->
  Some (Some (date_value parsedate utcnow h)) = Some (p_date p').
Proof. intros Hs Hn. step_cases Hs Hn. Qed.

Lemma header_keeps p h p' :
  header_step parsedate utcnow p h = Some p' -> p_email_id p' = p_email_id p /\ p_body p' = p_body p.
Proof.
  intros Hs. unfold header_step in Hs.
  destruct (py_index h "name") as [[| | | |s| |]|]; try discriminate.
  repeat match type of Hs with
         | (if ?c then _ else _) = _ => destruct c
         | match ?v with Some _ => _ | None => None end = Some _ => destruct v; [|discriminate]
         end; injection Hs as <-; auto.
Qed.

Lemma fold_headers_keeps hs p q :
  fold_opt (header_step parsedate utcnow) p hs = Some q -> p_email_id q = p_email_id p /\ p_body q = p_body p.
Proof.
  revert p. induction hs as [|x t IH]; intros p Hf; cbn in Hf.
  - now injection Hf as <-.
  - destruct (header_step parsedate utcnow p x) as [p1|] eqn:Hs; [|discriminate].
    destruct (IH _ Hf) as [-> ->]. exact (header_keeps _ _ _ Hs).
Qed.

End Fields.

Lemma py_index_in (v : json) (k : string) (x : json) : py_index v k = Some x -> py_in k v = Some true.
Proof.
  destruct v; cbn; try discriminate. intro H. now rewrite (RouteProps.dict_get_has _ _ _ H).
Qed.

Lemma first_plain_find (b64 : json -> option string) (ps : list json) (r : option string) :
  first_plain b64 ps = Some r ->
  match find plain_with_data ps with
  | Some part => exists b d t, py_index part "body" = Some b /\ py_index b "data" = Some d /\
                               b64 d = Some t /\ r = Some t
  | None => r = None
  end.
Proof.
  induction ps as [|part t IH]; cbn; [now injection 1|].
  unfold plain_with_data at 1.
  destruct (py_index part "mimeType") as [mt|]; [|discriminate].
  destruct (is_str mt "text/plain"); cbn; [|exact IH].
  destruct (py_index part "body") as [b|] eqn:Eb; [|discriminate].
  destruct (py_in "data" b) as [[|]|]; [|exact IH|discriminate].
  destruct (py_index b "data") as [d|] eqn:Ed; [|discriminate].
  destruct (b64 d) as [x|] eqn:Ex; [|discriminate].
  injection 1 as <-. eauto 7.
Qed.

(** [_parse_message] runs the headers loop, then only sets [body]. *)
Lemma parse_message_inv (pd : string -> option DT.datetime) (now : DT.datetime)
  (b64 : json -> option string) (msg : json) (q : parsed) :
  parse_message pd now b64 msg = Some q ->
  exists id payload headers hs p,
    py_index msg "id" = Some id /\ py_index msg "payload" = Some payload /\
    py_index payload "headers" = Some headers /\ py_iter headers = Some hs /\
    fold_opt (header_step pd now) (mkparsed id (JStr "") (JStr "") (JStr "") None "") hs = Some p /\
    (q = p \/ exists t, q = set_body p t) /\
    (py_in "parts" payload = Some true ->
     exists parts ps r, py_index payload "parts" = Some parts /\ py_iter parts = Some ps /\
       first_plain b64 ps = Some r /\ q = match r with Some t => set_body p t | None => p end).
Proof.
  unfold parse_message.
  destruct (py_index msg "id") as [id|] eqn:E1; [|discriminate].
  destruct (py_index msg "payload") as [payload|] eqn:E2; [|discriminate].
  destruct (py_index payload "headers") as [headers|] eqn:E3; [|discriminate].
  destruct (py_iter headers) as [hs|] eqn:E4; [|discriminate].
  destruct (fold_opt _ _ hs) as [p|] eqn:E5; [|discriminate].
  intro Hq. exists id, payload, headers, hs, p. do 5 (split; [first [reflexivity|assumption]|]).
  destruct (py_in "parts" payload) as [[|]|]; [|split; [|intro D; discriminate D]|discriminate].
  - destruct (py_index payload "parts") as [parts|]; [|discriminate].
    destruct (py_iter parts) as [ps|] eqn:E7; [|discriminate].
    destruct (first_plain b64 ps) as [r|] eqn:E8; [|discriminate].
    injection Hq as <-. split; [destruct r; [right; eauto|now left]|]. intros _. exists parts, ps, r. auto.
  - destruct (py_in "body" payload) as [[|]|]; [|injection Hq as <-; now left|discriminate].
    destruct (py_index payload "body") as [b|]; [|discriminate].
    destruct (py_in "data" b) as [[|]|]; [|injection Hq as <-; now left|discriminate].
    destruct (py_index b "data"); [|discriminate].
    destruct (b64 _); [|discriminate]. injection Hq as <-. eauto.
Qed.

Lemma map_opt_none {A B : Type} (f : A -> option B) (l : list A) :
  (exists x, In x l /\ f x = None) -> Store.map_opt f l = None.
Proof.
  intros (x & Hx & Hf). induction l as [|y t IH]; [destruct Hx|]. cbn.
  destruct Hx as [<-|Hx]; [now rewrite Hf|].
  destruct (f y); [|reflexivity]. now rewrite (IH Hx).
Qed.

Lemma map_opt_all {A B : Type} (f : A -> option B) (l : list A) :
  (forall x, In x l -> f x <> None) ->
  exists l', Store.map_opt f l = Some l' /\ Forall2 (fun x y => f x = Some y) l l'.
Proof.
  induction l as [|x t IH]; intro Hall; cbn; [now exists []|].
  destruct (f x) as [y|] eqn:Ex; [|exfalso; apply (Hall x); [now left|exact Ex]].
  destruct IH as (l' & -> & Hl'); [intros z Hz; apply Hall; now right|].
  exists (y :: l'). split; [reflexivity|]. now constructor.
Qed.

Lemma fields_after_body (p q : parsed) :
  (q = p \/ exists t, q = set_body p t) ->
  p_email_id q = p_email_id p /\ p_sender q = p_sender p /\ p_recipients q = p_recipients p /\
  p_subject q = p_subject p /\ p_date q = p_date p.
Proof. intros [->|[t ->]]; cbn; auto. Qed.

(** X12: [_parse_message] takes [email_id] from [msg["id"]] and, for the
    headers list of the payload, the [value] of the last [From], [To] and
    [Subject] header (names compared case-insensitively), [""] when there is
    none; [date] is [None] without a [Date] header and otherwise comes from
    the last one, the parse failing to [utcnow()]. *)
Theorem parse_message_headers (pd : string -> option DT.datetime) (now : DT.datetime)
  (b64 : json -> option string) (msg payload : json) (hs : list json) (q : parsed)
  (Hp : py_index msg "payload" = Some payload) (Hh : py_index payload "headers" = Some (JArr hs))
  (Hq : parse_message pd now b64 msg = Some q) :
  py_index msg "id" = Some (p_email_id q) /\
  header_value "from" hs (JStr "") = Some (p_sender q) /\
  header_value "to" hs (JStr "") = Some (p_recipients q) /\
  header_value "subject" hs (JStr "") = Some (p_subject q) /\
  p_date q = option_map (date_value pd now) (last_named "date" hs).
Proof.
  destruct (parse_message_inv _ _ _ _ _ Hq) as (id & payload' & headers & hs' & p & Hi & Hp' & Hh' & Hs & Hf & Hb & _).
  rewrite Hp in Hp'. injection Hp' as <-. rewrite Hh in Hh'. injection Hh' as <-.
  cbn in Hs. injection Hs as <-.
  destruct (fields_after_body _ _ Hb) as (-> & -> & -> & -> & ->).
  destruct (fold_headers_keeps pd now _ _ _ Hf) as [-> _].
  pose proof (fold_headers_field pd now "from" p_sender (fun h => py_index h "value")
                (header_from_other pd now) (header_from_set pd now) _ _ _ Hf) as Gf.
  pose proof (fold_headers_field pd now "to" p_recipients (fun h => py_index h "value")
                (header_to_other pd now) (header_to_set pd now) _ _ _ Hf) as Gt.
  pose proof (fold_headers_field pd now "subject" p_subject (fun h => py_index h "value")
                (header_subject_other pd now) (header_subject_set pd now) _ _ _ Hf) as Gs.
  pose proof (fold_headers_field pd now "date" p_date (fun h => Some (Some (date_value pd now h)))
                (header_date_other pd now) (header_date_set pd now) _ _ _ Hf) as Gd.
  unfold header_value. cbn in Gf, Gt, Gs, Gd.
  split; [exact Hi|].
  split; [destruct (last_named "from" hs); [exact Gf|now rewrite Gf]|].
  split; [destruct (last_named "to" hs); [exact Gt|now rewrite Gt]|].
  split; [destruct (last_named "subject" hs); [exact Gs|now rewrite Gs]|].
  destruct (last_named "date" hs); cbn; [now injection Gd as ->|exact Gd].
Qed.

(** A Gmail message with two [From] headers, an unparsable [Date], and an
    HTML part before the plain text one; [data] is taken as already
    decoded. *)
Definition sample_headers : list json :=
  [JObj [("name", JStr "From"); ("value", JStr "alice@example.com")];
   JObj [("name", JStr "FROM"); ("value", JStr "carol@example.com")];
   JObj [("name", JStr "Date"); ("value", JStr "garbage")];
   JObj [("name", JStr "Subject"); ("value", JStr "Contract")]].

Definition sample_parts : list json :=
  [JObj [("mimeType", JStr "text/html"); ("body", JObj [("data", JStr "<p>Signed</p>")])];
   JObj [("mimeType", JStr "text/plain"); ("body", JObj [("data", JStr "Signed")])]].

Definition sample_payload : json := JObj [("headers", JArr sample_headers); ("parts", JArr sample_parts)].

Definition sample_msg : json := JObj [("id", JStr "m1"); ("payload", sample_payload)].

Definition sample_b64 (v : json) : option string := match v with JStr s => Some s | _ => None end.

Definition sample_now : DT.datetime := DT.mkdt 2024 6 1 8 0 0 0.

(** X12, witness: [sample_msg] has two [From] headers and an unparsable [Date]. *)
Lemma parse_message_headers_witness :
  exists q, parse_message (fun _ => None) sample_now sample_b64 sample_msg = Some q /\
  py_index sample_msg "id" = Some (p_email_id q) /\
  header_value "from" sample_headers (JStr "") = Some (p_sender q) /\
  header_value "to" sample_headers (JStr "") = Some (p_recipients q) /\
  header_value "subject" sample_headers (JStr "") = Some (p_subject q) /\
  p_date q = option_map (date_value (fun _ => None) sample_now) (last_named "date" sample_headers).
Proof.
  eexists. split; [reflexivity|].
  exact (parse_message_headers (fun _ => None) sample_now sample_b64 sample_msg sample_payload
           sample_headers _ eq_refl eq_refl eq_refl).
Defined.

(** X13: when the payload has a [parts] list, [body] is the decoded [data]
    of the first [text/plain] part whose body has [data], and [""] when no
    part is one, whatever [payload["body"]] holds. *)
Theorem parse_message_body_parts (pd : string -> option DT.datetime) (now : DT.datetime)
  (b64 : json -> option string) (msg payload : json) (ps : list json) (q : parsed)
  (Hp : py_index msg "payload" = Some payload) (Hparts : py_index payload "parts" = Some (JArr ps))
  (Hq : parse_message pd now b64 msg = Some q) :
  match find plain_with_data ps with
  | Some part => exists b d, py_index part "body" = Some b /\ py_index b "data" = Some d /\
                             b64 d = Some (p_body q)
  | None => p_body q = ""
  end.
Proof.
  destruct (parse_message_inv _ _ _ _ _ Hq) as (id & payload' & headers & hs & p & Hi & Hp' & _ & _ & Hf & _ & Hparts').
  rewrite Hp in Hp'. injection Hp' as <-.
  destruct (Hparts' (py_index_in _ _ _ Hparts)) as (parts & ps' & r & Hpa & Hit & Hr & ->).
  rewrite Hparts in Hpa. injection Hpa as <-. cbn in Hit. injection Hit as <-.
  destruct (fold_headers_keeps pd now _ _ _ Hf) as [_ Hbody]. cbn in Hbody.
  pose proof (first_plain_find _ _ _ Hr) as G.
  destruct (find plain_with_data ps) as [part|].
  - destruct G as (b & d & t & Hb & Hd & Ht & ->). exists b, d. cbn. auto.
  - subst r. exact Hbody.
Qed.

(** X13, witness: the body of [sample_msg] comes from its second, [text/plain], part. *)
Lemma parse_message_body_parts_witness :
  exists q, parse_message (fun _ => None) sample_now sample_b64 sample_msg = Some q /\
  match find plain_with_data sample_parts with
  | Some part => exists b d, py_index part "body" = Some b /\ py_index b "data" = Some d /\
                             sample_b64 d = Some (p_body q)
  | None => p_body q = ""
  end.
Proof.
  eexists. split; [reflexivity|].
  exact (parse_message_body_parts (fun _ => None) sample_now sample_b64 sample_msg sample_payload
           sample_parts _ eq_refl eq_refl eq_refl).
Defined.

(** X14: [fetch_emails] returns [[]] without Gmail credentials and is all or
    nothing: one listed message whose fetch or parse raises gives [[]];
    otherwise it returns one parsed message per listed message, in order (a
    list result without [messages] lists none). *)
Theorem fetch_emails_all_or_nothing (pd : string -> option DT.datetime) (now : DT.datetime)
  (b64 : json -> option string) (gl : string -> option json) (gg : json -> option json)
  (addrs : list string) (sd ed : option string) (kvs : list (string * json)) (ms : list json)
  (Hl : gl (gmail_query addrs sd ed) = Some (JObj kvs))
  (Hm : get_or kvs "messages" (JArr []) = JArr ms) :
  fetch_emails pd now b64 false gl gg addrs sd ed = [] /\
  ((exists m, In m ms /\ fetch_one pd now b64 gg m = None) ->
   fetch_emails pd now b64 true gl gg addrs sd ed = []) /\
  ((forall m, In m ms -> fetch_one pd now b64 gg m <> None) ->
   Forall2 (fun m p => fetch_one pd now b64 gg m = Some p) ms
           (fetch_emails pd now b64 true gl gg addrs sd ed)).
Proof.
  split; [reflexivity|]. unfold fetch_emails. cbn [negb]. rewrite Hl, Hm. cbn [py_iter].
  split.
  - intros H. now rewrite (map_opt_none _ _ H).
  - intros H. destruct (map_opt_all _ _ H) as (l' & -> & Hl'). exact Hl'.
Qed.

(** A listing of two messages, the second of which cannot be fetched. *)
Definition sample_list (_ : string) : option json :=
  Some (JObj [("messages", JArr [JObj [("id", JStr "m1")]; JObj [("id", JStr "m2")]])]).

Definition sample_get (i : json) : option json := if is_str i "m1" then Some sample_msg else None.

(** X14, witness: the second of two listed messages cannot be fetched. *)
Lemma fetch_emails_all_or_nothing_witness :
  fetch_one (fun _ => None) sample_now sample_b64 sample_get (JObj [("id", JStr "m1")]) <> None /\
  fetch_one (fun _ => None) sample_now sample_b64 sample_get (JObj [("id", JStr "m2")]) = None /\
  fetch_emails (fun _ => None) sample_now sample_b64 false sample_list sample_get
    ["alice@example.com"] (Some "2024/01/01") None = [] /\
  fetch_emails (fun _ => None) sample_now sample_b64 true sample_list sample_get
    ["alice@example.com"] (Some "2024/01/01") None = [].
Proof.
  assert (H2 : fetch_one (fun _ => None) sample_now sample_b64 sample_get (JObj [("id", JStr "m2")]) = None)
    by reflexivity.
  destruct (fetch_emails_all_or_nothing (fun _ => None) sample_now sample_b64 sample_list sample_get
              ["alice@example.com"] (Some "2024/01/01") None
              [("messages", JArr [JObj [("id", JStr "m1")]; JObj [("id", JStr "m2")]])]
              [JObj [("id", JStr "m1")]; JObj [("id", JStr "m2")]] eq_refl eq_refl) as [Hu [Hn _]].
  split; [discriminate|]. split; [exact H2|]. split; [exact Hu|].
  apply Hn. exists (JObj [("id", JStr "m2")]). split; [right; now left|exact H2].
Defined.

End GmailProps.

Module SaveProps.
Import Ingest.

(** The message ids of the new [Email] objects of a batch. *)
Definition pending_ids (items : list saved_email) : list string :=
  flat_map (fun it => match it with Pending d => [ed_email_id d] | Existing _ => [] end) items.

Lemma existsb_email_id (st : list email_row) (k : string) :
  existsb (fun e => String.eqb (em_email_id e) k) st = true <-> In k (map em_email_id st).
Proof.
  rewrite existsb_exists, in_map_iff. split.
  - intros (e & He & E). apply String.eqb_eq in E. now exists e.
  - intros (e & <- & He). exists e. split; [exact He|]. apply String.eqb_refl.
Qed.

Lemma commit_emails_none (items : list saved_email) : forall st,
  commit_emails st items = None <->
  ~ (NoDup (pending_ids items) /\ forall k, In k (pending_ids items) -> ~ In k (map em_email_id st)).
Proof.
  induction items as [|[e|d] t IH]; intro st; cbn [commit_emails pending_ids flat_map app].
  - split; [discriminate|]. intro H. exfalso. apply H. split; [constructor|intros k []].
  - fold (pending_ids t). rewrite <- IH. destruct (commit_emails st t) as [[o s]|]; split; congruence.
  - fold (pending_ids t).
    destruct (existsb (fun e => String.eqb (em_email_id e) (ed_email_id d)) st) eqn:Ex.
    + split; [intros _|reflexivity]. intros (_ & H). apply existsb_email_id in Ex.
      exact (H _ (or_introl eq_refl) Ex).
    + set (r := email_of_data (Store.next_id (map em_id st)) d).
      assert (Hr : em_email_id r = ed_email_id d) by reflexivity.
      transitivity (commit_emails (st ++ [r]) t = None).
      { destruct (commit_emails (st ++ [r]) t) as [[o s]|]; split; congruence. }
      rewrite IH. apply not_iff_compat.
      assert (Nd : ~ In (ed_email_id d) (map em_email_id st))
        by (rewrite <- existsb_email_id, Ex; discriminate).
      rewrite map_app. cbn [map]. rewrite Hr. split.
      * intros (Hn & Hk). split.
        -- constructor; [|exact Hn]. intro Hin. apply (Hk _ Hin). apply in_or_app. right. now left.
        -- intros k [<-|Hk']; [exact Nd|]. intro Hs. apply (Hk _ Hk'). apply in_or_app. now left.
      * intros (Hn & Hk). inversion Hn as [|x l Hx Hn']. subst. split; [exact Hn'|].
        intros k Hk' Hin. apply in_app_or in Hin as [Hin|[<-|[]]].
        -- exact (Hk k (or_intror Hk') Hin).
        -- exact (Hx Hk').
Qed.

(** X18: [save_emails] raises, storing nothing, exactly when two messages
    of the batch that are not stored yet carry the same message id: the
    session does not autoflush, so the [select] of the second one does not
    see the first, and the commit hits the [UNIQUE] constraint.  Repeated
    ids of stored messages do no harm. *)
Theorem save_emails_batch_duplicates (emails : list email_data) (st : list email_row) :
  save_emails emails st = None <->
  ~ NoDup (map ed_email_id
             (filter (fun d => match find_email st (ed_email_id d) with Some _ => false | None => true end)
                     emails)).
Proof.
  unfold save_emails. rewrite commit_emails_none.
  assert (Hp : pending_ids (map (fun d => match find_email st (ed_email_id d) with
                                          | Some e => Existing e | None => Pending d end) emails)
               = map ed_email_id (filter (fun d => match find_email st (ed_email_id d) with
                                                   | Some _ => false | None => true end) emails)).
  { unfold pending_ids. induction emails as [|d t IH]; [reflexivity|]. cbn [map filter].
    destruct (find_email st (ed_email_id d)); cbn [flat_map app map]; now rewrite IH. }
  rewrite Hp. apply not_iff_compat. split; [tauto|]. intro Hn. split; [exact Hn|].
  intros k Hk Hin. apply in_map_iff in Hk as (d & <- & Hd). apply filter_In in Hd as [_ Hd].
  unfold find_email in Hd. destruct (find _ st) eqn:Hf; [discriminate|].
  apply existsb_email_id, existsb_exists in Hin as (e & He & E).
  rewrite (find_none _ _ Hf e He) in E. discriminate.
Qed.

End SaveProps.
